(** * Concurrent pipelines of EJERCICIOS_PRACTICOS_PARTE_2

    A shallow embedding of the four exercises (EJ1 fan-out/fan-in over pipes,
    EJ2 three-stage pipeline, EJ3A/EJ3B averaging with a lock or a pool,
    EJ4 two-stage movie filter) and the properties of their orchestration.

    Conventions.
    - A Python [str] is a [string]; its characters are the code points below
      256.  A text file is its text; [lineas] cuts it the way
      [for linea in f] does.
    - Python's [None] sent through a pipe is [None : option _]; a real
      message is [Some _].
    - A raised exception is [Raise e]; a normal result is [Ok v].
    - A pipe has one sender and one receiver and is first-in first-out, so
      what a process does is a function of the sequence of messages its
      sender puts in the pipe: each process is embedded as that function, its
      result being the state the process ends in (what it sent, what it left
      unread, which endpoints its own [close()] calls closed, how it ended).
      A [send] never fails; a [recv] on a drained pipe whose sender is gone
      raises [EOFError].
    - Processes that share a file and a lock are embedded as a step function
      on a world, driven by an arbitrary schedule.
    - The builtins [int] and [float] belong to the interpreter, not to the
      repository: the code is embedded over an arbitrary reading of numeric
      literals, and concrete readings are supplied for evaluation. *)

From Stdlib Require Import ZArith String Ascii List Lia ZifyBool Permutation.
From stdpp Require Import base option list gmap strings pretty sorting.


(** ** Exceptions *)

Inductive exn : Set :=
| ValueError
| IndexError
| FileNotFoundError
| EOFError
| ZeroDivisionError
| OSError.

Inductive result (A : Type) : Type :=
| Ok (a : A)
| Raise (e : exn).
Arguments Ok {A} a.
Arguments Raise {A} e.

#[global] Instance result_ret : MRet result := fun _ a => Ok a.
#[global] Instance result_bind : MBind result := fun _ _ f m =>
  match m with
  | Ok a => f a
  | Raise e => Raise e
  end.

Definition of_option {A} (e : exn) (o : option A) : result A :=
  match o with
  | Some a => Ok a
  | None => Raise e
  end.

(** ** Python string primitives *)

Module PyStr.

(** [str.isspace] on the code points below 256. *)
Definition is_space (c : ascii) : bool :=
  let n := nat_of_ascii c in
  ((9 <=? n) && (n <=? 13) || (28 <=? n) && (n <=? 32)
   || (n =? 133) || (n =? 160))%nat.

Fixpoint lstrip (s : string) : string :=
  match s with
  | String c r => if is_space c then lstrip r else s
  | EmptyString => EmptyString
  end.

Fixpoint rstrip (s : string) : string :=
  match s with
  | String c r =>
      match rstrip r with
      | EmptyString => if is_space c then EmptyString else String c EmptyString
      | r' => String c r'
      end
  | EmptyString => EmptyString
  end.

(** [s.strip()] *)
Definition strip (s : string) : string := rstrip (lstrip s).

(** [s.split(sep)] for a one-character separator: never the empty list. *)
Fixpoint split (sep : ascii) (s : string) : list string :=
  match s with
  | EmptyString => [EmptyString]
  | String c r =>
      if Ascii.eqb c sep then EmptyString :: split sep r
      else match split sep r with
           | campo :: resto => String c campo :: resto
           | [] => [String c EmptyString]
           end
  end.

(** The characters of [s] before the first [sep]. *)
Fixpoint before (sep : ascii) (s : string) : string :=
  match s with
  | EmptyString => EmptyString
  | String c r => if Ascii.eqb c sep then EmptyString else String c (before sep r)
  end.

(** The first run of non-blank characters and what follows it. *)
Fixpoint token (s : string) : string * string :=
  match s with
  | EmptyString => (EmptyString, EmptyString)
  | String c r =>
      if is_space c then (EmptyString, s)
      else let '(t, rest) := token r in (String c t, rest)
  end.

(** [s.split(maxsplit=1)]: blank-separated, at most one cut; the remainder
    keeps its inner and trailing blanks. *)
Definition split_max1 (s : string) : list string :=
  match lstrip s with
  | EmptyString => []
  | s' =>
      let '(t, rest) := token s' in
      match lstrip rest with
      | EmptyString => [t]
      | rest' => [t; rest']
      end
  end.

(** [str.lower] on the code points below 256. *)
Definition lower_char (c : ascii) : ascii :=
  let n := nat_of_ascii c in
  if ((65 <=? n) && (n <=? 90)
      || (192 <=? n) && (n <=? 222) && negb (n =? 215))%nat
  then ascii_of_nat (n + 32) else c.

Fixpoint lower (s : string) : string :=
  match s with
  | EmptyString => EmptyString
  | String c r => String (lower_char c) (lower r)
  end.

(** [s.count(sub)]: non-overlapping occurrences, scanning from the left.
    [skip] is the number of characters still covered by the last match. *)
Fixpoint count_from (sub : string) (skip : nat) (s : string) : nat :=
  match s with
  | EmptyString => 0
  | String _ r =>
      match skip with
      | S k => count_from sub k r
      | O =>
          if String.prefix sub s
          then S (count_from sub (String.length sub - 1) r)
          else count_from sub 0 r
      end
  end.

Definition count (s sub : string) : nat :=
  match sub with
  | EmptyString => S (String.length s)
  | _ => count_from sub 0 s
  end.

(** [sep.join(parts)] *)
Fixpoint join (sep : string) (parts : list string) : string :=
  match parts with
  | [] => EmptyString
  | [p] => p
  | p :: ps => p +:+ sep +:+ join sep ps
  end.

End PyStr.

(** [l[i]] on a Python list. *)
Definition py_index {A} (l : list A) (i : nat) : result A :=
  of_option IndexError (l !! i).

(** ** The interpreter's numeric builtins *)

(** [int(s)] on a [str]: [None] stands for [ValueError]. *)
Class Enteros := { int_of_str : string → option Z }.

(** Python floats.  [float_of_str] is [float(s)] ([None] for [ValueError]),
    [f_sum] the builtin [sum] on a non-empty list of floats, [f_div x n] the
    quotient [x / n] for a positive [int] [n], [f_sub] the difference,
    [f_gt] the comparison [>], [f_fmt2 x] the text of [f"{x:.2f}"] and
    [f_repr x] the text of [f"{x}"]. *)
Class Flotantes := {
  float : Type;
  float_of_str : string → option float;
  f_zero : float;
  f_sum : list float → float;
  f_div : float → nat → float;
  f_sub : float → float → float;
  f_gt : float → float → bool;
  f_fmt2 : float → string;
  f_repr : float → string;
}.

(** The strict order of the floats: [>] is irreflexive and transitive
    (a NaN is related to nothing). *)
Class OrdenFlotantes (Fl : Flotantes) : Prop := {
  f_gt_irrefl : ∀ x : float, f_gt x x = false;
  f_gt_trans : ∀ x y z : float, f_gt x y = true → f_gt y z = true → f_gt x z = true;
}.

Definition py_int `{Enteros} (s : string) : result Z :=
  of_option ValueError (int_of_str s).

Definition py_float `{Flotantes} (s : string) : result float :=
  of_option ValueError (float_of_str s).

(** [x / n] with [n] an [int]: raises on a zero divisor. *)
Definition py_truediv `{Flotantes} (x : float) (n : nat) : result float :=
  match n with
  | O => Raise ZeroDivisionError
  | S _ => Ok (f_div x n)
  end.

(** [str(n)] for an [int]. *)
Definition py_str (n : Z) : string := pretty n.

(** ** Files *)

Definition LF : ascii := ascii_of_nat 10.
Definition CR : ascii := ascii_of_nat 13.
Definition nl : string := String LF EmptyString.

(** A file is its text, or exists but cannot be read or written. *)
Inductive fichero : Type :=
| Texto (t : string)
| Ilegible.

Abbreviation sistema := (gmap string fichero).

(** [open(ruta, 'r')] followed by reading the whole text. *)
Definition abrir (fs : sistema) (ruta : string) : result string :=
  match fs !! ruta with
  | None => Raise FileNotFoundError
  | Some (Texto t) => Ok t
  | Some Ilegible => Raise OSError
  end.

(** [open(ruta, 'a')] and one [write]. *)
Definition apendar (fs : sistema) (ruta : string) (t : string) : result sistema :=
  match fs !! ruta with
  | None => Ok (<[ruta := Texto t]> fs)
  | Some (Texto t0) => Ok (<[ruta := Texto (t0 +:+ t)]> fs)
  | Some Ilegible => Raise OSError
  end.

(** [open(ruta, 'w')] and the writes that follow. *)
Definition escribir (fs : sistema) (ruta : string) (t : string) : result sistema :=
  match fs !! ruta with
  | Some Ilegible => Raise OSError
  | _ => Ok (<[ruta := Texto t]> fs)
  end.

(** [for linea in f]: the lines of a text, each with its terminator, the
    terminators "\r", "\n" and "\r\n" all read as "\n". *)
Fixpoint lineas (s : string) : list string :=
  match s with
  | EmptyString => []
  | String c r =>
      if Ascii.eqb c LF then nl :: lineas r
      else if Ascii.eqb c CR then
        match r with
        | String c' r' => if Ascii.eqb c' LF then nl :: lineas r' else nl :: lineas r
        | EmptyString => [nl]
        end
      else match lineas r with
           | l :: ls => String c l :: ls
           | [] => [String c EmptyString]
           end
  end.

(** What [os.getpid()] and the two [time.perf_counter()] calls return in one
    process. *)
Record entorno `{Flotantes} : Type := Entorno { pid : Z; t0 : float; t1 : float }.
Arguments Entorno {_} pid t0 t1.

(** ** EJ2: generator, filter and printer connected by two pipes *)

Module EJ2.

Inductive clase : Set := A | B | C | D | E.

(** The bounds of each class, as the docstring of [clase_ip] lists them. *)
Definition rango (c : clase) : Z * Z :=
  match c with
  | A => (1, 126)
  | B => (128, 191)
  | C => (192, 223)
  | D => (224, 239)
  | E => (240, 254)
  end%Z.

Section Etapas.
Context `{Ent : Enteros}.

(** [int(ip.split('.')[0])] *)
Definition primer_octeto (ip : string) : result Z :=
  campo ← py_index (PyStr.split "." ip) 0;
  py_int campo.

Definition clase_ip (ip : string) : option clase :=
  match primer_octeto ip with
  | Raise _ => None
  | Ok primer =>
      if ((1 <=? primer) && (primer <=? 126) && negb (primer =? 127))%Z then Some A
      else if ((128 <=? primer) && (primer <=? 191))%Z then Some B
      else if ((192 <=? primer) && (primer <=? 223))%Z then Some C
      else if ((224 <=? primer) && (primer <=? 239))%Z then Some D
      else if ((240 <=? primer) && (primer <=? 254))%Z then Some E
      else None
  end.

(** [cl in ('A', 'B', 'C')] *)
Definition en_ABC (cl : option clase) : bool :=
  match cl with
  | Some A | Some B | Some C => true
  | _ => false
  end.

(** The state of the filter process: its counters, what it has sent so far
    (oldest first), what is left unread in its input pipe, which endpoints
    its own [close()] calls have closed, and how it ended. *)
Record filtro : Type := Filtro {
  recibidas : nat;
  reenviadas : nat;
  enviados : list (option (string * clase));
  sin_leer : list (option string);
  recv_cerrado : bool;
  send_cerrado : bool;
  fin : result unit;
}.

Definition filtro_inicial (entrada : list (option string)) : filtro :=
  Filtro 0 0 [] entrada false false (Ok ()).

(** The [while True] loop.  [entrada] is everything the sender puts in the
    pipe before closing it; a [recv] on the drained pipe raises [EOFError]. *)
Fixpoint filtrar_bucle (entrada : list (option string)) (st : filtro) : filtro :=
  match entrada with
  | [] =>
      Filtro (recibidas st) (reenviadas st) (enviados st) [] false false (Raise EOFError)
  | None :: resto =>
      Filtro (recibidas st) (reenviadas st) (enviados st) resto false false (Ok ())
  | Some ip :: resto =>
      let cl := clase_ip ip in
      match cl with
      | Some c =>
          if en_ABC cl
          then filtrar_bucle resto
                 (Filtro (S (recibidas st)) (S (reenviadas st))
                    (enviados st ++ [Some (ip, c)]) resto false false (Ok ()))
          else filtrar_bucle resto
                 (Filtro (S (recibidas st)) (reenviadas st) (enviados st)
                    resto false false (Ok ()))
      | None =>
          filtrar_bucle resto
            (Filtro (S (recibidas st)) (reenviadas st) (enviados st)
               resto false false (Ok ()))
      end
  end.

Definition filtrar_ips (entrada : list (option string)) : filtro :=
  let st := filtrar_bucle entrada (filtro_inicial entrada) in
  match fin st with
  | Raise e => st
  | Ok _ =>
      Filtro (recibidas st) (reenviadas st) (enviados st ++ [None])
        (sin_leer st) true true (Ok ())
  end.

End Etapas.

(** The state of the printer process. *)
Record impresor : Type := Impresor {
  procesadas : nat;
  impresos : list (string * clase);
  i_sin_leer : list (option (string * clase));
  i_recv_cerrado : bool;
  i_fin : result unit;
}.

Fixpoint imprimir_bucle (entrada : list (option (string * clase))) (st : impresor)
  : impresor :=
  match entrada with
  | [] => Impresor (procesadas st) (impresos st) [] false (Raise EOFError)
  | None :: resto => Impresor (procesadas st) (impresos st) resto false (Ok ())
  | Some (ip, cl) :: resto =>
      imprimir_bucle resto
        (Impresor (S (procesadas st)) (impresos st ++ [(ip, cl)]) resto false (Ok ()))
  end.

Definition imprimir_ips (entrada : list (option (string * clase))) : impresor :=
  let st := imprimir_bucle entrada (Impresor 0 [] entrada false (Ok ())) in
  match i_fin st with
  | Raise e => st
  | Ok _ => Impresor (procesadas st) (impresos st) (i_sin_leer st) true (Ok ())
  end.

(** The state of the generator process.  [azar k] is what the [k]-th call of
    [random.randint(1, 254)] returns. *)
Record generador : Type := Generador {
  g_enviados_n : nat;
  g_enviados : list (option string);
  g_send_cerrado : bool;
}.

Definition una_ip (azar : nat → Z) (k : nat) : string :=
  PyStr.join "." (py_str <$> (azar <$> seq (4 * k) 4)).

Definition generar_ips (n : nat) (azar : nat → Z) : generador :=
  let ips := una_ip azar <$> seq 0 n in
  Generador (length ips) ((Some <$> ips) ++ [None]) true.

(** The three processes of [__main__], each reading what the one before it
    has sent. *)
Definition tuberia `{Enteros} (n : nat) (azar : nat → Z)
  : generador * filtro * impresor :=
  let p1 := generar_ips n azar in
  let p2 := filtrar_ips (g_enviados p1) in
  let p3 := imprimir_ips (enviados p2) in
  (p1, p2, p3).

(** What the filter lets through, in the words of its docstring: the
    addresses of class A, B or C, each with its class. *)
Definition supervivientes `{Enteros} (ips : list string) : list (string * clase) :=
  omap (λ ip, match clase_ip ip with
              | Some c => if en_ABC (Some c) then Some (ip, c) else None
              | None => None
              end) ips.

End EJ2.

(** ** EJ1: one vowel-counting process per vowel, one pipe each *)

Module EJ1.

Section Vocales.
Context `{Fl : Flotantes}.

(** The tuple [(vocal, conteo, pid, dur)] a worker sends. *)
Record mensaje : Type := Mensaje {
  m_vocal : string;
  m_conteo : Z;
  m_pid : Z;
  m_dur : float;
}.

(** What a worker has done with its [conn_send]: the messages sent, whether
    its own [close()] ran, and how it ended. *)
Record trabajador : Type := Trabajador {
  w_enviados : list mensaje;
  w_cerrado : bool;
  w_fin : result unit;
}.

(** The [for linea in f] loop of the worker. *)
Definition contar (vocal texto : string) : Z :=
  foldl (λ conteo linea,
           (conteo + Z.of_nat (PyStr.count (PyStr.lower linea) (PyStr.lower vocal)))%Z)
        0%Z (lineas texto).

Definition contar_vocal_pipe (vocal ruta : string) (env : entorno) (fs : sistema)
  : trabajador :=
  let conteo :=
    match abrir fs ruta with
    | Ok texto => Ok (contar vocal texto)
    | Raise FileNotFoundError => Ok (-1)%Z
    | Raise e => Raise e
    end in
  match conteo with
  | Ok c =>
      Trabajador [Mensaje vocal c (pid env) (f_sub (t1 env) (t0 env))] true (Ok ())
  | Raise e => Trabajador [] false (Raise e)
  end.

(** The parent's end of one pipe at collection time: what is buffered and
    whether every writing end is closed. *)
Record canal : Type := Canal {
  buffer : list mensaje;
  escritor_cerrado : bool;
}.

(** [conn_recv.poll(timeout=0.5)]: data, or end of stream, is readable. *)
Definition poll (c : canal) : bool :=
  match buffer c with
  | _ :: _ => true
  | [] => escritor_cerrado c
  end.

(** [conn_recv.recv()] once [poll] has answered [True]. *)
Definition recv (c : canal) : result mensaje :=
  match buffer c with
  | m :: _ => Ok m
  | [] => Raise EOFError
  end.

(** One value of the [resultados] dictionary. *)
Record info : Type := Info {
  conteo : Z;
  i_pid : option Z;
  dur : option float;
}.

(** [{'conteo': -1, 'pid': None, 'dur': None}] *)
Definition ausente : info := Info (-1)%Z None None.

Definition de_mensaje (m : mensaje) : info :=
  Info (m_conteo m) (Some (m_pid m)) (Some (m_dur m)).

(** The entry due to one worker: what it sent, or the marker. *)
Definition anotado (c : canal) : info :=
  match buffer c with
  | m :: _ => de_mensaje m
  | [] => ausente
  end.

(** One turn of the collection loop: the [try] with its [except EOFError]. *)
Definition recoger_uno (resultados : gmap string info) (v : string) (c : canal)
  : result (gmap string info) :=
  let intento :=
    if poll c
    then m ← recv c; Ok (<[m_vocal m := de_mensaje m]> resultados)
    else Ok (<[v := ausente]> resultados) in
  match intento with
  | Raise EOFError => Ok (<[v := ausente]> resultados)
  | r => r
  end.

Fixpoint recoger (procesos : list (string * canal)) (resultados : gmap string info)
  : result (gmap string info) :=
  match procesos with
  | [] => Ok resultados
  | (v, c) :: resto => r ← recoger_uno resultados v c; recoger resto r
  end.

Definition vocales : list string := ["a"; "e"; "i"; "o"; "u"].

(** What has become of one worker when the parent collects: it ran to its
    end in some file system and environment, or nothing has arrived and its
    pipe is still open. *)
Inductive destino : Type :=
| Termino (fs : sistema) (env : entorno)
| SinRespuesta.

Definition canal_de (v ruta : string) (d : destino) : canal :=
  match d with
  | Termino fs env => Canal (w_enviados (contar_vocal_pipe v ruta env fs)) true
  | SinRespuesta => Canal [] false
  end.

(** Launch, join and collect: lines 63 to 99 of [__main__]. *)
Definition orquestar (ruta : string) (destinos : string → destino)
  : result (gmap string info) :=
  recoger ((λ v, (v, canal_de v ruta (destinos v))) <$> vocales) ∅.

(** One line of the final report. *)
Inductive linea_informe : Type :=
| ErrorLeyendo (v : string) (p : option Z)
| Conteo (v : string) (n : Z) (p : option Z) (d : option float).

Definition str_le (a b : string) : Prop := String.leb a b = true.

#[global] Instance str_le_dec : RelDecision str_le :=
  λ a b, decide (String.leb a b = true).

(** The [for v in sorted(resultados.keys())] loop. *)
Definition informe (resultados : gmap string info) : list linea_informe :=
  omap (λ v, i ← resultados !! v;
             Some (if (conteo i =? -1)%Z then ErrorLeyendo v (i_pid i)
                   else Conteo v (conteo i) (i_pid i) (dur i)))
       (merge_sort str_le (elements (dom resultados))).

(** The two-line sample written by [crear_fichero_ejemplo]. *)
Definition ejemplo : string :=
  "Este es un fichero de ejemplo. Contiene varias vocales: "
  +:+ "aaaa eeee iiii oooo uuuu. Adem" +:+ String (ascii_of_nat 225) "s algunas palabras en may"
  +:+ String (ascii_of_nat 250) "sculas: AEIOU." +:+ nl
  +:+ "Multiprocessing permite ejecutar tareas en paralelo y acelerar ciertos trabajos."
  +:+ nl.

Fixpoint repetir (n : nat) (s : string) : string :=
  match n with
  | O => EmptyString
  | S k => s +:+ repetir k s
  end.

Definition crear_fichero_ejemplo (fs : sistema) (ruta : string) (repeticiones : nat)
  : result sistema :=
  escribir fs ruta (repetir repeticiones ejemplo).

(** [__main__]: every worker reads the file system the parent leaves. *)
Definition main (fs : sistema) (envs : string → entorno)
  : result (list linea_informe) :=
  let ruta := "texto.txt" in
  fs' ← match fs !! ruta with
        | None => crear_fichero_ejemplo fs ruta 2000
        | Some _ => Ok fs
        end;
  resultados ← orquestar ruta (λ v, Termino fs' (envs v));
  Ok (informe resultados).

End Vocales.

End EJ1.

(** ** EJ3: students' marks, their means and the best mean *)

Module EJ3.

(** [''.join(parts)] *)
Definition concatenar (parts : list string) : string :=
  foldr String.append EmptyString parts.

(** [f"Alumno{i}.txt"] and [f"Alumno{i}"] *)
Definition ruta_alumno (i : nat) : string := "Alumno" +:+ py_str (Z.of_nat i) +:+ ".txt".
Definition nombre_alumno (i : nat) : string := "Alumno" +:+ py_str (Z.of_nat i).

(** [(f"Alumno{i}.txt", f"Alumno{i}") for i in range(1, n + 1)] *)
Definition tareas_med (n : nat) : list (string * string) :=
  (λ i, (ruta_alumno i, nombre_alumno i)) <$> seq 1 n.

Section Medias.
Context `{Fl : Flotantes}.

(** The mark one line of an input file contributes, if any. *)
Definition nota_de (linea : string) : option float :=
  match PyStr.strip linea with
  | EmptyString => None
  | limpia => float_of_str limpia
  end.

(** A well-formed line of [medias.txt]: a float followed by a name. *)
Definition bien_formada (linea : string) (nota : float) (nombre : string) : Prop :=
  ∃ p0, PyStr.split_max1 (PyStr.strip linea) = [p0; nombre]
        ∧ float_of_str p0 = Some nota.

(** The loop that fills [notas]: blank lines are skipped, and so is a line
    on which [float] raises [ValueError]. *)
Fixpoint leer_notas (ls : list string) (notas : list float) : result (list float) :=
  match ls with
  | [] => Ok notas
  | linea :: resto =>
      match PyStr.strip linea with
      | EmptyString => leer_notas resto notas
      | limpia =>
          match py_float limpia with
          | Ok x => leer_notas resto (notas ++ [x])
          | Raise ValueError => leer_notas resto notas
          | Raise e => Raise e
          end
      end
  end.

(** [sum(notas) / len(notas)] under its guard. *)
Definition media_de (notas : list float) : result float :=
  match notas with
  | [] => Ok f_zero
  | _ :: _ => py_truediv (f_sum notas) (length notas)
  end.

(** [f"{media:.2f} {nombre_alumno}\n"] *)
Definition linea_media (media : float) (nombre : string) : string :=
  f_fmt2 media +:+ " " +:+ nombre +:+ nl.

(** Reading one input file up to the mean: [None] when the file is absent
    (the worker prints an error and is done). *)
Definition leer_media (fs : sistema) (ruta : string) : result (option float) :=
  match abrir fs ruta with
  | Raise FileNotFoundError => Ok None
  | Raise e => Raise e
  | Ok texto =>
      notas ← leer_notas (lineas texto) [];
      media ← media_de notas;
      Ok (Some media)
  end.

(** What a process prints. *)
Inductive impreso : Type :=
| ErrorNoEncontrado (ruta : string)
| MediaCalculada (media : float) (nombre : string)
| NotaMaxima (nota : float) (alumno : string)
| SinMedias (ruta : string).

(** One line of [medias.txt] as the max-finder reads it: the mark and the
    name, or [None] for a line the loop skips. *)
Definition entrada_de (linea : string) : result (option (float * string)) :=
  match PyStr.strip linea with
  | EmptyString => Ok None
  | limpia =>
      match PyStr.split_max1 limpia with
      | [p0; p1] =>
          match py_float p0 with
          | Ok nota => Ok (Some (nota, p1))
          | Raise ValueError => Ok None
          | Raise e => Raise e
          end
      | _ => Ok None
      end
  end.

(** The scan that keeps [max_nota] and [alumno_max]. *)
Fixpoint maximo_bucle (ls : list string) (mejor : option (float * string))
  : result (option (float * string)) :=
  match ls with
  | [] => Ok mejor
  | linea :: resto =>
      e ← entrada_de linea;
      match e with
      | None => maximo_bucle resto mejor
      | Some (nota, nombre) =>
          match mejor with
          | None => maximo_bucle resto (Some (nota, nombre))
          | Some (max_nota, _) =>
              if f_gt nota max_nota
              then maximo_bucle resto (Some (nota, nombre))
              else maximo_bucle resto mejor
          end
      end
  end.

(** What the scan holds after the lines [vistas]: nothing if none of them
    is well formed, else the pair of one of them that no other exceeds. *)
Definition mejor_de (vistas : list string) (mejor : option (float * string)) : Prop :=
  match mejor with
  | None => ∀ linea n a, linea ∈ vistas → ¬ bien_formada linea n a
  | Some (m, am) =>
      (∃ linea, linea ∈ vistas ∧ bien_formada linea m am)
      ∧ ∀ linea n a, linea ∈ vistas → bien_formada linea n a → f_gt n m = false
  end.

(** [proceso_maximo_medias], the same text in EJ3A.py and EJ3B.py. *)
Definition proceso_maximo_medias (fs : sistema) (ruta_medias : string)
  : result impreso :=
  match abrir fs ruta_medias with
  | Raise FileNotFoundError => Ok (ErrorNoEncontrado ruta_medias)
  | Raise e => Raise e
  | Ok texto =>
      mejor ← maximo_bucle (lineas texto) None;
      match mejor with
      | Some (max_nota, alumno_max) => Ok (NotaMaxima max_nota alumno_max)
      | None => Ok (SinMedias ruta_medias)
      end
  end.

End Medias.

End EJ3.

(** ** EJ3A: one process per student, appending under a shared lock *)

Module EJ3A.
Import EJ3.

Section Cerrojo.
Context `{Fl : Flotantes}.

(** One worker run on its own: the file system it leaves and what it
    prints.  It returns [None] on every path. *)
Definition calcular_media_y_apendar
    (ruta_fichero nombre_alumno ruta_medias : string) (fs : sistema)
  : result (sistema * impreso) :=
  m ← leer_media fs ruta_fichero;
  match m with
  | None => Ok (fs, ErrorNoEncontrado ruta_fichero)
  | Some media =>
      fs' ← apendar fs ruta_medias (linea_media media nombre_alumno);
      Ok (fs', MediaCalculada media nombre_alumno)
  end.

(** Where one worker stands when several run at once. *)
Inductive fase : Type :=
| Inicio                          (* has not read its input yet *)
| Calculada (linea : string)      (* has its line, waits at [with lock] *)
| EnSeccion (pendiente : string)  (* holds the lock; [pendiente] is unwritten *)
| Fin                             (* returned *)
| Fallo (e : exn).                (* ended by an exception *)

(** The workers, the holder of the lock, and the text of [medias.txt]. *)
Record mundo : Type := Mundo {
  procesos : list fase;
  cerrojo : option nat;
  sumidero : string;
}.

(** The scheduler's choice: worker [i] takes its next step, or the write of
    worker [i] fails with [e]. *)
Inductive eleccion : Type :=
| Turno (i : nat)
| Averia (i : nat) (e : exn).

(** One step of [calcular_media_y_apendar] in worker [i].  From [Inicio]
    the worker reads its input and computes its line (lines 28 to 47: a
    missing file ends it, another failure kills it); from [Calculada] it
    enters [with lock] if the lock is free and otherwise does not move (line
    50); inside, the text of [fm.write] reaches the file one character at a
    time (lines 51 and 52); with nothing left to write it leaves the [with]
    blocks, which releases the lock.  A failure of the write also leaves the
    [with lock] block, which releases the lock as well. *)
Definition paso (fs : sistema) (tareas : list (string * string))
    (w : mundo) (el : eleccion) : mundo :=
  match el with
  | Turno i =>
      match procesos w !! i with
      | Some Inicio =>
          match tareas !! i with
          | Some (ruta, nombre) =>
              match leer_media fs ruta with
              | Ok (Some media) =>
                  Mundo (<[i := Calculada (linea_media media nombre)]> (procesos w))
                    (cerrojo w) (sumidero w)
              | Ok None => Mundo (<[i := Fin]> (procesos w)) (cerrojo w) (sumidero w)
              | Raise e => Mundo (<[i := Fallo e]> (procesos w)) (cerrojo w) (sumidero w)
              end
          | None => w
          end
      | Some (Calculada linea) =>
          match cerrojo w with
          | None => Mundo (<[i := EnSeccion linea]> (procesos w)) (Some i) (sumidero w)
          | Some _ => w
          end
      | Some (EnSeccion (String c resto)) =>
          Mundo (<[i := EnSeccion resto]> (procesos w)) (cerrojo w)
            (sumidero w +:+ String c EmptyString)
      | Some (EnSeccion EmptyString) =>
          Mundo (<[i := Fin]> (procesos w)) None (sumidero w)
      | _ => w
      end
  | Averia i e =>
      match procesos w !! i with
      | Some (EnSeccion _) => Mundo (<[i := Fallo e]> (procesos w)) None (sumidero w)
      | _ => w
      end
  end.

Definition ejecutar (fs : sistema) (tareas : list (string * string))
    (w : mundo) (plan : list eleccion) : mundo :=
  foldl (paso fs tareas) w plan.

(** [__main__] has removed [medias.txt] and started one worker per task. *)
Definition inicial (tareas : list (string * string)) : mundo :=
  Mundo (replicate (length tareas) Inicio) None EmptyString.

(** All workers have returned. *)
Definition todos_fin (w : mundo) : Prop := Forall (λ f, f = Fin) (procesos w).

(** The line worker [i] is to append. *)
Definition linea_de (fs : sistema) (tareas : list (string * string)) (i : nat)
  : option string :=
  match tareas !! i with
  | Some (ruta, nombre) =>
      match leer_media fs ruta with
      | Ok (Some media) => Some (linea_media media nombre)
      | _ => None
      end
  | None => None
  end.

Definition linea_o_vacia (fs : sistema) (tareas : list (string * string)) (i : nat)
  : string :=
  default EmptyString (linea_de fs tareas i).

(** No worker has been ended by an exception. *)
Definition sin_fallos (w : mundo) : Prop :=
  ∀ i e, procesos w !! i ≠ Some (Fallo e).

(** What holds of every world the workers can reach: a waiting worker holds
    its own line; the lock is held exactly by the worker inside the section;
    and, as long as no worker has failed, the file is the lines of the
    workers that have returned, in the order [orden] in which they returned,
    followed by what the holder of the lock has written of its line. *)
Definition coherente (fs : sistema) (tareas : list (string * string)) (w : mundo)
  : Prop :=
  length (procesos w) = length tareas
  ∧ (∀ i l, procesos w !! i = Some (Calculada l) → linea_de fs tareas i = Some l)
  ∧ (∀ i, cerrojo w = Some i ↔ ∃ p, procesos w !! i = Some (EnSeccion p))
  ∧ (sin_fallos w →
     ∃ orden parcial,
       NoDup orden
       ∧ (∀ i, i ∈ orden ↔ procesos w !! i = Some Fin)
       ∧ sumidero w = concatenar (linea_o_vacia fs tareas <$> orden) +:+ parcial
       ∧ match cerrojo w with
         | None => parcial = EmptyString
         | Some i =>
             ∃ p, procesos w !! i = Some (EnSeccion p)
                  ∧ linea_de fs tareas i = Some (parcial +:+ p)
         end).

(** The turns a worker whose line is [linea] still needs, in phase [f],
    when no other worker holds the lock. *)
Definition pasos_restantes (linea : string) (f : fase) : nat :=
  match f with
  | Inicio => 3 + String.length linea
  | Calculada l => 2 + String.length l
  | EnSeccion p => 1 + String.length p
  | Fin | Fallo _ => 0
  end.

(** Every task names an input file that exists and can be read. *)
Definition entradas_legibles (fs : sistema) (tareas : list (string * string)) : Prop :=
  ∀ i, i < length tareas → is_Some (linea_de fs tareas i).

(** Turns enough for worker [i] to go from its start to its end. *)
Definition turnos (fs : sistema) (tareas : list (string * string)) (i : nat)
  : list eleccion :=
  replicate (3 + String.length (linea_o_vacia fs tareas i)) (Turno i).

(** A plan that runs the workers one after the other, each to its end. *)
Definition plan_secuencial (fs : sistema) (tareas : list (string * string))
  : list eleccion :=
  mjoin (turnos fs tareas <$> seq 0 (length tareas)).

(** A plan that brings a world to its end: first the holder of the lock, if
    any, leaves the critical section, then the workers run one after the
    other. *)
Definition completar (fs : sistema) (tareas : list (string * string)) (w : mundo)
  : list eleccion :=
  match cerrojo w with
  | Some i => turnos fs tareas i
  | None => []
  end ++ plan_secuencial fs tareas.

(** [generar_notas]; [azar k] is the value of the [k]-th
    [round(random.uniform(1.0, 10.0), 2)] of the process. *)
Definition generar_notas (ruta_fichero : string) (n_notas : nat)
    (azar : nat → float) (fs : sistema) : result sistema :=
  escribir fs ruta_fichero
    (concatenar ((λ k, f_repr (azar k) +:+ nl) <$> seq 0 n_notas)).

(** The first stage of [__main__]: one generator process per student, with
    the default of six marks.  [orden] lists the students in the order in
    which their generators write; [azar i] is what the generator of student
    [i] draws.  A generator that fails ends alone: the others, and
    [__main__], go on. *)
Definition etapa_generacion (orden : list nat) (azar : nat → nat → float)
    (fs : sistema) : sistema :=
  foldl (λ fs i, match generar_notas (ruta_alumno i) 6 (azar i) fs with
                 | Ok fs' => fs'
                 | Raise _ => fs
                 end) fs orden.

End Cerrojo.

End EJ3A.

(** ** EJ3B: the same work through a pool of four processes *)

Module EJ3B.
Import EJ3.

Section Pool.
Context `{Fl : Flotantes}.

(** The tuple [calcular_media_pool] returns. *)
Record resultado_med : Type := ResultadoMed {
  r_media : float;
  r_nombre : string;
  r_dur : float;
  r_pid : Z;
}.

(** The tuple [generar_notas_pool] returns. *)
Record resultado_gen : Type := ResultadoGen {
  g_ruta : string;
  g_dur : float;
  g_pid : Z;
}.

(** The text [generar_notas_pool] writes; [azar k] is the value of the
    [k]-th [round(random.uniform(1.0, 10.0), 2)] of the call. *)
Definition texto_notas (n_notas : nat) (azar : nat → float) : string :=
  concatenar ((λ k, f_repr (azar k) +:+ nl) <$> seq 0 n_notas).

Definition generar_notas_pool (args : string * nat) (env : entorno)
    (azar : nat → float) (fs : sistema) : sistema * result resultado_gen :=
  let '(ruta_fichero, n_notas) := args in
  match escribir fs ruta_fichero (texto_notas n_notas azar) with
  | Ok fs' => (fs', Ok (ResultadoGen ruta_fichero (f_sub (t1 env) (t0 env)) (pid env)))
  | Raise e => (fs, Raise e)
  end.

Definition calcular_media_pool (args : string * string) (env : entorno)
    (azar : nat → float) (fs : sistema) : sistema * result resultado_med :=
  let '(ruta_fichero, nombre_alumno) := args in
  (fs,
   match abrir fs ruta_fichero with
   | Raise FileNotFoundError => Ok (ResultadoMed f_zero nombre_alumno f_zero (pid env))
   | Raise e => Raise e
   | Ok texto =>
       notas ← leer_notas (lineas texto) [];
       media ← media_de notas;
       Ok (ResultadoMed media nombre_alumno (f_sub (t1 env) (t0 env)) (pid env))
   end).

(** One task run to completion by some pool process: which task, and what
    that process sees of the world. *)
Record ejecucion : Type := Ejecucion {
  indice : nat;
  e_env : entorno;
  e_azar : nat → float;
}.

Section Map.
Context {T R : Type}.
Variable work : T → entorno → (nat → float) → sistema → sistema * result R.

(** Modelled from the spec: [multiprocessing.Pool.map] is library code,
    absent from the repository; section 4.5 of the spec describes it as
    distributing an ordered task sequence across reusable workers and
    returning one result per task once all tasks are done.  The embedding is
    the mechanism of the library: the plan lists the task runs in the order
    in which they complete (any order, any worker), each result is stored in
    the slot of its task index, only the first exception is kept, and
    [quedan] counts the tasks still to complete. *)
Fixpoint pool_bucle (tareas : list T) (plan : list ejecucion) (fs : sistema)
    (huecos : list (option R)) (error : option exn) (quedan : nat)
  : sistema * list (option R) * option exn * nat :=
  match plan with
  | [] => (fs, huecos, error, quedan)
  | e :: resto =>
      match tareas !! indice e with
      | None => pool_bucle tareas resto fs huecos error quedan
      | Some t =>
          match work t (e_env e) (e_azar e) fs with
          | (fs', Ok v) =>
              pool_bucle tareas resto fs' (<[indice e := Some v]> huecos) error
                (pred quedan)
          | (fs', Raise x) =>
              pool_bucle tareas resto fs' huecos (Some (default x error))
                (pred quedan)
          end
      end
  end.

(** Modelled from the spec: [pool.map(work, tareas)], the call of the
    library function described in section 4.5.  [None] while some task has
    not completed; otherwise the exception kept, or the contents of the
    slots. *)
Definition pool_map (tareas : list T) (plan : list ejecucion) (fs : sistema)
  : option (sistema * result (list R)) :=
  let '(fs', huecos, error, quedan) :=
    pool_bucle tareas plan fs (replicate (length tareas) None) None (length tareas) in
  match quedan with
  | S _ => None
  | O =>
      match error with
      | Some x => Some (fs', Raise x)
      | None => rs ← mapM id huecos; Some (fs', Ok rs)
      end
  end.

End Map.

(** Every task is run exactly once, in any order of completion. *)
Definition plan_valido {T} (tareas : list T) (plan : list ejecucion) : Prop :=
  indice <$> plan ≡ₚ seq 0 (length tareas).

(** [(f"Alumno{i}.txt", N_NOTAS) for i in range(1, n + 1)] *)
Definition tareas_gen (n n_notas : nat) : list (string * nat) :=
  (λ i, (ruta_alumno i, n_notas)) <$> seq 1 n.

(** What holds of the file system throughout the generation batch: no
    student's file is unwritable, and [medias.txt] has been removed. *)
Definition inv_gen (n : nat) (fs : sistema) : Prop :=
  (∀ i, 1 ≤ i ≤ n → fs !! ruta_alumno i ≠ Some Ilegible)
  ∧ fs !! "medias.txt" = None.

(** What the generation run [e] leaves behind: its tuple, and the marks it
    drew in the file of its student. *)
Definition hecho_gen (n_notas : nat) (e : ejecucion) (v : resultado_gen)
    (fs : sistema) : Prop :=
  v = ResultadoGen (ruta_alumno (S (indice e)))
        (f_sub (t1 (e_env e)) (t0 (e_env e))) (pid (e_env e))
  ∧ fs !! ruta_alumno (S (indice e)) = Some (Texto (texto_notas n_notas (e_azar e))).

(** The text the parent writes to [medias.txt] from [resultados_med]. *)
Definition texto_medias (resultados_med : list resultado_med) : string :=
  concatenar ((λ r, linea_media (r_media r) (r_nombre r)) <$> resultados_med).

(** What [__main__] leaves: both result lists, the file system and the line
    of the max-finder. *)
Record final : Type := Final {
  resultados_gen : list resultado_gen;
  resultados_med : list resultado_med;
  ficheros : sistema;
  maximo : impreso;
}.

(** [__main__] with [n] students and [n_notas] marks each; [None] while a
    pool has not returned. *)
Definition main (n n_notas : nat) (plan_gen plan_med : list ejecucion) (fs : sistema)
  : option (result final) :=
  let ruta_medias := "medias.txt" in
  let fs0 := delete ruta_medias fs in
  '(fs1, rg) ← pool_map generar_notas_pool (tareas_gen n n_notas) plan_gen fs0;
  match rg with
  | Raise e => Some (Raise e)
  | Ok rgen =>
      '(fs2, rm) ← pool_map calcular_media_pool (tareas_med n) plan_med fs1;
      Some (rmed ← rm;
            fs3 ← escribir fs2 ruta_medias (texto_medias rmed);
            mx ← proceso_maximo_medias fs3 ruta_medias;
            Ok (Final rgen rmed fs3 mx))
  end.

End Pool.

End EJ3B.

(** ** EJ4: the source of the movie filter *)

Module EJ4.

Inductive aviso : Type :=
| FicheroNoEncontrado (ruta : string)
| ErrorLeyendo (e : exn)
| FiltradoTerminado (enviados : nat).

(** What the source process has done: the messages sent (oldest first),
    what it printed, whether its own [close()] ran, and how it ended. *)
Record filtrador : Type := Filtrador {
  enviados : list (option string);
  avisos : list aviso;
  send_cerrado : bool;
  fin : result unit;
}.

Section Peliculas.
Context `{Ent : Enteros}.

(** The body of the [for linea in f] loop: the message to send, if any. *)
Definition pelicula_de (anyo_objetivo : Z) (linea : string) : result (option string) :=
  match PyStr.strip linea with
  | EmptyString => Ok None
  | limpia =>
      match PyStr.strip <$> PyStr.split ";" limpia with
      | [titulo; anyo_str] =>
          match py_int anyo_str with
          | Ok anyo =>
              if (anyo =? anyo_objetivo)%Z
              then Ok (Some (titulo +:+ ";" +:+ py_str anyo))
              else Ok None
          | Raise ValueError => Ok None
          | Raise e => Raise e
          end
      | _ => Ok None
      end
  end.

Fixpoint filtrar_lineas (anyo_objetivo : Z) (ls : list string) (enviadas : list string)
  : list string * result unit :=
  match ls with
  | [] => (enviadas, Ok ())
  | linea :: resto =>
      match pelicula_de anyo_objetivo linea with
      | Ok (Some p) => filtrar_lineas anyo_objetivo resto (enviadas ++ [p])
      | Ok None => filtrar_lineas anyo_objetivo resto enviadas
      | Raise e => (enviadas, Raise e)
      end
  end.

Definition proceso_filtrar_por_anyo (ruta_fichero : string) (anyo_objetivo : Z)
    (fs : sistema) : filtrador :=
  let '(enviadas, r) :=
    match abrir fs ruta_fichero with
    | Ok texto => filtrar_lineas anyo_objetivo (lineas texto) []
    | Raise e => ([], Raise e)
    end in
  let error :=
    match r with
    | Ok _ => []
    | Raise FileNotFoundError => [FicheroNoEncontrado ruta_fichero]
    | Raise e => [ErrorLeyendo e]
    end in
  Filtrador ((Some <$> enviadas) ++ [None])
    (error ++ [FiltradoTerminado (length enviadas)]) true (Ok ()).

(** [f"{n:04d}"]: the sign, then zeros up to a width of four, then the
    digits. *)
Fixpoint ceros (k : nat) : string :=
  match k with
  | O => EmptyString
  | S k' => String "0" (ceros k')
  end.

Definition fmt_04d (n : Z) : string :=
  let signo := if (n <? 0)%Z then "-" else "" in
  let cifras := py_str (Z.abs n) in
  signo +:+ ceros (4 - String.length signo - String.length cifras) +:+ cifras.

(** [f"peliculas{anyo_objetivo:04d}.txt"] *)
Definition nombre_salida (anyo_objetivo : Z) : string :=
  "peliculas" +:+ fmt_04d anyo_objetivo +:+ ".txt".

Inductive aviso_escritor : Type :=
| ErrorEscribiendo (nombre : string) (e : exn)
| EscrituraTerminada (nombre : string) (escritas : nat).

(** What the writer process has done: its counter, the file system it
    leaves, what it left unread in its pipe, what it printed, whether its own
    [close()] ran, and how it ended. *)
Record escritor : Type := Escritor {
  escritas : nat;
  e_ficheros : sistema;
  e_sin_leer : list (option string);
  e_avisos : list aviso_escritor;
  e_recv_cerrado : bool;
  e_fin : result unit;
}.

(** The [while True] loop of the writer: the text written so far, the
    counter, and what is left unread.  Both the sentinel and the [EOFError]
    of a drained pipe break the loop. *)
Fixpoint escribir_bucle (entrada : list (option string)) (texto : string) (n : nat)
  : string * nat * list (option string) :=
  match entrada with
  | [] => (texto, n, [])
  | None :: resto => (texto, n, resto)
  | Some item :: resto => escribir_bucle resto (texto +:+ item +:+ nl) (S n)
  end.

Definition proceso_escribir_peliculas (entrada : list (option string))
    (anyo_objetivo : Z) (fs : sistema) : escritor :=
  let nombre := nombre_salida anyo_objetivo in
  match escribir fs nombre EmptyString with
  | Raise e =>
      Escritor 0 fs entrada
        [ErrorEscribiendo nombre e; EscrituraTerminada nombre 0] true (Ok ())
  | Ok _ =>
      let '(texto, n, resto) := escribir_bucle entrada EmptyString 0 in
      Escritor n (<[nombre := Texto texto]> fs) resto
        [EscrituraTerminada nombre n] true (Ok ())
  end.

(** [validar_anyo_input]; [anyo_actual] is [datetime.now().year]. *)
Definition validar_anyo_input (anyo_actual : Z) (anyo_str : string)
  : result (option Z) :=
  match py_int anyo_str with
  | Raise ValueError => Ok None
  | Raise e => Raise e
  | Ok anyo =>
      if (anyo >=? anyo_actual)%Z then Ok None
      else if (anyo <=? 0)%Z then Ok None
      else Ok (Some anyo)
  end.

(** The loop that asks for the year.  [tecleado] is what [input()] returns
    call after call; it raises [EOFError] when nothing is left.  The result
    is the year, the number of entries turned down, and what is left. *)
Fixpoint pedir_anyo (anyo_actual : Z) (tecleado : list string) (rechazadas : nat)
  : result (Z * nat * list string) :=
  match tecleado with
  | [] => Raise EOFError
  | entrada :: resto =>
      v ← validar_anyo_input anyo_actual (PyStr.strip entrada);
      match v with
      | Some anyo => Ok (anyo, rechazadas, resto)
      | None => pedir_anyo anyo_actual resto (S rechazadas)
      end
  end.

(** How [__main__] ends: by [sys.exit(1)], or with both processes joined. *)
Inductive final : Type :=
| Salida (rechazadas : nat)
| Terminado (anyo : Z) (rechazadas : nat) (p1 : filtrador) (p2 : escritor).

(** What the source finds when it opens its file.  [__main__] starts the
    writer first, and the writer truncates its output file when it opens it
    and fills it while the source reads.  When the path typed is that very
    file, and the file can be opened, the text the source has read by the
    time it meets the end of the file is decided by the race between the two
    processes: [visto] stands for it, and may be any text.  In every other
    case the source reads the file system as [__main__] found it.  A file is
    its path, here as everywhere in [sistema]. *)
Definition leido (ruta : string) (anyo : Z) (visto : string) (fs : sistema)
  : sistema :=
  if decide (ruta = nombre_salida anyo)
  then match fs !! ruta with
       | Some (Texto _) => <[ruta := Texto visto]> fs
       | _ => fs
       end
  else fs.

(** [__main__], once both processes have been joined.  The writer is run
    on what the source has sent, and writes on the file system as [__main__]
    found it; the source reads what [leido] gives. *)
Definition main (anyo_actual : Z) (tecleado : list string) (visto : string)
    (fs : sistema) : result final :=
  '(anyo, rechazadas, resto) ← pedir_anyo anyo_actual tecleado 0;
  match resto with
  | [] => Raise EOFError
  | linea :: _ =>
      match PyStr.strip linea with
      | EmptyString => Ok (Salida rechazadas)
      | ruta =>
          match fs !! ruta with
          | None => Ok (Salida rechazadas)
          | Some _ =>
              let p1 := proceso_filtrar_por_anyo ruta anyo (leido ruta anyo visto fs) in
              let p2 := proceso_escribir_peliculas (enviados p1) anyo fs in
              Ok (Terminado anyo rechazadas p1 p2)
          end
      end
  end.

End Peliculas.

End EJ4.

(** ** Concrete readings of the numeric builtins, for evaluation *)

Module Lectura.

Definition es_digito (c : ascii) : bool :=
  ((48 <=? nat_of_ascii c) && (nat_of_ascii c <=? 57))%nat.

Definition valor (c : ascii) : Z := Z.of_nat (nat_of_ascii c - 48).

(** Decimal digits, single underscores allowed between two digits. *)
Fixpoint digitos (s : string) (acc : Z) (tras_digito : bool) : option Z :=
  match s with
  | EmptyString => if tras_digito then Some acc else None
  | String c r =>
      if es_digito c then digitos r (10 * acc + valor c)%Z true
      else if Ascii.eqb c "_" then
        if tras_digito then digitos r acc false else None
      else None
  end.

(** [int(s)] for a [str] of code points below 256. *)
Definition int_literal (s : string) : option Z :=
  match PyStr.strip s with
  | String "+" r => digitos r 0%Z false
  | String "-" r => Z.opp <$> digitos r 0%Z false
  | limpia => digitos limpia 0%Z false
  end.

#[global] Instance enteros : Enteros := {| int_of_str := int_literal |}.

(** Marks in hundredths: a fixed-point stand-in for the floats, exact on
    the two-decimal numbers the exercises write. *)
Definition centesimas (ent frac : string) : option Z :=
  e ← digitos ent 0%Z false;
  match frac with
  | EmptyString => Some (100 * e)%Z
  | String d1 EmptyString =>
      if es_digito d1 then Some (100 * e + 10 * valor d1)%Z else None
  | String d1 (String d2 r) =>
      if es_digito d1 && es_digito d2 && forallb es_digito (list_ascii_of_string r)
      then Some (100 * e + 10 * valor d1 + valor d2)%Z else None
  end.

Definition sin_signo (s : string) : option Z :=
  match PyStr.split "." s with
  | [ent] => centesimas ent EmptyString
  | [ent; frac] => centesimas ent frac
  | _ => None
  end.

Definition decimal_literal (s : string) : option Z :=
  match PyStr.strip s with
  | String "+" r => sin_signo r
  | String "-" r => Z.opp <$> sin_signo r
  | limpia => sin_signo limpia
  end.

Definition dos_cifras (n : Z) : string :=
  (if (n <? 10)%Z then "0" else "") +:+ pretty n.

Definition fmt2 (x : Z) : string :=
  (if (x <? 0)%Z then "-" else "")
  +:+ pretty (Z.abs x / 100)%Z +:+ "." +:+ dos_cifras (Z.abs x mod 100)%Z.

#[global] Instance flotantes : Flotantes := {|
  float := Z;
  float_of_str := decimal_literal;
  f_zero := 0%Z;
  f_sum := foldr Z.add 0%Z;
  f_div := λ x n, (x / Z.of_nat n)%Z;
  f_sub := Z.sub;
  f_gt := Z.gtb;
  f_fmt2 := fmt2;
  f_repr := fmt2;
|}.

End Lectura.

(** ** A reading of the floats with a NaN, for evaluation *)

Module ConNaN.

(** A number in hundredths, or the NaN that [float("nan")] returns. *)
Inductive nota : Type :=
| Num (x : Z)
| NaN.

(** [float(s)]: the text "nan", in any case and between blanks, reads as
    the NaN; any other text reads as in [Lectura]. *)
Definition leer (s : string) : option nota :=
  if String.eqb (PyStr.lower (PyStr.strip s)) "nan" then Some NaN
  else Num <$> Lectura.decimal_literal s.

(** [x > y]: false whenever one side is the NaN. *)
Definition mayor (x y : nota) : bool :=
  match x, y with
  | Num a, Num b => (a >? b)%Z
  | _, _ => false
  end.

Definition suma (x y : nota) : nota :=
  match x, y with
  | Num a, Num b => Num (a + b)
  | _, _ => NaN
  end.

Definition dividir (x : nota) (n : nat) : nota :=
  match x with
  | Num a => Num (a / Z.of_nat n)
  | NaN => NaN
  end.

Definition resta (x y : nota) : nota :=
  match x, y with
  | Num a, Num b => Num (a - b)
  | _, _ => NaN
  end.

Definition texto (x : nota) : string :=
  match x with
  | Num a => Lectura.fmt2 a
  | NaN => "nan"
  end.

Definition flotantes : Flotantes := {|
  float := nota;
  float_of_str := leer;
  f_zero := Num 0;
  f_sum := foldr suma (Num 0);
  f_div := dividir;
  f_sub := resta;
  f_gt := mayor;
  f_fmt2 := texto;
  f_repr := texto;
|}.


End ConNaN.

(** ** Concrete inputs *)

Module Ejemplos.
Import Lectura.

(** A process with pid 4242 whose clock reads 10.00 and then 12.50. *)
Definition env0 : entorno := Entorno 4242%Z 1000%Z 1250%Z.

(** Random marks 5.00, 5.25, 5.50, ... *)
Definition azar0 : nat → float := λ k, (500 + 25 * Z.of_nat k)%Z.

(** Random octets 10, 201, 30, 203, 50, ... *)
Definition octetos0 : nat → Z :=
  λ k, (if Nat.even k then 10 * (Z.of_nat k + 1) else 200 + Z.of_nat k)%Z.

Definition fs_vacio : sistema := {[ "Alumno1.txt" := Texto "" ]}.

Definition fs_notas : sistema :=
  {[ "Alumno1.txt" := Texto ("7.00" +:+ nl +:+ "8.00" +:+ nl +:+ "x" +:+ nl);
     "Alumno2.txt" := Texto (nl +:+ "9.50" +:+ nl) ]}.

Definition texto_medias_ej : string :=
  "7.50 Alumno1" +:+ nl +:+ "  " +:+ nl +:+ "9.50 Alumno2" +:+ nl
  +:+ "xx yy" +:+ nl +:+ "9.50 Alumno3" +:+ nl +:+ "solo" +:+ nl.

Definition fs_medias : sistema := {[ "medias.txt" := Texto texto_medias_ej ]}.

Definition fs_texto : sistema :=
  {[ "texto.txt" := Texto ("Hola Ana" +:+ nl +:+ "AEIOU u") ]}.

Definition fs_peliculas_vacio : sistema := {[ "peliculas.txt" := Texto "" ]}.

(** Task [i] run by the pool process of pid [100 + i mod 4], drawing the
    marks [i+1].00, [i+1].25, ... *)
Definition corrida (i : nat) : EJ3B.ejecucion :=
  EJ3B.Ejecucion i (Entorno (100 + Z.of_nat (i mod 4)) 1000%Z 1250%Z)
    (λ k, (100 * (Z.of_nat i + 1) + 25 * Z.of_nat k)%Z).

(** A schedule of two workers: both compute, worker 1 takes the lock,
    worker 0 tries in vain while worker 1 writes, then each runs to its end. *)
Definition plan_intercalado : list EJ3A.eleccion :=
  [EJ3A.Turno 0; EJ3A.Turno 1; EJ3A.Turno 1; EJ3A.Turno 0; EJ3A.Turno 1;
   EJ3A.Turno 0; EJ3A.Turno 1; EJ3A.Turno 1; EJ3A.Turno 0]
  ++ replicate 12 (EJ3A.Turno 1) ++ replicate 16 (EJ3A.Turno 0).

(** Two orders of completion for three tasks. *)
Definition plan_gen_ej : list EJ3B.ejecucion := [corrida 2; corrida 0; corrida 1].
Definition plan_med_ej : list EJ3B.ejecucion := [corrida 1; corrida 2; corrida 0].

End Ejemplos.

(** ** Characters of a text *)

Module Car.

(** Every character of [s] satisfies [p]. *)
Fixpoint todos (p : ascii → bool) (s : string) : bool :=
  match s with
  | EmptyString => true
  | String c r => p c && todos p r
  end.

(** The number of characters of [s] that satisfy [p]. *)
Fixpoint cuenta (p : ascii → bool) (s : string) : nat :=
  match s with
  | EmptyString => 0
  | String c r => (if p c then 1 else 0) + cuenta p r
  end.

(** Neither a line feed nor a carriage return. *)
Definition no_salto (c : ascii) : bool := negb (Ascii.eqb c LF || Ascii.eqb c CR).

Definition es_cifra_o_menos (c : ascii) : bool :=
  Lectura.es_digito c || Ascii.eqb c "-".

Definition no_blanco (c : ascii) : bool := negb (PyStr.is_space c).

Definition no_es (x : ascii) (c : ascii) : bool := negb (Ascii.eqb c x).

End Car.

(** The real messages of a pipe up to its first sentinel, and what follows
    that sentinel. *)
Fixpoint hasta_centinela {X} (l : list (option X)) : list X :=
  match l with
  | Some x :: r => x :: hasta_centinela r
  | _ => []
  end.

Fixpoint tras_centinela {X} (l : list (option X)) : list (option X) :=
  match l with
  | Some _ :: r => tras_centinela r
  | None :: r => r
  | [] => []
  end.

Definition con_centinela {X} (l : list (option X)) : bool :=
  existsb (λ m, match m with None => true | Some _ => false end) l.

(** The law that ties [int] to [str]: reading the decimal text of an integer
    gives that integer back. *)
Class LeyEnteros (Ent : Enteros) : Prop := {
  int_de_str : ∀ n : Z, int_of_str (py_str n) = Some n;
}.

(** A message of the movie source in normal form for the year [anyo]: a
    title that is stripped and holds neither a separator nor a line break, a
    separator, and the decimal text of [anyo]. *)
Definition normalizado (anyo : Z) (p : string) : Prop :=
  ∃ titulo,
    p = titulo +:+ ";" +:+ py_str anyo
    ∧ PyStr.strip titulo = titulo
    ∧ Car.todos (Car.no_es ";") titulo = true
    ∧ Car.todos Car.no_salto titulo = true.

(** A mark whose written line reads back as the mark itself: its text
    holds no line break, and [float] gives the mark again. *)
Definition nota_legible `{Flotantes} (x : float) : Prop :=
  Car.todos Car.no_salto (f_repr x) = true
  ∧ EJ3.nota_de (f_repr x +:+ nl) = Some x.

(** [x] is what [float] reads from the two-decimal text of the mean [m],
    a text that holds no blank. *)
Definition media_legible `{Flotantes} (m x : float) : Prop :=
  Car.todos Car.no_blanco (f_fmt2 m) = true
  ∧ f_fmt2 m ≠ EmptyString
  ∧ float_of_str (f_fmt2 m) = Some x.

(** The vowel a line of the report of EJ1 is about. *)
Definition vocal_de_linea `{Flotantes} (l : EJ1.linea_informe) : string :=
  match l with
  | EJ1.ErrorLeyendo v _ => v
  | EJ1.Conteo v _ _ _ => v
  end.

(** ** More concrete inputs *)

Module Ejemplos_resto.
Import Lectura.

Definition peliculas_ej : string :=
  "Matrix ; 1999" +:+ nl +:+ "Otra;2000" +:+ nl +:+ "mala" +:+ nl
  +:+ "Club; 1_999 " +:+ nl +:+ "a;b;1999".

Definition fs_peliculas : sistema := {[ "p.txt" := Texto peliculas_ej ]}.

(** The output file of the year 1999 exists and cannot be written. *)
Definition fs_salida_bloqueada : sistema := {[ "peliculas1999.txt" := Ilegible ]}.

(** The file of the second student exists and cannot be written. *)
Definition fs_alumno_bloqueado : sistema := {[ "Alumno2.txt" := Ilegible ]}.


(** Student [i] draws the marks [i].00, [i].25, [i].50, ... *)
Definition azar_alumnos : nat → nat → float :=
  λ i k, (100 * Z.of_nat i + 25 * Z.of_nat k)%Z.

(** What [__main__] of EJ3B leaves for three students with two marks each. *)
Definition final_ej : EJ3B.final :=
  match EJ3B.main 3 2 Ejemplos.plan_gen_ej Ejemplos.plan_med_ej ∅ with
  | Some (Ok f) => f
  | _ => EJ3B.Final [] [] ∅ (EJ3.SinMedias EmptyString)
  end.

End Ejemplos_resto.

(** * Properties *)

(** ** Python string primitives *)

Lemma split_nonempty sep s : PyStr.split sep s ≠ [].
Proof.
  destruct s as [|c r]; simpl; [done|].
  destruct (Ascii.eqb c sep); [done|]. by destruct (PyStr.split sep r).
Qed.

(** The first field of [s.split(sep)] is what precedes the first [sep]. *)
Lemma split_head sep s : PyStr.split sep s !! 0 = Some (PyStr.before sep s).
Proof.
  induction s as [|c r IH]; simpl; [done|].
  destruct (Ascii.eqb c sep); [done|].
  destruct (PyStr.split sep r) as [|campo resto]; simpl in *; congruence.
Qed.

(** ** EJ2 *)

Section EJ2_propiedades.
Import EJ2.
Context `{Ent : Enteros}.

Lemma primer_octeto_campo ip :
  primer_octeto ip = py_int (PyStr.before "." ip).
Proof. unfold primer_octeto, py_index. by rewrite split_head. Qed.

Lemma clase_ip_de_entero ip n :
  int_of_str (PyStr.before "." ip) = Some n →
  ∀ c, clase_ip ip = Some c ↔ (fst (rango c) ≤ n ≤ snd (rango c))%Z.
Proof.
  intros Hn c. unfold clase_ip. rewrite primer_octeto_campo.
  unfold py_int. rewrite Hn. simpl.
  repeat match goal with
         | |- context [if ?b then _ else _] =>
             destruct b eqn:?;
             [destruct c; simpl; split; intros; try discriminate; try lia; done|]
         end.
  destruct c; simpl; split; intros; try discriminate; lia.
Qed.

(** C9: [clase_ip] classifies by the integer read from the first
    dot-separated field, class by class within the documented bounds, and
    answers [None] in every other case; indexing the split never fails and
    a failed parse is absorbed, so no exception leaves the function. *)
Theorem clase_ip_total_exhaustiva (ip : string) :
  let campo := PyStr.before "." ip in
  PyStr.split "." ip !! 0 = Some campo
  ∧ primer_octeto ip = py_int campo
  ∧ (∀ c, clase_ip ip = Some c ↔
          ∃ n, int_of_str campo = Some n ∧ (fst (rango c) ≤ n ≤ snd (rango c))%Z)
  ∧ (clase_ip ip = None ↔
       int_of_str campo = None
       ∨ ∃ n, int_of_str campo = Some n ∧ (n ≤ 0 ∨ n = 127 ∨ 255 ≤ n)%Z).
Proof.
  intros campo. split; [apply split_head|]. split; [apply primer_octeto_campo|].
  destruct (int_of_str campo) as [n|] eqn:Hn.
  - pose proof (clase_ip_de_entero ip n Hn) as Hc. split.
    + intros c. rewrite Hc. split; [eauto|]. by intros (m & [= <-] & Hm).
    + split.
      * intros Hnone. right. exists n. split; [done|].
        destruct (decide (n ≤ 0 ∨ n = 127 ∨ 255 ≤ n)%Z) as [|Hno]; [done|].
        assert (∃ c, (fst (rango c) ≤ n ≤ snd (rango c))%Z) as [c Hin].
        { destruct (decide (n ≤ 126)%Z); [exists A; simpl; lia|].
          destruct (decide (n ≤ 191)%Z); [exists B; simpl; lia|].
          destruct (decide (n ≤ 223)%Z); [exists C; simpl; lia|].
          destruct (decide (n ≤ 239)%Z); [exists D; simpl; lia|].
          exists E; simpl; lia. }
        apply Hc in Hin. congruence.
      * intros [[=]|(m & [= <-] & Hm)].
        destruct (clase_ip ip) as [c|]; [|done].
        pose proof (proj1 (Hc c) eq_refl) as Hcl. destruct c; simpl in Hcl; lia.
  - assert (clase_ip ip = None) as Hnone.
    { unfold clase_ip. rewrite primer_octeto_campo. unfold py_int.
      fold campo. by rewrite Hn. }
    split.
    + intros c. rewrite Hnone. split; [done|]. by intros (m & [=] & _).
    + split; [by left|done].
Qed.

(** *** The loops of the filter and of the printer *)

Lemma supervivientes_cons ip ips :
  supervivientes (ip :: ips)
  = match clase_ip ip with
    | Some c => if en_ABC (Some c) then (ip, c) :: supervivientes ips
                else supervivientes ips
    | None => supervivientes ips
    end.
Proof. unfold supervivientes. simpl. by destruct (clase_ip ip) as [[]|]. Qed.

Lemma filtrar_bucle_centinela ips extra st :
  filtrar_bucle ((Some <$> ips) ++ None :: extra) st
  = Filtro (recibidas st + length ips)
      (reenviadas st + length (supervivientes ips))
      (enviados st ++ (Some <$> supervivientes ips)) extra false false (Ok ()).
Proof.
  revert st. induction ips as [|ip ips IH]; intros st.
  - simpl. by rewrite !Nat.add_0_r, app_nil_r.
  - rewrite supervivientes_cons. simpl.
    destruct (clase_ip ip) as [[]|] eqn:Hc; simpl; rewrite IH; simpl;
      rewrite <- ?app_assoc; simpl; f_equal; lia.
Qed.

Lemma imprimir_bucle_centinela items extra st :
  imprimir_bucle ((Some <$> items) ++ None :: extra) st
  = Impresor (procesadas st + length items) (impresos st ++ items) extra false (Ok ()).
Proof.
  revert st. induction items as [|[ip cl] items IH]; intros st; simpl.
  - by rewrite Nat.add_0_r, app_nil_r.
  - rewrite IH; simpl. rewrite <- app_assoc. simpl. f_equal; lia.
Qed.

Lemma filtrar_ips_centinela ips extra :
  filtrar_ips ((Some <$> ips) ++ None :: extra)
  = Filtro (length ips) (length (supervivientes ips))
      ((Some <$> supervivientes ips) ++ [None]) extra true true (Ok ()).
Proof. unfold filtrar_ips. by rewrite filtrar_bucle_centinela. Qed.

Lemma imprimir_ips_centinela items extra :
  imprimir_ips ((Some <$> items) ++ None :: extra)
  = Impresor (length items) items extra true (Ok ()).
Proof. unfold imprimir_ips. by rewrite imprimir_bucle_centinela. Qed.

Lemma supervivientes_filtro ips :
  (supervivientes ips).*1 = List.filter (λ ip, en_ABC (clase_ip ip)) ips.
Proof.
  induction ips as [|ip ips IH]; [done|].
  rewrite supervivientes_cons. cbn [List.filter].
  destruct (clase_ip ip) as [[]|]; cbn [en_ABC fmap list_fmap fst];
    try (f_equal; []); exact IH.
Qed.

Lemma supervivientes_clase ips :
  Forall (λ m, clase_ip m.1 = Some m.2 ∧ (m.2 = A ∨ m.2 = B ∨ m.2 = C))
    (supervivientes ips).
Proof.
  induction ips as [|ip ips IH]; [by constructor|].
  rewrite supervivientes_cons.
  destruct (clase_ip ip) as [[]|] eqn:Hc; simpl; try done;
    constructor; simpl; auto.
Qed.

Lemma omap_id_con_centinela {X} (xs : list X) :
  omap id ((Some <$> xs) ++ [None]) = xs.
Proof. induction xs as [|x xs IH]; csimpl; [done|]. by rewrite IH. Qed.

(** The sentinels in a sequence of messages. *)
Lemma centinelas_tras_reales {X} (xs : list X) :
  List.filter (λ m : option X, negb (bool_decide (is_Some m))) ((Some <$> xs) ++ [None])
  = [None].
Proof.
  induction xs as [|x xs IH]; [done|]. exact IH.
Qed.

(** C1: on an input that carries its one sentinel after the real messages,
    the filter leaves its loop at the sentinel (what follows stays unread),
    ends normally with both endpoints closed, and has sent exactly one
    sentinel, placed after its last forwarded message; the printer fed with
    that output ends normally having consumed everything up to and including
    that one sentinel. *)
Theorem centinela_unico_en_la_tuberia (ips : list string) (extra : list (option string)) :
  let p2 := filtrar_ips ((Some <$> ips) ++ None :: extra) in
  let p3 := imprimir_ips (enviados p2) in
  (fin p2 = Ok () ∧ sin_leer p2 = extra ∧ recibidas p2 = length ips
   ∧ recv_cerrado p2 = true ∧ send_cerrado p2 = true)
  ∧ (enviados p2 = (Some <$> supervivientes ips) ++ [None]
     ∧ List.filter (λ m, negb (bool_decide (is_Some m))) (enviados p2) = [None]
     ∧ last (enviados p2) = Some None
     ∧ reenviadas p2 = length (supervivientes ips))
  ∧ (i_fin p3 = Ok () ∧ i_sin_leer p3 = [] ∧ i_recv_cerrado p3 = true
     ∧ procesadas p3 = reenviadas p2 ∧ impresos p3 = supervivientes ips).
Proof.
  intros p2 p3. subst p3 p2. rewrite filtrar_ips_centinela. simpl.
  rewrite imprimir_ips_centinela. simpl.
  rewrite centinelas_tras_reales, last_snoc. done.
Qed.

(** The addresses the filter lets through, class by class: those that
    [clase_ip] puts in class A, B or C, each with that class, and no other. *)
Lemma supervivientes_por_clase ips :
  supervivientes ips
  = omap (λ ip, match clase_ip ip with
                | Some A => Some (ip, A)
                | Some B => Some (ip, B)
                | Some C => Some (ip, C)
                | _ => None
                end) ips.
Proof.
  induction ips as [|ip ips IH]; [done|].
  rewrite supervivientes_cons. csimpl.
  destruct (clase_ip ip) as [[]|]; simpl; by rewrite IH.
Qed.

Lemma clase_ip_por_rango ip c :
  clase_ip ip = Some c
  ↔ ∃ n, int_of_str (PyStr.before "." ip) = Some n
         ∧ (fst (rango c) ≤ n ≤ snd (rango c))%Z.
Proof.
  destruct (int_of_str (PyStr.before "." ip)) as [n|] eqn:Hn.
  - rewrite (clase_ip_de_entero ip n Hn). split; [eauto|].
    by intros (m & [= <-] & Hm).
  - split; [|by intros (m & [=] & _)].
    unfold clase_ip. rewrite primer_octeto_campo. unfold py_int. by rewrite Hn.
Qed.

(** C5: the real messages the filter emits are exactly the received
    addresses of class A, B or C, every one of them and no other, each paired
    with its class, in the order received and as often as received; the
    printer prints them in that same order. *)
Theorem filtro_conserva_el_orden (ips : list string) :
  let p2 := filtrar_ips ((Some <$> ips) ++ [None]) in
  let reales := omap id (enviados p2) in
  reales = omap (λ ip, match clase_ip ip with
                       | Some A => Some (ip, A)
                       | Some B => Some (ip, B)
                       | Some C => Some (ip, C)
                       | _ => None
                       end) ips
  ∧ (∀ ip c, (ip, c) ∈ reales
             ↔ ip ∈ ips ∧ clase_ip ip = Some c ∧ (c = A ∨ c = B ∨ c = C))
  ∧ (∀ ip c, (ip, c) ∈ reales
             ↔ ip ∈ ips ∧ (c = A ∨ c = B ∨ c = C)
               ∧ ∃ n, int_of_str (PyStr.before "." ip) = Some n
                      ∧ (fst (rango c) ≤ n ≤ snd (rango c))%Z)
  ∧ reales.*1 = List.filter (λ ip, en_ABC (clase_ip ip)) ips
  ∧ Forall (λ m, clase_ip m.1 = Some m.2 ∧ (m.2 = A ∨ m.2 = B ∨ m.2 = C)) reales
  ∧ reales.*1 `sublist_of` ips
  ∧ impresos (imprimir_ips (enviados p2)) = reales.
Proof.
  intros p2 reales. subst reales p2. rewrite filtrar_ips_centinela. simpl.
  rewrite omap_id_con_centinela, imprimir_ips_centinela. simpl.
  split; [apply supervivientes_por_clase|].
  assert (∀ ip c, (ip, c) ∈ supervivientes ips
                  ↔ ip ∈ ips ∧ clase_ip ip = Some c ∧ (c = A ∨ c = B ∨ c = C))
    as Hel.
  { intros ip c. rewrite supervivientes_por_clase, list_elem_of_omap. split.
    - intros (x & Hx & Hc).
      destruct (clase_ip x) as [[]|] eqn:Hcl; simplify_eq; auto 6.
    - intros (Hip & Hc & Habc). exists ip. split; [done|]. rewrite Hc.
      by destruct Habc as [->|[->| ->]]. }
  split; [exact Hel|]. split.
  { intros ip c. rewrite Hel, clase_ip_por_rango. split.
    - by intros (? & ? & ?).
    - by intros (? & ? & ?). }
  split; [apply supervivientes_filtro|]. split; [apply supervivientes_clase|].
  split; [|done]. rewrite supervivientes_filtro. clear Hel.
  induction ips as [|ip ips IH]; simpl; [constructor|].
  destruct (en_ABC (clase_ip ip)); by constructor.
Qed.

(** The whole of [__main__]: each pipe carries exactly one sentinel, last. *)
Lemma tuberia_completa (n : nat) (azar : nat → Z) :
  let '(p1, p2, p3) := tuberia n azar in
  let ips := una_ip azar <$> seq 0 n in
  g_enviados p1 = (Some <$> ips) ++ [None]
  ∧ enviados p2 = (Some <$> supervivientes ips) ++ [None]
  ∧ fin p2 = Ok () ∧ i_fin p3 = Ok ()
  ∧ impresos p3 = supervivientes ips.
Proof.
  unfold tuberia, generar_ips. simpl.
  rewrite filtrar_ips_centinela. simpl. by rewrite imprimir_ips_centinela.
Qed.

(** Without a sentinel the filter never sends one: it dies on the drained
    pipe. *)
Lemma filtrar_sin_centinela (ips : list string) :
  let p2 := filtrar_ips (Some <$> ips) in
  fin p2 = Raise EOFError ∧ enviados p2 = Some <$> supervivientes ips.
Proof.
  unfold filtrar_ips.
  assert (∀ st, filtrar_bucle (Some <$> ips) st
                = Filtro (recibidas st + length ips)
                    (reenviadas st + length (supervivientes ips))
                    (enviados st ++ (Some <$> supervivientes ips)) [] false false
                    (Raise EOFError)) as Hb.
  { induction ips as [|ip ips IH]; intros st.
    - simpl. by rewrite !Nat.add_0_r, app_nil_r.
    - rewrite supervivientes_cons. simpl.
      destruct (clase_ip ip) as [[]|] eqn:Hc; simpl; rewrite IH; simpl;
        rewrite <- ?app_assoc; simpl; f_equal; lia. }
  rewrite Hb. simpl. done.
Qed.

End EJ2_propiedades.

(** ** EJ1 *)

Section EJ1_propiedades.
Import EJ1.
Context `{Fl : Flotantes}.

(** What a worker leaves in its pipe: its one message, tagged with its own
    vowel, or nothing. *)
Lemma contar_vocal_pipe_envia vocal ruta env fs :
  let w := contar_vocal_pipe vocal ruta env fs in
  (∃ c, w_enviados w = [Mensaje vocal c (pid env) (f_sub (t1 env) (t0 env))]
        ∧ w_cerrado w = true ∧ w_fin w = Ok ())
  ∨ (w_enviados w = [] ∧ ∃ e, w_fin w = Raise e ∧ e ≠ FileNotFoundError).
Proof.
  unfold contar_vocal_pipe, abrir.
  destruct (fs !! ruta) as [[t|]|]; simpl; eauto 6.
Qed.

Lemma canal_de_forma v ruta d :
  buffer (canal_de v ruta d) = []
  ∨ ∃ c p du, buffer (canal_de v ruta d) = [Mensaje v c p du].
Proof.
  destruct d as [fs env|]; simpl; [|by left].
  destruct (contar_vocal_pipe_envia v ruta env fs) as [(c & -> & _)|[-> _]]; eauto.
Qed.

Lemma recoger_uno_canal_de resultados v ruta d :
  recoger_uno resultados v (canal_de v ruta d)
  = Ok (<[v := anotado (canal_de v ruta d)]> resultados).
Proof.
  unfold recoger_uno, anotado, poll, recv.
  destruct (canal_de_forma v ruta d) as [->|(c & p & du & ->)]; simpl; [|done].
  by destruct (escritor_cerrado _).
Qed.

Lemma omap_length_total {X Y} (f : X → option Y) (l : list X) :
  (∀ x, x ∈ l → is_Some (f x)) → length (omap f l) = length l.
Proof.
  induction l as [|x l IH]; intros Hf; simpl; [done|].
  destruct (Hf x) as [y ->]; [left|]. simpl. f_equal. apply IH.
  intros z Hz. apply Hf. by right.
Qed.

(** The report has one line per entry of [resultados]. *)
Lemma informe_length (resultados : gmap string info) :
  length (informe resultados) = size resultados.
Proof.
  unfold informe. rewrite omap_length_total.
  - rewrite merge_sort_Permutation. by rewrite <- size_dom.
  - intros v Hv. rewrite merge_sort_Permutation in Hv.
    apply elem_of_elements, elem_of_dom in Hv as [i ->]. simpl. eauto.
Qed.

Lemma vocales_NoDup : NoDup vocales.
Proof. by apply (bool_decide_unpack _). Qed.

Lemma orquestar_resultado ruta destinos :
  orquestar ruta destinos
  = Ok (foldl (λ r v, <[v := anotado (canal_de v ruta (destinos v))]> r) ∅ vocales).
Proof.
  unfold orquestar. generalize (∅ : gmap string info).
  induction vocales as [|v vs IH]; intros r; csimpl; [done|].
  rewrite recoger_uno_canal_de. simpl. apply IH.
Qed.

(** C3: whatever has become of the five workers (ended with a count, ended
    on a missing file, died without sending, or silent with the pipe still
    open), collection ends normally with exactly one entry per vowel, and the
    report has as many lines.  The entry of a vowel is the count, pid and
    duration of the tuple its worker sent, whenever a tuple has arrived; it is
    the missing-result marker, count -1 with no pid and no duration, only
    when nothing has arrived, by timeout or by end of stream. *)
Theorem fan_in_completo (ruta : string) (destinos : string → destino) :
  ∃ resultados : gmap string info,
    orquestar ruta destinos = Ok resultados
    ∧ dom resultados = list_to_set vocales
    ∧ size resultados = length vocales
    ∧ (∀ v, v ∈ vocales →
         resultados !! v = Some (anotado (canal_de v ruta (destinos v))))
    ∧ (∀ v i, resultados !! v = Some i →
         i = ausente
         ∨ ∃ fs env c,
             destinos v = Termino fs env
             ∧ w_enviados (contar_vocal_pipe v ruta env fs)
               = [Mensaje v c (pid env) (f_sub (t1 env) (t0 env))]
             ∧ i = Info c (Some (pid env)) (Some (f_sub (t1 env) (t0 env))))
    ∧ (∀ v, v ∈ vocales →
         match buffer (canal_de v ruta (destinos v)) with
         | m :: _ =>
             resultados !! v
             = Some (Info (m_conteo m) (Some (m_pid m)) (Some (m_dur m)))
         | [] => resultados !! v = Some (Info (-1) None None)
         end)
    ∧ (∀ v, v ∈ vocales →
         match destinos v with
         | SinRespuesta => resultados !! v = Some (Info (-1) None None)
         | Termino fs env =>
             match fs !! ruta with
             | Some (Texto t) =>
                 resultados !! v
                 = Some (Info (contar v t) (Some (pid env))
                           (Some (f_sub (t1 env) (t0 env))))
             | None =>
                 resultados !! v
                 = Some (Info (-1) (Some (pid env)) (Some (f_sub (t1 env) (t0 env))))
             | Some Ilegible => resultados !! v = Some (Info (-1) None None)
             end
         end)
    ∧ length (informe resultados) = length vocales.
Proof.
  eexists. split; [apply orquestar_resultado|].
  set (a := λ v, anotado (canal_de v ruta (destinos v))).
  assert (∀ v, a v = ausente
               ∨ ∃ fs env c,
                   destinos v = Termino fs env
                   ∧ w_enviados (contar_vocal_pipe v ruta env fs)
                     = [Mensaje v c (pid env) (f_sub (t1 env) (t0 env))]
                   ∧ a v = Info c (Some (pid env)) (Some (f_sub (t1 env) (t0 env))))
    as Ha.
  { intros v. unfold a, anotado. destruct (destinos v) as [fs env|] eqn:Hd; simpl;
      [|by left].
    destruct (contar_vocal_pipe_envia v ruta env fs) as [(c & Hc & _)|[Hc _]];
      rewrite Hc; [right|by left].
    exists fs, env, c. by rewrite Hc. }
  simpl. fold (a "a") (a "e") (a "i") (a "o") (a "u").
  assert (dom (<["u" := a "u"]> (<["o" := a "o"]> (<["i" := a "i"]>
            (<["e" := a "e"]> (<["a" := a "a"]> (∅ : gmap string info))))))
          = list_to_set vocales) as Hdom.
  { rewrite !dom_insert_L, dom_empty_L. unfold vocales. set_solver. }
  assert (size (<["u" := a "u"]> (<["o" := a "o"]> (<["i" := a "i"]>
            (<["e" := a "e"]> (<["a" := a "a"]> (∅ : gmap string info))))))
          = 5) as Hsize.
  { rewrite <- size_dom, Hdom. by rewrite size_list_to_set by apply vocales_NoDup. }
  assert (∀ v, v ∈ vocales →
            <["u" := a "u"]> (<["o" := a "o"]> (<["i" := a "i"]>
              (<["e" := a "e"]> (<["a" := a "a"]> (∅ : gmap string info))))) !! v
            = Some (a v)) as Hlook.
  { intros v Hv. unfold vocales in Hv.
    repeat (apply elem_of_cons in Hv as [->|Hv]; [by simplify_map_eq|]).
    by apply elem_of_nil in Hv. }
  split; [exact Hdom|]. split; [exact Hsize|]. split; [exact Hlook|].
  split; [|split; [|split]].
  - intros v i Hi.
    repeat (rewrite lookup_insert_Some in Hi;
            destruct Hi as [[<- <-]|[_ Hi]]; [apply Ha|]).
    by rewrite lookup_empty in Hi.
  - intros v Hv. rewrite (Hlook v Hv). unfold a, anotado.
    by destruct (buffer (canal_de v ruta (destinos v))).
  - intros v Hv. rewrite (Hlook v Hv). unfold a, anotado, canal_de.
    destruct (destinos v) as [fs env|]; [|done].
    unfold contar_vocal_pipe, abrir. by destruct (fs !! ruta) as [[t|]|].
  - by rewrite informe_length.
Qed.

(** [__main__] always prints a report of five lines. *)
Lemma main_cinco_lineas (fs : sistema) (envs : string → entorno) :
  ∃ lineas_informe, main fs envs = Ok lineas_informe ∧ length lineas_informe = 5.
Proof.
  unfold main.
  assert (∃ fs', match fs !! "texto.txt" with
                 | Some _ => Ok fs
                 | None => crear_fichero_ejemplo fs "texto.txt" 2000
                 end = Ok fs') as [fs' ->].
  { destruct (fs !! "texto.txt") eqn:Hfs; [eauto|].
    unfold crear_fichero_ejemplo, escribir. rewrite Hfs. eauto. }
  simpl. rewrite orquestar_resultado. simpl. eexists. split; [done|].
  rewrite informe_length, <- size_dom, !dom_insert_L, dom_empty_L.
  replace ({["u"]} ∪ ({["o"]} ∪ ({["i"]} ∪ ({["e"]} ∪ ({["a"]} ∪ ∅)))))
    with (list_to_set (C := gset string) vocales) by (unfold vocales; set_solver).
  by rewrite size_list_to_set by apply vocales_NoDup.
Qed.

End EJ1_propiedades.

(** ** EJ3: reading marks and means *)

Section EJ3_propiedades.
Import EJ3.
Context `{Fl : Flotantes}.

(** [float] raises nothing but [ValueError], so the reading loop never
    fails: it collects the marks of the numeric lines, in order. *)
Lemma leer_notas_total ls notas :
  leer_notas ls notas = Ok (notas ++ omap nota_de ls).
Proof.
  revert notas. induction ls as [|linea ls IH]; intros notas; simpl.
  - by rewrite app_nil_r.
  - unfold nota_de at 1. destruct (PyStr.strip linea) as [|c r]; [apply IH|].
    unfold py_float. destruct (float_of_str (String c r)) as [x|]; simpl.
    + rewrite IH. by rewrite <- app_assoc.
    + apply IH.
Qed.

Lemma media_de_total notas :
  media_de notas
  = Ok (match notas with
        | [] => f_zero
        | _ :: _ => f_div (f_sum notas) (length notas)
        end).
Proof. by destruct notas. Qed.

Lemma leer_media_casos fs ruta :
  match fs !! ruta with
  | None => leer_media fs ruta = Ok None
  | Some Ilegible => leer_media fs ruta = Raise OSError
  | Some (Texto t) =>
      leer_media fs ruta
      = Ok (Some (match omap nota_de (lineas t) with
                  | [] => f_zero
                  | notas => f_div (f_sum notas) (length notas)
                  end))
  end.
Proof.
  unfold leer_media, abrir. destruct (fs !! ruta) as [[t|]|]; try done.
  rewrite leer_notas_total. simpl. rewrite media_de_total. simpl.
  by destruct (omap nota_de (lineas t)).
Qed.

Lemma omap_nota_de_nil ls :
  Forall (λ linea, nota_de linea = None) ls → omap nota_de ls = [].
Proof. induction 1 as [|linea ls Hl _ IH]; simpl; [done|]. by rewrite Hl. Qed.

(** The pool worker in terms of the shared reading of one input file. *)
Lemma calcular_media_pool_casos ruta nombre env azar fs :
  EJ3B.calcular_media_pool (ruta, nombre) env azar fs
  = (fs, match leer_media fs ruta with
         | Ok (Some m) =>
             Ok (EJ3B.ResultadoMed m nombre (f_sub (t1 env) (t0 env)) (pid env))
         | Ok None => Ok (EJ3B.ResultadoMed f_zero nombre f_zero (pid env))
         | Raise e => Raise e
         end).
Proof.
  unfold EJ3B.calcular_media_pool, leer_media, abrir.
  destruct (fs !! ruta) as [[t|]|]; try done.
  rewrite leer_notas_total. simpl. by rewrite media_de_total.
Qed.

(** C10: in both averaging workers the quotient is taken only on a
    non-empty list of marks (on the empty list it would raise); neither
    worker can end in a division by zero, and an existing input file whose
    lines are all blank or non-numeric gives the mean 0.0. *)
Theorem media_guardada (fs : sistema) (ruta nombre ruta_medias : string)
    (env : entorno) (azar : nat → float) :
  (∀ notas : list float, ∃ m,
      media_de notas = Ok m
      ∧ match notas with
        | [] => m = f_zero
        | _ :: _ => py_truediv (f_sum notas) (length notas) = Ok m
        end)
  ∧ py_truediv (f_sum []) (length (@nil float)) = Raise ZeroDivisionError
  ∧ EJ3A.calcular_media_y_apendar ruta nombre ruta_medias fs ≠ Raise ZeroDivisionError
  ∧ (EJ3B.calcular_media_pool (ruta, nombre) env azar fs).2 ≠ Raise ZeroDivisionError
  ∧ (∀ t, fs !! ruta = Some (Texto t) →
          Forall (λ linea, nota_de linea = None) (lineas t) →
          leer_media fs ruta = Ok (Some f_zero)
          ∧ (EJ3B.calcular_media_pool (ruta, nombre) env azar fs).2
            = Ok (EJ3B.ResultadoMed f_zero nombre (f_sub (t1 env) (t0 env)) (pid env))
          ∧ ∀ fs' imp,
              EJ3A.calcular_media_y_apendar ruta nombre ruta_medias fs = Ok (fs', imp) →
              imp = MediaCalculada f_zero nombre).
Proof.
  split; [|split; [done|]].
  { intros notas. eexists. split; [apply media_de_total|]. by destruct notas. }
  rewrite calcular_media_pool_casos. unfold EJ3A.calcular_media_y_apendar. simpl.
  pose proof (leer_media_casos fs ruta) as Hm.
  destruct (fs !! ruta) as [[t|]|] eqn:Hr; rewrite Hm; simpl;
    (split; [unfold apendar; by destruct (fs !! ruta_medias) as [[?|]|]|]);
    (split; [done|]); [|done..].
  intros t' [= <-] Hl. rewrite (omap_nota_de_nil _ Hl). split; [done|]. split; [done|].
  intros fs' imp. by destruct (apendar _ _ _); intros [= <- <-].
Qed.

(** *** The max-finder *)

Lemma bien_formada_funcional linea n a n' a' :
  bien_formada linea n a → bien_formada linea n' a' → n = n' ∧ a = a'.
Proof. intros (p & Hs & Hf) (p' & Hs' & Hf'). split; congruence. Qed.

(** What the loop body makes of one line: its mark and name when the line
    is well formed, a skip otherwise (blank, not two parts, or a first part
    that is not a float). *)
Lemma entrada_de_casos linea :
  (∃ n a, entrada_de linea = Ok (Some (n, a)) ∧ bien_formada linea n a)
  ∨ (entrada_de linea = Ok None ∧ ∀ n a, ¬ bien_formada linea n a).
Proof.
  unfold entrada_de, bien_formada.
  destruct (PyStr.strip linea) as [|c r] eqn:Hs.
  { right. split; [done|]. by intros n a (p & [=] & _). }
  destruct (PyStr.split_max1 (String c r)) as [|p0 [|p1 [|p2 ps]]] eqn:Hp;
    try (right; split; [done|]; by intros n a (p & [=] & _)).
  unfold py_float. destruct (float_of_str p0) as [x|] eqn:Hx; simpl.
  - left. exists x, p1. eauto.
  - right. split; [done|]. intros n a (p & [= <- <-] & Hf). congruence.
Qed.

Section Orden.
Context `{!OrdenFlotantes Fl}.

Lemma maximo_bucle_mejor ls : ∀ vistas mejor,
  mejor_de vistas mejor →
  ∃ r, maximo_bucle ls mejor = Ok r ∧ mejor_de (vistas ++ ls) r.
Proof.
  induction ls as [|linea ls IH]; intros vistas mejor Hinv; simpl.
  { exists mejor. by rewrite app_nil_r. }
  assert (∀ m', mejor_de (vistas ++ [linea]) m' →
            ∃ r, maximo_bucle ls m' = Ok r ∧ mejor_de (vistas ++ linea :: ls) r)
    as Hsig.
  { intros m' Hm'. destruct (IH _ _ Hm') as (r & Hr & Hinv').
    exists r. split; [done|]. by rewrite <- app_assoc in Hinv'. }
  destruct (entrada_de_casos linea) as [(n & a & -> & Hbf)|[-> Hno]]; simpl.
  - destruct mejor as [[m am]|]; simpl in Hinv.
    + destruct Hinv as [(l0 & Hl0 & Hbf0) Hmax].
      destruct (f_gt n m) eqn:Hgt; apply Hsig; simpl.
      * split; [exists linea; split; [set_solver|done]|].
        intros l n' a' [Hl| ->%list_elem_of_singleton]%elem_of_app Hbf'.
        -- destruct (f_gt n' n) eqn:Hgt'; [|done].
           rewrite <- (Hmax l n' a' Hl Hbf'). symmetry. eapply f_gt_trans; eauto.
        -- destruct (bien_formada_funcional _ _ _ _ _ Hbf Hbf') as [<- _].
           apply f_gt_irrefl.
      * split; [exists l0; split; [set_solver|done]|].
        intros l n' a' [Hl| ->%list_elem_of_singleton]%elem_of_app Hbf'; [eauto|].
        by destruct (bien_formada_funcional _ _ _ _ _ Hbf Hbf') as [<- _].
    + apply Hsig; simpl. split; [exists linea; split; [set_solver|done]|].
      intros l n' a' [Hl| ->%list_elem_of_singleton]%elem_of_app Hbf'.
      * by destruct (Hinv l n' a' Hl).
      * destruct (bien_formada_funcional _ _ _ _ _ Hbf Hbf') as [<- _].
        apply f_gt_irrefl.
  - apply Hsig. destruct mejor as [[m am]|]; simpl in *.
    + destruct Hinv as [(l0 & Hl0 & Hbf0) Hmax].
      split; [exists l0; split; [set_solver|done]|].
      intros l n' a' [Hl| ->%list_elem_of_singleton]%elem_of_app Hbf'; [eauto|].
      by destruct (Hno n' a').
    + intros l n' a' [Hl| ->%list_elem_of_singleton]%elem_of_app; [eauto|apply Hno].
Qed.


End Orden.

End EJ3_propiedades.

(** ** Reporting failure *)

Section Fallos.
Context `{Fl : Flotantes} `{Ent : Enteros}.

Lemma contar_no_negativo vocal texto : (0 ≤ EJ1.contar vocal texto)%Z.
Proof.
  unfold EJ1.contar. generalize (lineas texto). intros ls.
  assert (∀ z, (0 ≤ z)%Z →
            (0 ≤ foldl (λ conteo linea,
                          conteo + Z.of_nat (PyStr.count (PyStr.lower linea)
                                               (PyStr.lower vocal)))%Z z ls)%Z) as H.
  { induction ls as [|l ls IH]; intros z Hz; simpl; [done|]. apply IH. lia. }
  by apply H.
Qed.

(** C7, as the code has it: the pipe worker reports a missing file with the
    count -1, which no count of a readable file equals (counts are never
    negative), and the parent's own marker carries the same -1; the pool
    worker reports a missing file with the mean 0.0, the mean it also returns
    for an existing empty file, the two tuples differing at most in the
    duration field. *)
Theorem marcador_de_error (v ruta nombre : string) (env : entorno)
    (azar : nat → float) (fs : sistema) :
  (fs !! ruta = None →
     EJ1.w_enviados (EJ1.contar_vocal_pipe v ruta env fs)
     = [EJ1.Mensaje v (-1) (pid env) (f_sub (t1 env) (t0 env))])
  ∧ (∀ t, fs !! ruta = Some (Texto t) →
       ∃ c, (0 ≤ c)%Z ∧ c ≠ (-1)%Z
            ∧ EJ1.w_enviados (EJ1.contar_vocal_pipe v ruta env fs)
              = [EJ1.Mensaje v c (pid env) (f_sub (t1 env) (t0 env))])
  ∧ EJ1.conteo EJ1.ausente = (-1)%Z
  ∧ (fs !! ruta = None →
       (EJ3B.calcular_media_pool (ruta, nombre) env azar fs).2
       = Ok (EJ3B.ResultadoMed f_zero nombre f_zero (pid env)))
  ∧ (fs !! ruta = Some (Texto EmptyString) →
       (EJ3B.calcular_media_pool (ruta, nombre) env azar fs).2
       = Ok (EJ3B.ResultadoMed f_zero nombre (f_sub (t1 env) (t0 env)) (pid env))).
Proof.
  unfold EJ1.contar_vocal_pipe, EJ3B.calcular_media_pool, abrir.
  split; [by intros ->|]. split.
  { intros t ->. simpl. exists (EJ1.contar v t).
    pose proof (contar_no_negativo v t). split; [done|]. split; [lia|done]. }
  split; [done|]. split; by intros ->.
Qed.

(** C4, as the code has it: on an absent input file each of the three
    workers ends normally.  The vowel counter sends one message with the
    count -1 and closes its endpoint; the averaging worker prints an error
    and returns, leaving the file system as it was; the movie source prints an
    error, sends the sentinel alone and closes its endpoint. *)
Theorem fichero_ausente (v ruta nombre ruta_medias : string) (anyo : Z)
    (env : entorno) (fs : sistema) :
  fs !! ruta = None →
  EJ1.contar_vocal_pipe v ruta env fs
  = EJ1.Trabajador [EJ1.Mensaje v (-1) (pid env) (f_sub (t1 env) (t0 env))] true (Ok ())
  ∧ EJ3A.calcular_media_y_apendar ruta nombre ruta_medias fs
    = Ok (fs, EJ3.ErrorNoEncontrado ruta)
  ∧ EJ4.proceso_filtrar_por_anyo ruta anyo fs
    = EJ4.Filtrador [None]
        [EJ4.FicheroNoEncontrado ruta; EJ4.FiltradoTerminado 0] true (Ok ()).
Proof.
  intros Hr.
  unfold EJ1.contar_vocal_pipe, EJ3A.calcular_media_y_apendar, EJ3.leer_media,
    EJ4.proceso_filtrar_por_anyo, abrir.
  by rewrite Hr.
Qed.

End Fallos.

Section Fallos_evaluados.
Import Ejemplos.

(** C4 does not hold as stated for two of the three workers: on an absent
    file the movie source sends exactly what it sends on an existing empty
    file, the sentinel alone, and the averaging worker hands nothing to the
    shared file and returns as on success; the failure is only printed. *)
Lemma ausente_sin_valor_de_error :
  EJ4.enviados (EJ4.proceso_filtrar_por_anyo "peliculas.txt" 1999 ∅) = [None]
  ∧ EJ4.enviados (EJ4.proceso_filtrar_por_anyo "peliculas.txt" 1999 fs_peliculas_vacio)
    = [None]
  ∧ EJ3A.calcular_media_y_apendar "Alumno1.txt" "Alumno1" "medias.txt" ∅
    = Ok (∅, EJ3.ErrorNoEncontrado "Alumno1.txt").
Proof. repeat split; reflexivity. Qed.

Lemma fichero_ausente_witness :
  (∅ : sistema) !! "texto.txt" = None
  ∧ EJ1.contar_vocal_pipe "a" "texto.txt" env0 ∅
    = EJ1.Trabajador [EJ1.Mensaje "a" (-1) 4242 250%Z] true (Ok ())
  ∧ EJ4.proceso_filtrar_por_anyo "texto.txt" 1999 ∅
    = EJ4.Filtrador [None]
        [EJ4.FicheroNoEncontrado "texto.txt"; EJ4.FiltradoTerminado 0] true (Ok ()).
Proof.
  split; [reflexivity|].
  pose proof (fichero_ausente "a" "texto.txt" "Alumno1" "medias.txt" 1999 env0 ∅
                eq_refl) as (H1 & _ & H3).
  split; [exact H1|exact H3].
Defined.

(** C7 does not hold as stated for the pool worker: the tuple returned for
    a missing file carries the same mean, and gives the same line of
    [medias.txt], as the tuple returned for an existing empty file. *)
Lemma marcador_pool_no_distingue :
  ∃ falta vacio,
    (EJ3B.calcular_media_pool ("Alumno1.txt", "Alumno1") env0 azar0 ∅).2 = Ok falta
    ∧ (EJ3B.calcular_media_pool ("Alumno1.txt", "Alumno1") env0 azar0 fs_vacio).2
      = Ok vacio
    ∧ EJ3B.r_media falta = EJ3B.r_media vacio
    ∧ EJ3B.texto_medias [falta] = EJ3B.texto_medias [vacio].
Proof. do 2 eexists. repeat split; reflexivity. Qed.

Lemma marcador_de_error_witness :
  fs_texto !! "texto.txt" = Some (Texto ("Hola Ana" +:+ nl +:+ "AEIOU u"))
  ∧ (∃ c, (0 ≤ c)%Z ∧ c ≠ (-1)%Z
          ∧ EJ1.w_enviados (EJ1.contar_vocal_pipe "a" "texto.txt" env0 fs_texto)
            = [EJ1.Mensaje "a" c 4242 250%Z])
  ∧ fs_vacio !! "Alumno1.txt" = Some (Texto EmptyString)
  ∧ (EJ3B.calcular_media_pool ("Alumno1.txt", "Alumno1") env0 azar0 fs_vacio).2
    = Ok (EJ3B.ResultadoMed 0%Z "Alumno1" 250%Z 4242).
Proof.
  split; [reflexivity|]. split.
  - exact (proj1 (proj2 (marcador_de_error "a" "texto.txt" "Alumno1" env0 azar0 fs_texto))
             _ eq_refl).
  - split; [reflexivity|].
    exact (proj2 (proj2 (proj2 (proj2
             (marcador_de_error "a" "Alumno1.txt" "Alumno1" env0 azar0 fs_vacio))))
             eq_refl).
Defined.

Lemma media_guardada_witness :
  fs_vacio !! "Alumno1.txt" = Some (Texto EmptyString)
  ∧ Forall (λ linea, EJ3.nota_de linea = None) (lineas EmptyString)
  ∧ EJ3.leer_media fs_vacio "Alumno1.txt" = Ok (Some 0%Z).
Proof.
  split; [reflexivity|]. split; [constructor|].
  exact (proj1 (proj2 (proj2 (proj2 (proj2
           (media_guardada fs_vacio "Alumno1.txt" "Alumno1" "medias.txt" env0 azar0))))
           EmptyString eq_refl (Forall_nil_2 _))).
Defined.

End Fallos_evaluados.

(** ** EJ3A: the lock *)

Lemma append_assoc (s1 s2 s3 : string) : (s1 +:+ s2) +:+ s3 = s1 +:+ s2 +:+ s3.
Proof.
  induction s1 as [|c s1 IH]; [done|].
  change (String c ((s1 +:+ s2) +:+ s3) = String c (s1 +:+ s2 +:+ s3)).
  by rewrite IH.
Qed.

Lemma append_nil_r (s : string) : s +:+ EmptyString = s.
Proof.
  induction s as [|c s IH]; [done|].
  change (String c (s +:+ EmptyString) = String c s). by rewrite IH.
Qed.

Lemma length_append (a b : string) :
  String.length (a +:+ b) = String.length a + String.length b.
Proof.
  induction a as [|c a IH]; [done|].
  change (S (String.length (a +:+ b)) = S (String.length a + String.length b)).
  by rewrite IH.
Qed.

Lemma append_inj_r (t a b : string) : a +:+ t = b +:+ t → a = b.
Proof.
  revert b. induction a as [|c a IH]; intros [|c' b] H; [done|..].
  - apply (f_equal String.length) in H.
    change (String.length t = S (String.length (b +:+ t))) in H.
    rewrite length_append in H. lia.
  - apply (f_equal String.length) in H.
    change (S (String.length (a +:+ t)) = String.length t) in H.
    rewrite length_append in H. lia.
  - change (String c (a +:+ t) = String c' (b +:+ t)) in H.
    injection H as -> H. f_equal. by apply IH.
Qed.

Lemma concatenar_app (xs ys : list string) :
  EJ3.concatenar (xs ++ ys) = EJ3.concatenar xs +:+ EJ3.concatenar ys.
Proof.
  induction xs as [|x xs IH]; [done|].
  cbn [app EJ3.concatenar foldr]. fold (EJ3.concatenar (xs ++ ys)).
  fold (EJ3.concatenar xs). by rewrite IH, append_assoc.
Qed.

Section EJ3A_propiedades.
Import EJ3 EJ3A.
Context `{Fl : Flotantes}.
Variable fs : sistema.
Variable tareas : list (string * string).
Hypothesis legibles : entradas_legibles fs tareas.

Lemma inicial_coherente : coherente fs tareas (inicial tareas).
Proof.
  unfold coherente, inicial. simpl. split; [by rewrite length_replicate|].
  split; [by intros i l [[=] _]%lookup_replicate|]. split.
  - intros i. split; [done|]. by intros [p [[=] _]%lookup_replicate].
  - intros _. exists [], EmptyString. split; [constructor|]. split; [|done].
    intros i. split; [by intros ?%elem_of_nil|]. by intros [[=] _]%lookup_replicate.
Qed.

(** Looking up worker [j] after worker [i] has moved. *)
Ltac mira j i :=
  destruct (decide (j = i)) as [->|?];
  [repeat match goal with
          | H : context [<[i := _]> _ !! i] |- _ =>
              rewrite list_lookup_insert_eq in H by (by eapply lookup_lt_Some)
          | |- context [<[i := _]> _ !! i] =>
              rewrite list_lookup_insert_eq by (by eapply lookup_lt_Some)
          end
  |repeat match goal with
          | H : context [<[i := _]> _ !! j] |- _ =>
              rewrite list_lookup_insert_ne in H by done
          | |- context [<[i := _]> _ !! j] =>
              rewrite list_lookup_insert_ne by done
          end].

Lemma sin_fallos_antes (w : mundo) i f g c s :
  procesos w !! i = Some g → (∀ e, g ≠ Fallo e) →
  sin_fallos (Mundo (<[i := f]> (procesos w)) c s) → sin_fallos w.
Proof.
  intros Hi Hg Hsf j e Hj. destruct (decide (j = i)) as [->|Hne].
  - rewrite Hi in Hj. injection Hj as ->. by eapply Hg.
  - apply (Hsf j e). simpl. by rewrite list_lookup_insert_ne.
Qed.

Lemma coherente_calcula w i l :
  coherente fs tareas w → procesos w !! i = Some Inicio →
  linea_de fs tareas i = Some l →
  coherente fs tareas
    (Mundo (<[i := Calculada l]> (procesos w)) (cerrojo w) (sumidero w)).
Proof.
  intros (L & C & K & S) Hi Hl. unfold coherente. simpl.
  split; [by rewrite length_insert|]. split; [|split].
  - intros j l' Hj. mira j i; [congruence|eauto].
  - intros j. rewrite (K j). mira j i; [|done]. rewrite Hi.
    split; intros [p [=]].
  - intros Hsf.
    destruct S as (orden & parcial & ND & M & Hs & Hh).
    { eapply sin_fallos_antes; [exact Hi|done|exact Hsf]. }
    exists orden, parcial. split; [done|]. split; [|split; [done|]].
    + intros j. rewrite (M j). mira j i; [|done]. rewrite Hi. split; intros [=].
    + destruct (cerrojo w) as [k|]; [|done]. destruct Hh as (p & Hk & Hp).
      exists p. split; [|done]. mira k i; [congruence|done].
Qed.

Lemma coherente_adquiere w i l :
  coherente fs tareas w → procesos w !! i = Some (Calculada l) →
  cerrojo w = None →
  coherente fs tareas
    (Mundo (<[i := EnSeccion l]> (procesos w)) (Some i) (sumidero w)).
Proof.
  intros (L & C & K & S) Hi Hlibre. unfold coherente. simpl.
  split; [by rewrite length_insert|]. split; [|split].
  - intros j l' Hj. mira j i; [congruence|eauto].
  - intros j. mira j i; [split; eauto|]. split; [congruence|].
    intros Hp. apply K in Hp. congruence.
  - intros Hsf.
    destruct S as (orden & parcial & ND & M & Hs & Hh).
    { eapply sin_fallos_antes; [exact Hi|done|exact Hsf]. }
    rewrite Hlibre in Hh. subst parcial.
    exists orden, EmptyString. split; [done|]. split; [|split; [done|]].
    + intros j. rewrite (M j). mira j i; [|done]. rewrite Hi. split; intros [=].
    + exists l. rewrite list_lookup_insert_eq by (by eapply lookup_lt_Some).
      split; [done|]. simpl. eauto.
Qed.

Lemma coherente_escribe w i c r :
  coherente fs tareas w → procesos w !! i = Some (EnSeccion (String c r)) →
  coherente fs tareas
    (Mundo (<[i := EnSeccion r]> (procesos w)) (cerrojo w)
       (sumidero w +:+ String c EmptyString)).
Proof.
  intros (L & C & K & S) Hi. unfold coherente. simpl.
  assert (cerrojo w = Some i) as Hk by (apply K; eauto).
  split; [by rewrite length_insert|]. split; [|split].
  - intros j l' Hj. mira j i; [congruence|eauto].
  - intros j. rewrite (K j). mira j i; [|done]. split; eauto.
  - intros Hsf.
    destruct S as (orden & parcial & ND & M & Hs & Hh).
    { eapply sin_fallos_antes; [exact Hi|done|exact Hsf]. }
    rewrite Hk in Hh. destruct Hh as (p & Hp & Hlin).
    rewrite Hi in Hp. injection Hp as <-.
    exists orden, (parcial +:+ String c EmptyString).
    split; [done|]. split; [|split].
    + intros j. rewrite (M j). mira j i; [|done]. rewrite Hi. split; intros [=].
    + by rewrite Hs, append_assoc.
    + rewrite Hk. exists r.
      rewrite list_lookup_insert_eq by (by eapply lookup_lt_Some).
      split; [done|]. by rewrite append_assoc.
Qed.

Lemma coherente_libera w i :
  coherente fs tareas w → procesos w !! i = Some (EnSeccion EmptyString) →
  coherente fs tareas (Mundo (<[i := Fin]> (procesos w)) None (sumidero w)).
Proof.
  intros (L & C & K & S) Hi. unfold coherente. simpl.
  assert (cerrojo w = Some i) as Hk by (apply K; eauto).
  split; [by rewrite length_insert|]. split; [|split].
  - intros j l' Hj. mira j i; [congruence|eauto].
  - intros j. split; [done|]. intros [p Hp]. revert Hp. mira j i; [done|].
    intros Hp. assert (cerrojo w = Some j) by (apply K; eauto). congruence.
  - intros Hsf.
    destruct S as (orden & parcial & ND & M & Hs & Hh).
    { eapply sin_fallos_antes; [exact Hi|done|exact Hsf]. }
    rewrite Hk in Hh. destruct Hh as (p & Hp & Hlin).
    rewrite Hi in Hp. injection Hp as <-. rewrite append_nil_r in Hlin.
    exists (orden ++ [i]), EmptyString.
    split; [|split; [|split; [|done]]].
    + apply NoDup_app. split; [done|]. split; [|apply NoDup_singleton].
      intros j Hj ->%list_elem_of_singleton. apply M in Hj. congruence.
    + intros j. rewrite elem_of_app, list_elem_of_singleton, (M j).
      mira j i; [split; eauto|]. split; [by intros [?|?]|eauto].
    + rewrite fmap_app, concatenar_app, Hs, append_nil_r. f_equal.
      unfold linea_o_vacia. simpl. rewrite Hlin. simpl. by rewrite append_nil_r.
Qed.

Lemma coherente_averia w i p e :
  coherente fs tareas w → procesos w !! i = Some (EnSeccion p) →
  coherente fs tareas (Mundo (<[i := Fallo e]> (procesos w)) None (sumidero w)).
Proof.
  intros (L & C & K & S) Hi. unfold coherente. simpl.
  assert (cerrojo w = Some i) as Hk by (apply K; eauto).
  split; [by rewrite length_insert|]. split; [|split].
  - intros j l' Hj. mira j i; [congruence|eauto].
  - intros j. split; [done|]. intros [q Hq]. revert Hq. mira j i; [done|].
    intros Hq. assert (cerrojo w = Some j) by (apply K; eauto). congruence.
  - intros Hsf. destruct (Hsf i e). simpl.
    by rewrite list_lookup_insert_eq by (by eapply lookup_lt_Some).
Qed.

Lemma paso_coherente w el :
  coherente fs tareas w → coherente fs tareas (paso fs tareas w el).
Proof.
  intros Hc. destruct el as [i|i e]; simpl.
  - destruct (procesos w !! i) as [[|l|[|c r]| |e]|] eqn:Hi; try done.
    + assert (i < length tareas) as Hlt.
      { destruct Hc as [<- _]. by eapply lookup_lt_Some. }
      destruct (legibles i Hlt) as [l Hl].
      pose proof Hl as Hl'. unfold linea_de in Hl'.
      destruct (tareas !! i) as [[ruta nombre]|]; [|done].
      destruct (leer_media fs ruta) as [[media|]|]; try done.
      injection Hl' as <-. by apply coherente_calcula.
    + destruct (cerrojo w) eqn:Hk; [done|]. by apply coherente_adquiere.
    + by apply coherente_libera.
    + by apply coherente_escribe.
  - destruct (procesos w !! i) as [[|l|p| |e']|] eqn:Hi; try done.
    by eapply coherente_averia.
Qed.

Lemma ejecutar_coherente plan : ∀ w,
  coherente fs tareas w → coherente fs tareas (ejecutar fs tareas w plan).
Proof.
  unfold ejecutar. induction plan as [|el plan IH]; intros w Hc; simpl; [done|].
  apply IH. by apply paso_coherente.
Qed.

Lemma linea_de_forma i l :
  linea_de fs tareas i = Some l →
  ∃ ruta nombre media,
    tareas !! i = Some (ruta, nombre)
    ∧ leer_media fs ruta = Ok (Some media)
    ∧ l = f_fmt2 media +:+ " " +:+ nombre +:+ nl.
Proof.
  unfold linea_de. destruct (tareas !! i) as [[ruta nombre]|]; [|done].
  destruct (leer_media fs ruta) as [[media|]|] eqn:Hm; try done.
  intros [= <-]. by exists ruta, nombre, media.
Qed.


(** *** Every world without failures can be brought to its end *)

Lemma sin_fallos_despues (w : mundo) i f c s :
  sin_fallos w → (∀ e, f ≠ Fallo e) →
  sin_fallos (Mundo (<[i := f]> (procesos w)) c s).
Proof.
  intros Hsf Hf j e. simpl. destruct (decide (j = i)) as [->|Hne].
  - destruct (decide (i < length (procesos w))) as [Hlt|Hge].
    + rewrite list_lookup_insert_eq by done. intros [= ->]. by eapply Hf.
    + rewrite list_insert_ge by lia. apply Hsf.
  - rewrite list_lookup_insert_ne by done. apply Hsf.
Qed.

Lemma turno_avanza w i f :
  coherente fs tareas w → sin_fallos w →
  cerrojo w = None ∨ cerrojo w = Some i →
  procesos w !! i = Some f → f ≠ Fin →
  ∃ f' k s,
    paso fs tareas w (Turno i) = Mundo (<[i := f']> (procesos w)) k s
    ∧ (k = None ∨ k = Some i)
    ∧ (∀ e, f' ≠ Fallo e)
    ∧ S (pasos_restantes (linea_o_vacia fs tareas i) f')
      = pasos_restantes (linea_o_vacia fs tareas i) f.
Proof.
  intros (L & C & K & S) Hsf Hk Hi Hf. simpl. rewrite Hi.
  destruct f as [|l|[|c r]| |e]; try done.
  - assert (i < length tareas) as Hlt by (rewrite <- L; by eapply lookup_lt_Some).
    destruct (legibles i Hlt) as [l Hl]. unfold linea_o_vacia. rewrite Hl.
    unfold linea_de in Hl. destruct (tareas !! i) as [[ruta nombre]|]; [|done].
    destruct (leer_media fs ruta) as [[media|]|]; try done. injection Hl as <-.
    eexists _, _, _. split; [done|]. split; [done|]. split; [done|]. done.
  - destruct Hk as [Hk|Hk].
    + rewrite Hk. eexists _, _, _. split; [done|]. split; [by right|]. done.
    + apply K in Hk as [p Hp]. congruence.
  - eexists _, _, _. split; [done|]. split; [by left|]. done.
  - eexists _, _, _. split; [done|]. split; [|done].
    right. apply K. eauto.
  - by destruct (Hsf i e).
Qed.

Lemma turno_en_fin w i :
  procesos w !! i = Some Fin → paso fs tareas w (Turno i) = w.
Proof. intros Hi. simpl. by rewrite Hi. Qed.

Lemma turnos_en_fin k w i :
  procesos w !! i = Some Fin → ejecutar fs tareas w (replicate k (Turno i)) = w.
Proof.
  intros Hi. unfold ejecutar. induction k as [|k IH]; [done|].
  cbn [replicate foldl]. by rewrite turno_en_fin.
Qed.

Lemma turnos_hasta_fin i k : ∀ w f,
  coherente fs tareas w → sin_fallos w →
  cerrojo w = None ∨ cerrojo w = Some i →
  procesos w !! i = Some f →
  pasos_restantes (linea_o_vacia fs tareas i) f ≤ k →
  let w' := ejecutar fs tareas w (replicate k (Turno i)) in
  procesos w' = <[i := Fin]> (procesos w) ∧ cerrojo w' = None
  ∧ coherente fs tareas w' ∧ sin_fallos w'.
Proof.
  induction k as [|k IH]; intros w f Hc Hsf Hk Hi Hpr.
  - assert (f = Fin) as ->.
    { destruct f as [| | | |e]; simpl in Hpr; try lia; [done|by destruct (Hsf i e)]. }
    simpl. split; [by rewrite list_insert_id|]. split; [|done].
    destruct Hk as [Hk|Hk]; [done|].
    destruct Hc as (_ & _ & K & _). apply K in Hk as [p Hp]. congruence.
  - assert (f = Fin ∨ f ≠ Fin) as [->|Hf] by (destruct f; auto).
    + rewrite turnos_en_fin by done. split; [by rewrite list_insert_id|].
      split; [|done]. destruct Hk as [Hk|Hk]; [done|].
      destruct Hc as (_ & _ & K & _). apply K in Hk as [p Hp]. congruence.
    + destruct (turno_avanza w i f Hc Hsf Hk Hi Hf) as (f' & c & s & Hp & Hc' & Hf' & Hm).
      pose proof (paso_coherente w (Turno i) Hc) as Hco. rewrite Hp in Hco.
      pose proof (sin_fallos_despues w i f' c s Hsf Hf') as Hsf'.
      destruct (IH _ f' Hco Hsf' Hc') as (Hps & Hce & Hco' & Hsf'').
      { simpl. apply list_lookup_insert_eq. by eapply lookup_lt_Some. }
      { lia. }
      unfold ejecutar in *. cbn [replicate foldl]. rewrite Hp.
      split; [|done]. rewrite Hps. simpl. by rewrite list_insert_insert_eq.
Qed.

Lemma pasos_restantes_cota w i f :
  coherente fs tareas w → sin_fallos w →
  procesos w !! i = Some f →
  pasos_restantes (linea_o_vacia fs tareas i) f
  ≤ 3 + String.length (linea_o_vacia fs tareas i).
Proof.
  intros (L & C & K & S) Hsf Hi. destruct f as [|l|p| |e]; simpl; try lia.
  - apply C in Hi. unfold linea_o_vacia. rewrite Hi. simpl. lia.
  - assert (cerrojo w = Some i) as Hk by (apply K; eauto).
    destruct (S Hsf) as (orden & parcial & _ & _ & _ & Hh). rewrite Hk in Hh.
    destruct Hh as (p' & Hp' & Hl). rewrite Hi in Hp'. injection Hp' as <-.
    unfold linea_o_vacia. rewrite Hl. simpl. rewrite length_append. lia.
Qed.

(** Running the workers of [ids] one after the other, from a world in which
    the lock is free, ends each of them. *)
Lemma secuencial_fin ids : ∀ w,
  coherente fs tareas w → sin_fallos w → cerrojo w = None →
  (∀ i, i ∈ ids → i < length tareas) →
  let w' := ejecutar fs tareas w (mjoin (turnos fs tareas <$> ids)) in
  cerrojo w' = None ∧ coherente fs tareas w' ∧ sin_fallos w'
  ∧ ∀ j, j ∈ ids ∨ procesos w !! j = Some Fin → procesos w' !! j = Some Fin.
Proof.
  induction ids as [|i ids IH]; intros w Hc Hsf Hk His.
  { simpl. split; [done|]. split; [done|]. split; [done|].
    intros j [Hj|Hj]; [by apply elem_of_nil in Hj|done]. }
  assert (i < length (procesos w)) as Hlt.
  { destruct Hc as [-> _]. apply His. by left. }
  destruct (lookup_lt_is_Some_2 _ _ Hlt) as [f Hi].
  destruct (turnos_hasta_fin i (3 + String.length (linea_o_vacia fs tareas i)) w f)
    as (Hps & Hk1 & Hc1 & Hsf1); try done; [by left|by eapply pasos_restantes_cota|].
  fold (turnos fs tareas i) in Hps, Hk1, Hc1, Hsf1.
  destruct (IH _ Hc1 Hsf1 Hk1) as (Hk2 & Hc2 & Hsf2 & Hfin).
  { intros j Hj. apply His. by right. }
  cbn [fmap list_fmap mjoin list_join]. unfold ejecutar in *. rewrite foldl_app.
  split; [done|]. split; [done|]. split; [done|].
  intros j Hj. apply Hfin. rewrite Hps.
  destruct (decide (j = i)) as [->|Hne].
  - right. by apply list_lookup_insert_eq.
  - rewrite list_lookup_insert_ne by done.
    destruct Hj as [[->|Hj]%elem_of_cons|Hj]; [done|by left|by right].
Qed.

(** From any world the workers can reach without a failure, some further
    scheduling brings all of them to their end. *)
Lemma completar_fin w :
  coherente fs tareas w → sin_fallos w →
  todos_fin (ejecutar fs tareas w (completar fs tareas w)).
Proof.
  intros Hc Hsf. unfold completar, plan_secuencial, ejecutar. rewrite foldl_app.
  assert (∃ w1, foldl (paso fs tareas) w
                  match cerrojo w with
                  | Some i => turnos fs tareas i
                  | None => []
                  end = w1
                ∧ coherente fs tareas w1 ∧ sin_fallos w1 ∧ cerrojo w1 = None)
    as (w1 & -> & Hc1 & Hsf1 & Hk1).
  { destruct (cerrojo w) as [i|] eqn:Hk; [|by exists w].
    pose proof Hc as (_ & _ & K & _). destruct (proj1 (K i) Hk) as [p Hi].
    destruct (turnos_hasta_fin i (3 + String.length (linea_o_vacia fs tareas i)) w
                (EnSeccion p)) as (_ & Hk1 & Hc1 & Hsf1); try done;
      [by right|by eapply pasos_restantes_cota|].
    eexists. split; [done|]. done. }
  destruct (secuencial_fin (seq 0 (length tareas)) w1 Hc1 Hsf1 Hk1)
    as (_ & Hc2 & _ & Hfin).
  { intros i Hi. apply elem_of_seq in Hi. lia. }
  unfold ejecutar in *. apply Forall_lookup. intros j f Hj.
  assert (j < length tareas) as Hlt.
  { destruct Hc2 as [<- _]. by eapply lookup_lt_Some. }
  rewrite Hfin in Hj; [congruence|]. left. apply elem_of_seq. lia.
Qed.

(** C6: whatever the scheduling, and whether or not writes fail, the lock is
    held exactly while its holder is inside the critical section, so never by
    two workers and never by one that has returned or failed; once all M
    workers have returned, the file is exactly their M lines, each whole and
    of the form mean, blank, name, newline, in the order in which they took
    the lock; and as long as no write has failed, the workers can all be
    brought to return. *)
Theorem exclusion_mutua (plan : list eleccion) :
  let w := ejecutar fs tareas (inicial tareas) plan in
  (∀ i, cerrojo w = Some i ↔ ∃ p, procesos w !! i = Some (EnSeccion p))
  ∧ (∀ i j p q, procesos w !! i = Some (EnSeccion p) →
                procesos w !! j = Some (EnSeccion q) → i = j)
  ∧ (todos_fin w →
       cerrojo w = None
       ∧ ∃ orden,
           orden ≡ₚ seq 0 (length tareas)
           ∧ sumidero w = concatenar (linea_o_vacia fs tareas <$> orden)
           ∧ ∀ i, i ∈ orden →
                  ∃ ruta nombre media,
                    tareas !! i = Some (ruta, nombre)
                    ∧ leer_media fs ruta = Ok (Some media)
                    ∧ linea_o_vacia fs tareas i
                      = f_fmt2 media +:+ " " +:+ nombre +:+ nl)
  ∧ (sin_fallos w →
       ∃ resto, todos_fin (ejecutar fs tareas (inicial tareas) (plan ++ resto))).
Proof.
  intros w.
  destruct (ejecutar_coherente plan _ inicial_coherente) as (L & C & K & S).
  fold w in L, C, K, S. split; [exact K|]. split.
  { intros i j p q Hi Hj.
    assert (cerrojo w = Some i) by (apply K; eauto).
    assert (cerrojo w = Some j) by (apply K; eauto). congruence. }
  split.
  2:{ intros Hsf. exists (completar fs tareas w). unfold ejecutar. rewrite foldl_app.
      apply completar_fin; [|done]. apply ejecutar_coherente, inicial_coherente. }
  intros Hfin. unfold todos_fin in Hfin.
  assert (∀ i f, procesos w !! i = Some f → f = Fin) as Hf.
  { intros i f Hi. eapply Forall_lookup_1 in Hfin; eauto. }
  assert (cerrojo w = None) as Hk.
  { destruct (cerrojo w) as [k|] eqn:Hk; [|done].
    destruct (proj1 (K k) eq_refl) as [p Hp]. by apply Hf in Hp. }
  split; [done|].
  destruct S as (orden & parcial & ND & M & Hs & Hh).
  { intros i e Hi. by apply Hf in Hi. }
  rewrite Hk in Hh. subst parcial. rewrite append_nil_r in Hs.
  assert (∀ i, i ∈ orden ↔ i < length tareas) as Hdom.
  { intros i. rewrite (M i), <- L. split.
    - by intros ?%lookup_lt_Some.
    - intros [f Hi]%lookup_lt_is_Some. rewrite Hi. f_equal. by eapply Hf. }
  exists orden. split; [|split; [done|]].
  - apply NoDup_Permutation; [done|apply NoDup_seq|].
    intros i. rewrite Hdom, elem_of_seq. lia.
  - intros i Hi. apply Hdom in Hi. destruct (legibles i Hi) as [l Hl].
    unfold linea_o_vacia. rewrite Hl. simpl. by apply linea_de_forma.
Qed.

End EJ3A_propiedades.

Section EJ3_evaluado.
Import Ejemplos.

(** The fixed-point marks are ordered like the integers. *)
#[global] Instance orden_lectura : OrdenFlotantes Lectura.flotantes.
Proof.
  split; simpl.
  - intros x. rewrite Z.gtb_ltb. apply Z.ltb_irrefl.
  - intros x y z. rewrite !Z.gtb_ltb, !Z.ltb_lt. lia.
Qed.

(** On a tie the first of the best lines is kept. *)
Example maximo_ejemplo :
  EJ3.proceso_maximo_medias fs_medias "medias.txt" = Ok (EJ3.NotaMaxima 950%Z "Alumno2").
Proof. reflexivity. Qed.




Lemma notas_legibles : EJ3A.entradas_legibles fs_notas (EJ3.tareas_med 2).
Proof.
  intros i Hi. destruct i as [|[|i]]; [by eexists..|]. simpl in Hi. lia.
Qed.

(** Worker 1 took the lock first, so its line comes first. *)
Example intercalado_ejemplo :
  EJ3A.ejecutar fs_notas (EJ3.tareas_med 2) (EJ3A.inicial (EJ3.tareas_med 2))
    plan_intercalado
  = EJ3A.Mundo [EJ3A.Fin; EJ3A.Fin] None
      ("9.50 Alumno2" +:+ nl +:+ "7.50 Alumno1" +:+ nl).
Proof. reflexivity. Qed.

(** In the middle of that schedule worker 1 holds the lock with its line
    half written and worker 0 waits. *)
Example intercalado_a_medias :
  EJ3A.ejecutar fs_notas (EJ3.tareas_med 2) (EJ3A.inicial (EJ3.tareas_med 2))
    (take 8 plan_intercalado)
  = EJ3A.Mundo [EJ3A.Calculada ("7.50 Alumno1" +:+ nl);
                EJ3A.EnSeccion ("0 Alumno2" +:+ nl)] (Some 1) "9.5".
Proof. reflexivity. Qed.

Lemma exclusion_mutua_witness :
  let w := EJ3A.ejecutar fs_notas (EJ3.tareas_med 2) (EJ3A.inicial (EJ3.tareas_med 2))
             plan_intercalado in
  EJ3A.entradas_legibles fs_notas (EJ3.tareas_med 2)
  ∧ EJ3A.todos_fin w
  ∧ EJ3A.cerrojo w = None
  ∧ ∃ orden,
      orden ≡ₚ seq 0 2
      ∧ EJ3A.sumidero w
        = EJ3.concatenar (EJ3A.linea_o_vacia fs_notas (EJ3.tareas_med 2) <$> orden).
Proof.
  intros w. split; [exact notas_legibles|].
  assert (EJ3A.procesos w = [EJ3A.Fin; EJ3A.Fin]) as Hps by reflexivity.
  assert (EJ3A.todos_fin w) as Hfin.
  { unfold EJ3A.todos_fin. rewrite Hps. by repeat constructor. }
  split; [exact Hfin|].
  destruct (exclusion_mutua fs_notas (EJ3.tareas_med 2) notas_legibles plan_intercalado)
    as (_ & _ & Hw & _).
  destruct (Hw Hfin) as (Hk & orden & Hp & Hs & _).
  split; [exact Hk|]. exists orden. split; [exact Hp|exact Hs].
Defined.

End EJ3_evaluado.

(** ** EJ3B: the pool *)

Section Pool_generico.
Import EJ3B.
Context `{Fl : Flotantes} {T R : Type}.
Variable work : T → entorno → (nat → float) → sistema → sistema * result R.
Variable tareas : list T.

(** [Inv] holds of the file system throughout the batch; [Q e v] is what
    the run [e] with result [v] has established, and no other run undoes. *)
Variable Inv : sistema → Prop.
Variable Q : ejecucion → R → sistema → Prop.

Hypothesis Inv_paso : ∀ e t fs fs' r,
  tareas !! indice e = Some t → Inv fs →
  work t (e_env e) (e_azar e) fs = (fs', r) → Inv fs'.
Hypothesis Q_propio : ∀ e t fs fs' v,
  tareas !! indice e = Some t → Inv fs →
  work t (e_env e) (e_azar e) fs = (fs', Ok v) → Q e v fs'.
Hypothesis Q_ajeno : ∀ e v e' t' fs fs' r,
  indice e ≠ indice e' → tareas !! indice e' = Some t' → Inv fs → Q e v fs →
  work t' (e_env e') (e_azar e') fs = (fs', r) → Q e v fs'.

Lemma pool_bucle_hechas plan : ∀ hechas fs huecos error quedan,
  NoDup (indice <$> plan) →
  (∀ e, e ∈ plan → indice e < length tareas) →
  length huecos = length tareas →
  Inv fs →
  (∀ e, e ∈ hechas →
        (indice e ∉ indice <$> plan)
        ∧ ∃ v, huecos !! indice e = Some (Some v) ∧ Q e v fs) →
  ∃ fs' huecos' error',
    pool_bucle work tareas plan fs huecos error quedan
    = (fs', huecos', error', quedan - length plan)
    ∧ length huecos' = length tareas
    ∧ Inv fs'
    ∧ (is_Some error → is_Some error')
    ∧ (error' = None →
       ∀ e, e ∈ hechas ++ plan → ∃ v, huecos' !! indice e = Some (Some v) ∧ Q e v fs')
    ∧ ((∀ e t fs0, e ∈ plan → tareas !! indice e = Some t → Inv fs0 →
                   ∃ fs1 v, work t (e_env e) (e_azar e) fs0 = (fs1, Ok v)) →
       error' = error).
Proof.
  induction plan as [|e plan IH]; intros hechas fs huecos error quedan ND Hlt Hlen HI Hh.
  { exists fs, huecos, error. simpl. rewrite Nat.sub_0_r, app_nil_r.
    repeat split; try done. intros _ e He. by destruct (Hh e He) as [_ ?]. }
  simpl. apply NoDup_cons in ND as [Hnotin ND]. fold (fmap indice plan) in Hnotin.
  destruct (lookup_lt_is_Some_2 tareas (indice e)) as [t Ht].
  { apply Hlt. by left. }
  rewrite Ht. destruct (work t (e_env e) (e_azar e) fs) as [fs1 [v|x]] eqn:Hw.
  - destruct (IH (hechas ++ [e]) fs1 (<[indice e := Some v]> huecos) error (pred quedan))
      as (fs' & huecos' & error' & Hb & Hlen' & HI' & Herr & Hok & Hnr).
    + done.
    + intros e' He'. apply Hlt. by right.
    + by rewrite length_insert.
    + eapply Inv_paso; eauto.
    + intros e' [He'| ->%list_elem_of_singleton]%elem_of_app.
      * destruct (Hh e' He') as [Hni (v' & Hv' & Hq)].
        rewrite fmap_cons, not_elem_of_cons in Hni. destruct Hni as [Hne Hni].
        split; [done|]. exists v'. split.
        -- by rewrite list_lookup_insert_ne.
        -- eapply Q_ajeno; eauto.
      * split; [done|]. exists v. split.
        -- apply list_lookup_insert_eq. rewrite Hlen. apply Hlt. by left.
        -- eapply Q_propio; eauto.
    + exists fs', huecos', error'. rewrite Hb. split; [f_equal; lia|].
      split; [done|]. split; [done|]. split; [done|]. split.
      * intros Hnone e' He'. apply (Hok Hnone). rewrite <- app_assoc. exact He'.
      * intros Hno. apply Hnr. intros e' t' fs0 He'. apply Hno. by right.
  - destruct (IH hechas fs1 huecos (Some (default x error)) (pred quedan))
      as (fs' & huecos' & error' & Hb & Hlen' & HI' & Herr & Hok & Hnr).
    + done.
    + intros e' He'. apply Hlt. by right.
    + done.
    + eapply Inv_paso; eauto.
    + intros e' He'. destruct (Hh e' He') as [Hni (v' & Hv' & Hq)].
      rewrite fmap_cons, not_elem_of_cons in Hni. destruct Hni as [Hne Hni].
      split; [done|]. exists v'. split; [done|]. eapply Q_ajeno; eauto.
    + exists fs', huecos', error'. rewrite Hb. split; [f_equal; lia|].
      split; [done|]. split; [done|]. split; [intros _; apply Herr; eauto|]. split.
      * intros Hnone. destruct Herr as [? Herr]; [eauto|]. congruence.
      * intros Hno. destruct (Hno e t fs) as (fs2 & v2 & Hw2); [by left|done..|].
        congruence.
Qed.

(** The order guarantee of [pool.map]: once every task has been run exactly
    once, in whatever order and by whatever process, the call returns, and
    when no run has raised the result list has the length of the task list
    and holds at each task index the result of the run of that task. *)
Lemma pool_map_orden plan fs :
  plan_valido tareas plan → Inv fs →
  ∃ fs' r,
    pool_map work tareas plan fs = Some (fs', r)
    ∧ Inv fs'
    ∧ (∀ rs, r = Ok rs →
         length rs = length tareas
         ∧ ∀ e, e ∈ plan → ∃ v, rs !! indice e = Some v ∧ Q e v fs')
    ∧ ((∀ e t fs0, e ∈ plan → tareas !! indice e = Some t → Inv fs0 →
                   ∃ fs1 v, work t (e_env e) (e_azar e) fs0 = (fs1, Ok v)) →
       ∃ rs, r = Ok rs).
Proof.
  intros Hval HI. unfold plan_valido in Hval.
  assert (NoDup (indice <$> plan)) as ND by (rewrite Hval; apply NoDup_seq).
  assert (∀ e, e ∈ plan → indice e < length tareas) as Hlt.
  { intros e He. apply (list_elem_of_fmap_2 indice) in He.
    rewrite Hval, elem_of_seq in He. lia. }
  assert (length plan = length tareas) as Hlen.
  { rewrite <- (length_fmap indice plan), Hval. apply length_seq. }
  destruct (pool_bucle_hechas plan [] fs (replicate (length tareas) None) None
              (length tareas) ND Hlt)
    as (fs' & huecos' & error' & Hb & Hlen' & HI' & _ & Hok & Hnr).
  { apply length_replicate. }
  { done. }
  { by intros e ?%elem_of_nil. }
  unfold pool_map. rewrite Hb, Hlen, Nat.sub_diag.
  destruct error' as [x|].
  - exists fs', (Raise x). split; [done|]. split; [done|]. split; [done|].
    intros Hno. by specialize (Hnr Hno).
  - specialize (Hok eq_refl). simpl in Hok.
    assert (is_Some (mapM id huecos')) as [rs Hrs].
    { apply mapM_is_Some_2, Forall_lookup. intros i o Hi.
      assert (i ∈ indice <$> plan) as (e & -> & He)%list_elem_of_fmap.
      { rewrite Hval, elem_of_seq. apply lookup_lt_Some in Hi. lia. }
      destruct (Hok e He) as (v & Hv & _). rewrite Hv in Hi.
      injection Hi as <-. by eexists. }
    rewrite Hrs. simpl. exists fs', (Ok rs). split; [done|]. split; [done|].
    split; [|eauto]. intros rs' [= <-]. apply mapM_Some in Hrs.
    split; [by rewrite <- (Forall2_length _ _ _ Hrs)|].
    intros e He. destruct (Hok e He) as (v & Hv & Hq). exists v. split; [|done].
    destruct (Forall2_lookup_l _ _ _ _ _ Hrs Hv) as (y & Hy & Hid).
    simpl in Hid. by injection Hid as <-.
Qed.

End Pool_generico.

Lemma ruta_alumno_inj i j : EJ3.ruta_alumno i = EJ3.ruta_alumno j → i = j.
Proof.
  unfold EJ3.ruta_alumno, py_str. intros H.
  apply (inj (String.append "Alumno")) in H. apply append_inj_r in H.
  apply (inj pretty) in H. lia.
Qed.

Lemma ruta_alumno_no_medias i : EJ3.ruta_alumno i ≠ "medias.txt".
Proof. unfold EJ3.ruta_alumno. intros H. discriminate H. Qed.

Lemma tareas_gen_lookup n k i :
  i < n → EJ3B.tareas_gen n k !! i = Some (EJ3.ruta_alumno (S i), k).
Proof.
  intros Hi. unfold EJ3B.tareas_gen. rewrite list_lookup_fmap.
  by rewrite lookup_seq_lt.
Qed.

Lemma tareas_med_lookup n i :
  i < n → EJ3.tareas_med n !! i = Some (EJ3.ruta_alumno (S i), EJ3.nombre_alumno (S i)).
Proof.
  intros Hi. unfold EJ3.tareas_med. rewrite list_lookup_fmap.
  by rewrite lookup_seq_lt.
Qed.

Section EJ3B_propiedades.
Import EJ3 EJ3B.
Context `{Fl : Flotantes}.

Lemma length_tareas_gen n k : length (tareas_gen n k) = n.
Proof. unfold tareas_gen. by rewrite length_fmap, length_seq. Qed.

Lemma length_tareas_med n : length (tareas_med n) = n.
Proof. unfold tareas_med. by rewrite length_fmap, length_seq. Qed.

Lemma tareas_gen_inv n k i t :
  tareas_gen n k !! i = Some t → i < n ∧ t = (ruta_alumno (S i), k).
Proof.
  intros Ht. assert (i < n) as Hi.
  { apply lookup_lt_Some in Ht. by rewrite length_tareas_gen in Ht. }
  rewrite tareas_gen_lookup in Ht by done. split; congruence.
Qed.

Lemma tareas_med_inv n i t :
  tareas_med n !! i = Some t → i < n ∧ t = (ruta_alumno (S i), nombre_alumno (S i)).
Proof.
  intros Ht. assert (i < n) as Hi.
  { apply lookup_lt_Some in Ht. by rewrite length_tareas_med in Ht. }
  rewrite tareas_med_lookup in Ht by done. split; congruence.
Qed.

(** A generation run on a writable file system. *)
Lemma generar_notas_pool_escribe n k i env azar fs :
  i < n → inv_gen n fs →
  generar_notas_pool (ruta_alumno (S i), k) env azar fs
  = (<[ruta_alumno (S i) := Texto (texto_notas k azar)]> fs,
     Ok (ResultadoGen (ruta_alumno (S i)) (f_sub (t1 env) (t0 env)) (pid env))).
Proof.
  intros Hi [Hleg _]. unfold generar_notas_pool, escribir.
  specialize (Hleg (S i)). destruct (fs !! ruta_alumno (S i)) as [[?|]|]; try done.
  destruct Hleg; [lia|done].
Qed.

Lemma inv_gen_insert n fs i t :
  inv_gen n fs → inv_gen n (<[ruta_alumno i := Texto t]> fs).
Proof.
  intros [Hleg Hmed]. split.
  - intros j Hj. destruct (decide (ruta_alumno i = ruta_alumno j)) as [->|Hne].
    + by rewrite lookup_insert_eq.
    + rewrite lookup_insert_ne by done. by apply Hleg.
  - rewrite lookup_insert_ne; [done|apply ruta_alumno_no_medias].
Qed.

(** The generation batch: it returns without exception, its results are in
    task order, and every student's file holds the marks drawn by the run of
    that student's task. *)
Lemma lote_gen n k plan fs :
  plan_valido (tareas_gen n k) plan → inv_gen n fs →
  ∃ fs' rs,
    pool_map generar_notas_pool (tareas_gen n k) plan fs = Some (fs', Ok rs)
    ∧ inv_gen n fs'
    ∧ length rs = n
    ∧ ∀ e, e ∈ plan → ∃ v, rs !! indice e = Some v ∧ hecho_gen k e v fs'.
Proof.
  intros Hval HI.
  destruct (pool_map_orden generar_notas_pool (tareas_gen n k) (inv_gen n) (hecho_gen k))
    with (plan := plan) (fs := fs) as (fs' & r & Hmap & HI' & Hok & Hnr); try done.
  - intros e t fs0 fs1 r [Hi ->]%tareas_gen_inv HI0.
    rewrite (generar_notas_pool_escribe n) by done. intros [= <- <-].
    by apply inv_gen_insert.
  - intros e t fs0 fs1 v [Hi ->]%tareas_gen_inv HI0.
    rewrite (generar_notas_pool_escribe n) by done. intros [= <- <-].
    split; [done|]. by rewrite lookup_insert_eq.
  - intros e v e' t' fs0 fs1 r Hne [Hi ->]%tareas_gen_inv HI0 [Hv Hf].
    rewrite (generar_notas_pool_escribe n) by done. intros [= <- <-].
    split; [done|]. rewrite lookup_insert_ne; [done|].
    intros Heq%ruta_alumno_inj. lia.
  - destruct Hnr as [rs ->].
    { intros e t fs0 He [Hi ->]%tareas_gen_inv HI0.
      rewrite (generar_notas_pool_escribe n) by done. eauto. }
    destruct (Hok rs eq_refl) as [Hlen Hrs]. rewrite length_tareas_gen in Hlen.
    exists fs', rs. eauto.
Qed.

Lemma leer_media_texto fs ruta t :
  fs !! ruta = Some (Texto t) → ∃ m, leer_media fs ruta = Ok (Some m).
Proof. intros H. pose proof (leer_media_casos fs ruta) as Hm. rewrite H in Hm. eauto. Qed.

Lemma leer_media_insert_ne fs ruta ruta' x :
  ruta' ≠ ruta → leer_media (<[ruta' := x]> fs) ruta = leer_media fs ruta.
Proof. intros Hne. unfold leer_media, abrir. by rewrite lookup_insert_ne. Qed.

(** The averaging batch on files that all exist: it returns without
    exception and leaves the files alone; its results are in task order, each
    carrying the name of its task's student and the mean of that student's
    file. *)
Lemma lote_med n plan fs1 :
  plan_valido (tareas_med n) plan →
  (∀ i, i < n → ∃ t, fs1 !! ruta_alumno (S i) = Some (Texto t)) →
  ∃ rs,
    pool_map calcular_media_pool (tareas_med n) plan fs1 = Some (fs1, Ok rs)
    ∧ length rs = n
    ∧ ∀ e, e ∈ plan →
        ∃ m, rs !! indice e
             = Some (ResultadoMed m (nombre_alumno (S (indice e)))
                       (f_sub (t1 (e_env e)) (t0 (e_env e))) (pid (e_env e)))
             ∧ leer_media fs1 (ruta_alumno (S (indice e))) = Ok (Some m).
Proof.
  intros Hval Hex.
  destruct (pool_map_orden calcular_media_pool (tareas_med n) (λ fs, fs = fs1)
              (λ e v _, ∃ m, leer_media fs1 (ruta_alumno (S (indice e))) = Ok (Some m)
                             ∧ v = ResultadoMed m (nombre_alumno (S (indice e)))
                                     (f_sub (t1 (e_env e)) (t0 (e_env e)))
                                     (pid (e_env e))))
    with (plan := plan) (fs := fs1) as (fs' & r & Hmap & -> & Hok & Hnr); try done.
  - intros e t fs0 fs2 r [Hi ->]%tareas_med_inv ->.
    rewrite calcular_media_pool_casos. by intros [= <- _].
  - intros e t fs0 fs2 v [Hi ->]%tareas_med_inv ->.
    rewrite calcular_media_pool_casos.
    destruct (Hex _ Hi) as [t Ht]. destruct (leer_media_texto _ _ _ Ht) as [m Hm].
    rewrite Hm. intros [= _ <-]. eauto.
  - destruct Hnr as [rs ->].
    { intros e t fs0 He [Hi ->]%tareas_med_inv ->.
      rewrite calcular_media_pool_casos.
      destruct (Hex _ Hi) as [t Ht]. destruct (leer_media_texto _ _ _ Ht) as [m ->].
      eauto. }
    destruct (Hok rs eq_refl) as [Hlen Hrs]. rewrite length_tareas_med in Hlen.
    exists rs. split; [done|]. split; [done|].
    intros e He. destruct (Hrs e He) as (v & Hv & m & Hm & ->). eauto.
Qed.

Lemma maximo_bucle_total ls : ∀ mejor, ∃ r, maximo_bucle ls mejor = Ok r.
Proof.
  induction ls as [|linea ls IH]; intros mejor; simpl; [eauto|].
  destruct (entrada_de_casos linea) as [(n & a & -> & _)|[-> _]]; simpl; [|apply IH].
  destruct mejor as [[m am]|]; [destruct (f_gt n m)|]; apply IH.
Qed.

Lemma plan_valido_indices {X} (tareas : list X) plan i :
  plan_valido tareas plan → i < length tareas → ∃ e, e ∈ plan ∧ indice e = i.
Proof.
  intros Hval Hi. assert (i ∈ indice <$> plan) as (e & -> & He)%list_elem_of_fmap.
  { unfold plan_valido in Hval. rewrite Hval, elem_of_seq. lia. }
  eauto.
Qed.

(** C2: whatever the order in which the runs complete and whichever pool
    process makes each of them, both batches of [__main__] return their
    results in task order: entry [i] of the generation results names the file
    of student [i+1], entry [i] of the averaging results carries the name of
    student [i+1] and the mean of that student's file (which holds the marks
    drawn by the run of generation task [i]), and [medias.txt] is the lines
    of the averaging results in that order, so that its line [i] is the mean
    and name of student [i+1]. *)
Theorem pool_conserva_el_orden (n n_notas : nat) (plan_gen plan_med : list ejecucion)
    (fs : sistema) :
  plan_valido (tareas_gen n n_notas) plan_gen →
  plan_valido (tareas_med n) plan_med →
  (∀ i, 1 ≤ i ≤ n → fs !! ruta_alumno i ≠ Some Ilegible) →
  ∃ f,
    main n n_notas plan_gen plan_med fs = Some (Ok f)
    ∧ length (resultados_gen f) = n
    ∧ length (resultados_med f) = n
    ∧ (∀ e, e ∈ plan_gen →
         resultados_gen f !! indice e
         = Some (ResultadoGen (ruta_alumno (S (indice e)))
                   (f_sub (t1 (e_env e)) (t0 (e_env e))) (pid (e_env e)))
         ∧ ficheros f !! ruta_alumno (S (indice e))
           = Some (Texto (texto_notas n_notas (e_azar e))))
    ∧ (∀ e, e ∈ plan_med →
         ∃ m, resultados_med f !! indice e
              = Some (ResultadoMed m (nombre_alumno (S (indice e)))
                        (f_sub (t1 (e_env e)) (t0 (e_env e))) (pid (e_env e)))
              ∧ leer_media (ficheros f) (ruta_alumno (S (indice e))) = Ok (Some m))
    ∧ ficheros f !! "medias.txt"
      = Some (Texto (concatenar
                       ((λ r, linea_media (r_media r) (r_nombre r)) <$> resultados_med f)))
    ∧ (∀ i, i < n →
         ∃ m, leer_media (ficheros f) (ruta_alumno (S i)) = Ok (Some m)
              ∧ ((λ r, linea_media (r_media r) (r_nombre r)) <$> resultados_med f) !! i
                = Some (linea_media m (nombre_alumno (S i)))).
Proof.
  intros Hgen Hmed Hleg. unfold main.
  assert (inv_gen n (delete "medias.txt" fs)) as HI0.
  { split; [|apply lookup_delete_eq]. intros i Hi.
    rewrite lookup_delete_ne; [by apply Hleg|].
    intros H. by eapply ruta_alumno_no_medias. }
  destruct (lote_gen n n_notas plan_gen _ Hgen HI0)
    as (fs1 & rgen & -> & [Hleg1 Hmed1] & Hlg & Hrg).
  simpl.
  assert (∀ i, i < n → ∃ t, fs1 !! ruta_alumno (S i) = Some (Texto t)) as Hex.
  { intros i Hi.
    destruct (plan_valido_indices _ _ i Hgen) as (e & He & <-).
    { by rewrite length_tareas_gen. }
    destruct (Hrg e He) as (v & _ & _ & Hf). eauto. }
  destruct (lote_med n plan_med fs1 Hmed Hex) as (rmed & -> & Hlm & Hrm).
  simpl. unfold escribir. rewrite Hmed1. simpl.
  set (fs3 := <["medias.txt" := Texto (texto_medias rmed)]> fs1).
  assert (∀ i, leer_media fs3 (ruta_alumno i) = leer_media fs1 (ruta_alumno i)) as Hl3.
  { intros i. apply leer_media_insert_ne. intros H. by eapply ruta_alumno_no_medias. }
  assert (∃ mx, proceso_maximo_medias fs3 "medias.txt" = Ok mx) as [mx ->].
  { unfold proceso_maximo_medias, abrir, fs3. rewrite lookup_insert_eq.
    destruct (maximo_bucle_total (lineas (texto_medias rmed)) None) as [[[m a]|] ->];
      simpl; eauto. }
  simpl. eexists. split; [done|]. simpl.
  split; [done|]. split; [done|]. split; [|split; [|split]].
  - intros e He. destruct (Hrg e He) as (v & Hv & -> & Hf). split; [done|].
    unfold fs3. rewrite lookup_insert_ne; [done|].
    intros H. symmetry in H. by eapply ruta_alumno_no_medias.
  - intros e He. destruct (Hrm e He) as (m & Hm & Hl). exists m. by rewrite Hl3.
  - unfold fs3. by rewrite lookup_insert_eq.
  - intros i Hi.
    destruct (plan_valido_indices _ _ i Hmed) as (e & He & <-).
    { by rewrite length_tareas_med. }
    destruct (Hrm e He) as (m & Hm & Hl). exists m. rewrite Hl3.
    split; [done|]. by rewrite list_lookup_fmap, Hm.
Qed.

End EJ3B_propiedades.

Section EJ3B_evaluado.
Import Ejemplos EJ3 EJ3B.

(** Three students, two marks each, the runs completing out of order: the
    names come back in task order and so do the lines of [medias.txt]. *)
Example main_ejemplo :
  match main 3 2 plan_gen_ej plan_med_ej ∅ with
  | Some (Ok f) =>
      r_nombre <$> resultados_med f = ["Alumno1"; "Alumno2"; "Alumno3"]
      ∧ r_pid <$> resultados_med f = [100; 101; 102]%Z
      ∧ ficheros f !! "medias.txt"
        = Some (Texto ("1.12 Alumno1" +:+ nl +:+ "2.12 Alumno2" +:+ nl
                       +:+ "3.12 Alumno3" +:+ nl))
      ∧ maximo f = NotaMaxima 312%Z "Alumno3"
  | _ => False
  end.
Proof. hnf. repeat split; reflexivity. Qed.

Lemma pool_conserva_el_orden_witness :
  plan_valido (tareas_gen 3 2) plan_gen_ej
  ∧ plan_valido (tareas_med 3) plan_med_ej
  ∧ (∀ i, 1 ≤ i ≤ 3 → (∅ : sistema) !! ruta_alumno i ≠ Some Ilegible)
  ∧ ∃ f,
      main 3 2 plan_gen_ej plan_med_ej ∅ = Some (Ok f)
      ∧ length (resultados_med f) = 3
      ∧ ∀ i, i < 3 →
          ∃ m, leer_media (ficheros f) (ruta_alumno (S i)) = Ok (Some m)
               ∧ ((λ r, linea_media (r_media r) (r_nombre r)) <$> resultados_med f) !! i
                 = Some (linea_media m (nombre_alumno (S i))).
Proof.
  assert (plan_valido (tareas_gen 3 2) plan_gen_ej) as Hg
    by (unfold plan_valido; by apply (bool_decide_unpack _)).
  assert (plan_valido (tareas_med 3) plan_med_ej) as Hm
    by (unfold plan_valido; by apply (bool_decide_unpack _)).
  assert (∀ i, 1 ≤ i ≤ 3 → (∅ : sistema) !! ruta_alumno i ≠ Some Ilegible) as Hl
    by (intros i _; by rewrite lookup_empty).
  split; [exact Hg|]. split; [exact Hm|]. split; [exact Hl|].
  destruct (pool_conserva_el_orden 3 2 plan_gen_ej plan_med_ej ∅ Hg Hm Hl)
    as (f & Hmain & _ & Hlen & _ & _ & _ & Hlin).
  exists f. split; [exact Hmain|]. split; [exact Hlen|exact Hlin].
Defined.

End EJ3B_evaluado.

(** ** Evaluations over the concrete readings *)

Section Evaluaciones.
Import Ejemplos.

Example clase_ip_ejemplos :
  EJ2.clase_ip <$> ["10.0.0.1"; "126.9.9.9"; "127.0.0.1"; "128.1.1.1"; "191.1.1.1";
                    "192.168.0.1"; "223.1.1.1"; "224.0.0.1"; "239.1.1.1"; "240.0.0.1";
                    "254.1.1.1"; "255.1.1.1"; "0.1.2.3"; "-5.1.1.1"; "abc"; "";
                    " 12 .3"; "1_0.0.0.1"]
  = [Some EJ2.A; Some EJ2.A; None; Some EJ2.B; Some EJ2.B;
     Some EJ2.C; Some EJ2.C; Some EJ2.D; Some EJ2.D; Some EJ2.E;
     Some EJ2.E; None; None; None; None; None;
     Some EJ2.A; Some EJ2.A].
Proof. reflexivity. Qed.

Example filtrar_ips_ejemplo :
  EJ2.filtrar_ips [Some "10.0.0.1"; Some "230.1.1.1"; Some "192.168.0.1"; None;
                   Some "1.1.1.1"]
  = EJ2.Filtro 3 2 [Some ("10.0.0.1", EJ2.A); Some ("192.168.0.1", EJ2.C); None]
      [Some "1.1.1.1"] true true (Ok ()).
Proof. reflexivity. Qed.

Example tuberia_ejemplo :
  let '(p1, p2, p3) := EJ2.tuberia 3 octetos0 in
  EJ2.g_enviados p1 = [Some "10.201.30.203"; Some "50.205.70.207";
                       Some "90.209.110.211"; None]
  ∧ EJ2.impresos p3 = [("10.201.30.203", EJ2.A); ("50.205.70.207", EJ2.A);
                       ("90.209.110.211", EJ2.A)].
Proof. split; reflexivity. Qed.

Example contar_ejemplo :
  EJ1.contar "A" ("Hola Ana" +:+ nl +:+ "AEIOU u") = 4%Z
  ∧ EJ1.contar "u" ("Hola Ana" +:+ nl +:+ "AEIOU u") = 2%Z.
Proof. split; reflexivity. Qed.

(** One worker found its file, one found none, one could not read it, and
    one has not answered. *)
Example informe_ejemplo :
  (λ r, match r with Ok m => EJ1.informe m | Raise _ => [] end)
    (EJ1.orquestar "texto.txt"
       (λ v, if String.eqb v "e" then EJ1.SinRespuesta
             else if String.eqb v "i" then EJ1.Termino ∅ env0
             else if String.eqb v "o" then EJ1.Termino {["texto.txt" := Ilegible]} env0
             else EJ1.Termino fs_texto env0))
  = [EJ1.Conteo "a" 4 (Some 4242%Z) (Some 250%Z); EJ1.ErrorLeyendo "e" None;
     EJ1.ErrorLeyendo "i" (Some 4242%Z); EJ1.ErrorLeyendo "o" None;
     EJ1.Conteo "u" 2 (Some 4242%Z) (Some 250%Z)].
Proof. reflexivity. Qed.

Example peliculas_ejemplo :
  EJ4.proceso_filtrar_por_anyo "p.txt" 1999
    {[ "p.txt" := Texto ("Matrix ; 1999" +:+ nl +:+ "Otra;2000" +:+ nl +:+ "mala" +:+ nl
                         +:+ "Club; 1_999 " +:+ nl +:+ "a;b;1999") ]}
  = EJ4.Filtrador [Some "Matrix;1999"; Some "Club;1999"; None]
      [EJ4.FiltradoTerminado 2] true (Ok ()).
Proof. reflexivity. Qed.

Example lineas_ejemplo :
  lineas ("ab" +:+ nl +:+ "cd" +:+ String CR nl +:+ nl +:+ "e")
  = ["ab" +:+ nl; "cd" +:+ nl; nl; "e"].
Proof. reflexivity. Qed.

Example split_ejemplos :
  PyStr.split "." "a..b." = ["a"; ""; "b"; ""]
  ∧ PyStr.split "." "" = [""]
  ∧ PyStr.split_max1 "7.50 Alumno 3  " = ["7.50"; "Alumno 3  "]
  ∧ PyStr.split_max1 "   " = []
  ∧ PyStr.strip "  a b  " = "a b"
  ∧ PyStr.count "aaaa" "aa" = 2
  ∧ PyStr.count "abc" "" = 4.
Proof. repeat split; reflexivity. Qed.

End Evaluaciones.

(** * Further properties *)

(** ** Characters and lines *)

Section Caracteres.
Import Car.

Lemma todos_app p a b : todos p (a +:+ b) = todos p a && todos p b.
Proof.
  induction a as [|c a IH]; [done|].
  change (p c && todos p (a +:+ b) = p c && todos p a && todos p b).
  rewrite IH. by destruct (p c).
Qed.

Lemma todos_impl (p q : ascii → bool) s :
  (∀ c, p c = true → q c = true) → todos p s = true → todos q s = true.
Proof.
  intros Hpq. induction s as [|c s IH]; simpl; [done|].
  intros [Hc Hs]%andb_prop. rewrite (Hpq c Hc). simpl. by apply IH.
Qed.

Lemma cuenta_app p a b : cuenta p (a +:+ b) = cuenta p a + cuenta p b.
Proof.
  induction a as [|c a IH]; [done|].
  change ((if p c then 1 else 0) + cuenta p (a +:+ b)
          = (if p c then 1 else 0) + cuenta p a + cuenta p b).
  rewrite IH. lia.
Qed.

(** *** [lstrip], [rstrip] and [strip] *)

Lemma lstrip_todos p s : todos p s = true → todos p (PyStr.lstrip s) = true.
Proof.
  induction s as [|c s IH]; [done|]. intros H. simpl.
  destruct (PyStr.is_space c); [|done]. simpl in H.
  apply andb_prop in H as [_ H]. by apply IH.
Qed.

Lemma rstrip_todos p s : todos p s = true → todos p (PyStr.rstrip s) = true.
Proof.
  induction s as [|c s IH]; [done|]. simpl. intros [Hc Hs]%andb_prop.
  specialize (IH Hs). destruct (PyStr.rstrip s) as [|c' r'].
  - destruct (PyStr.is_space c); [done|]. simpl. by rewrite Hc.
  - simpl in *. by rewrite Hc, IH.
Qed.

Lemma strip_todos p s : todos p s = true → todos p (PyStr.strip s) = true.
Proof. intros H. unfold PyStr.strip. by apply rstrip_todos, lstrip_todos. Qed.

Lemma lstrip_no_blanco s : todos no_blanco s = true → PyStr.lstrip s = s.
Proof.
  destruct s as [|c s]; [done|]. simpl. unfold no_blanco at 1.
  by destruct (PyStr.is_space c).
Qed.

Lemma rstrip_no_blanco s : todos no_blanco s = true → PyStr.rstrip s = s.
Proof.
  induction s as [|c s IH]; [done|]. simpl. unfold no_blanco at 1.
  intros [Hc Hs]%andb_prop. rewrite (IH Hs).
  destruct s; [|done]. by destruct (PyStr.is_space c).
Qed.

Lemma lstrip_idem s : PyStr.lstrip (PyStr.lstrip s) = PyStr.lstrip s.
Proof.
  induction s as [|c s IH]; [done|]. simpl.
  destruct (PyStr.is_space c) eqn:Hc; [done|]. simpl. by rewrite Hc.
Qed.

Lemma rstrip_cons c s :
  PyStr.rstrip (String c s)
  = match PyStr.rstrip s with
    | EmptyString => if PyStr.is_space c then EmptyString else String c EmptyString
    | r => String c r
    end.
Proof. done. Qed.

Lemma rstrip_idem s : PyStr.rstrip (PyStr.rstrip s) = PyStr.rstrip s.
Proof.
  induction s as [|c s IH]; [done|]. rewrite rstrip_cons.
  destruct (PyStr.rstrip s) as [|c' r'] eqn:Hr.
  - destruct (PyStr.is_space c) eqn:Hc; [done|]. simpl. by rewrite Hc.
  - rewrite rstrip_cons, IH. done.
Qed.

(** Stripping on the right keeps a clean left end. *)
Lemma lstrip_rstrip s :
  PyStr.lstrip s = s → PyStr.lstrip (PyStr.rstrip s) = PyStr.rstrip s.
Proof.
  destruct s as [|c s]; [done|]. intros H. rewrite rstrip_cons.
  assert (PyStr.is_space c = false) as Hc.
  { simpl in H. destruct (PyStr.is_space c); [|done].
    assert (String.length (PyStr.lstrip s) ≤ String.length s) as Hle.
    { clear H. induction s as [|d s IH]; simpl; [lia|].
      destruct (PyStr.is_space d); simpl; lia. }
    rewrite H in Hle. simpl in Hle. lia. }
  destruct (PyStr.rstrip s); rewrite ?Hc; simpl; by rewrite Hc.
Qed.

Lemma strip_idem s : PyStr.strip (PyStr.strip s) = PyStr.strip s.
Proof.
  unfold PyStr.strip. rewrite lstrip_rstrip by apply lstrip_idem.
  apply rstrip_idem.
Qed.

Lemma strip_no_blanco s : todos no_blanco s = true → PyStr.strip s = s.
Proof.
  intros H. unfold PyStr.strip. rewrite lstrip_no_blanco by done.
  by apply rstrip_no_blanco.
Qed.

(** *** [for linea in f] *)

Lemma lineas_linea l resto :
  todos no_salto l = true →
  lineas (l +:+ nl +:+ resto) = (l +:+ nl) :: lineas resto.
Proof.
  induction l as [|c l IH]; intros H.
  - change (lineas (String LF resto) = nl :: lineas resto). done.
  - simpl in H. apply andb_prop in H as [Hc Hl].
    change (lineas (String c (l +:+ nl +:+ resto))
            = String c (l +:+ nl) :: lineas resto).
    unfold no_salto in Hc. apply negb_true_iff, orb_false_iff in Hc as [H1 H2].
    cbn [lineas]. rewrite H1, H2, (IH Hl). done.
Qed.

(** Lines without inner line breaks, each ended by a line feed, are read
    back as they were written. *)
Lemma lineas_terminadas ls :
  Forall (λ l, todos no_salto l = true) ls →
  lineas (EJ3.concatenar ((λ l, l +:+ nl) <$> ls)) = (λ l, l +:+ nl) <$> ls.
Proof.
  induction 1 as [|l ls Hl _ IH]; [done|]. csimpl.
  change (EJ3.concatenar ((l +:+ nl) :: ((λ l, l +:+ nl) <$> ls)))
    with ((l +:+ nl) +:+ EJ3.concatenar ((λ l, l +:+ nl) <$> ls)).
  rewrite append_assoc, lineas_linea by done. by rewrite IH.
Qed.

(** A line handed out by [for linea in f] has no line break except,
    possibly, the line feed that ends it. *)
Lemma lineas_forma s :
  Forall (λ l, ∃ cuerpo, todos no_salto cuerpo = true
                         ∧ (l = cuerpo ∨ l = cuerpo +:+ nl)) (lineas s).
Proof.
  assert (Forall (λ l, ∃ cuerpo, todos no_salto cuerpo = true
                         ∧ (l = cuerpo ∨ l = cuerpo +:+ nl)) [nl]) as Hnl.
  { constructor; [|constructor]. exists EmptyString. split; [done|by right]. }
  induction s as [|c s IH]; [constructor|]. cbn [lineas].
  destruct (Ascii.eqb c LF) eqn:H1.
  { constructor; [|done]. by apply Forall_inv in Hnl. }
  destruct (Ascii.eqb c CR) eqn:H2.
  { destruct s as [|c' s']; [done|].
    destruct (Ascii.eqb c' LF) eqn:H3.
    - cbn [lineas] in IH. rewrite H3 in IH. done.
    - constructor; [by apply Forall_inv in Hnl|done]. }
  destruct (lineas s) as [|l ls].
  - constructor; [|constructor]. exists (String c EmptyString). split; [|by left].
    simpl. unfold no_salto. by rewrite H1, H2.
  - apply Forall_cons in IH as [(cuerpo & Hc & Hl) Hls]. constructor; [|done].
    exists (String c cuerpo). split.
    + simpl. unfold no_salto at 1. by rewrite H1, H2.
    + destruct Hl as [->| ->]; [by left|by right].
Qed.

(** Counting characters line by line counts them in the whole text, for
    characters other than the line breaks. *)
Lemma cuenta_lineas p s :
  p LF = false → p CR = false →
  foldr (λ l n, cuenta p l + n) 0 (lineas s) = cuenta p s.
Proof.
  intros HLF HCR. induction s as [|c s IH]; [done|]. cbn [lineas cuenta].
  destruct (Ascii.eqb c LF) eqn:H1.
  { apply Ascii.eqb_eq in H1 as ->. simpl. rewrite HLF, IH. done. }
  destruct (Ascii.eqb c CR) eqn:H2.
  { apply Ascii.eqb_eq in H2 as ->. rewrite HCR.
    destruct s as [|c' s']; [simpl; by rewrite HLF|].
    destruct (Ascii.eqb c' LF) eqn:H3.
    - cbn [lineas] in IH. rewrite H3 in IH. exact IH.
    - simpl foldr at 1. cbn [cuenta nl]. rewrite HLF. simpl. exact IH. }
  destruct (lineas s) as [|l ls]; simpl in *; lia.
Qed.

(** *** [split] and [join] *)

Lemma split_sin_sep sep a :
  todos (no_es sep) a = true → PyStr.split sep a = [a].
Proof.
  induction a as [|c a IH]; [done|]. simpl. unfold no_es at 1.
  intros [Hc Ha]%andb_prop. apply negb_true_iff in Hc. rewrite Hc, (IH Ha). done.
Qed.

Lemma split_app sep a b :
  todos (no_es sep) a = true →
  PyStr.split sep (a +:+ String sep b) = a :: PyStr.split sep b.
Proof.
  induction a as [|c a IH]; intros H.
  - change (PyStr.split sep (String sep b) = EmptyString :: PyStr.split sep b).
    simpl. by rewrite Ascii.eqb_refl.
  - simpl in H. apply andb_prop in H as [Hc Ha]. unfold no_es in Hc.
    apply negb_true_iff in Hc.
    change (PyStr.split sep (String c (a +:+ String sep b))
            = String c a :: PyStr.split sep b).
    cbn [PyStr.split]. rewrite Hc, (IH Ha). done.
Qed.

(** No field of a split holds the separator. *)
Lemma split_partes sep s :
  Forall (λ campo, todos (no_es sep) campo = true) (PyStr.split sep s).
Proof.
  induction s as [|c s IH]; [by repeat constructor|]. cbn [PyStr.split].
  destruct (Ascii.eqb c sep) eqn:Hc; [by constructor|].
  pose proof (split_nonempty sep s) as Hne.
  destruct (PyStr.split sep s) as [|campo resto]; [done|].
  apply Forall_cons in IH as [Hcampo Hresto]. constructor; [|done].
  simpl. unfold no_es at 1. by rewrite Hc.
Qed.

(** Splitting what [join] has joined gives the fields back, when no field
    holds the separator. *)
Lemma split_join sep campos :
  campos ≠ [] →
  Forall (λ campo, todos (no_es sep) campo = true) campos →
  PyStr.split sep (PyStr.join (String sep EmptyString) campos) = campos.
Proof.
  intros Hne H. induction H as [|campo campos Hc Hcs IH]; [done|].
  destruct campos as [|campo' campos'].
  - simpl. by apply split_sin_sep.
  - change (PyStr.split sep (campo +:+ String sep EmptyString
                             +:+ PyStr.join (String sep EmptyString) (campo' :: campos'))
            = campo :: campo' :: campos').
    change (String sep EmptyString +:+ ?x) with (String sep x).
    rewrite split_app by done. by rewrite IH.
Qed.

Lemma before_app sep a b :
  todos (no_es sep) a = true → PyStr.before sep (a +:+ String sep b) = a.
Proof.
  induction a as [|c a IH]; intros H.
  - change (PyStr.before sep (String sep b) = EmptyString). simpl.
    by rewrite Ascii.eqb_refl.
  - simpl in H. apply andb_prop in H as [Hc Ha]. unfold no_es in Hc.
    apply negb_true_iff in Hc.
    change (PyStr.before sep (String c (a +:+ String sep b)) = String c a).
    cbn [PyStr.before]. by rewrite Hc, (IH Ha).
Qed.

(** *** [str] of an integer *)

Lemma pretty_N_go_todos p x s :
  (∀ d, p (pretty_N_char d) = true) → todos p s = true →
  todos p (pretty_N_go x s) = true.
Proof.
  intros Hp. revert s. induction (N.lt_wf_0 x) as [x _ IH]; intros s Hs.
  assert (x = 0 ∨ 0 < x)%N as [->|Hx] by lia; [by rewrite pretty_N_go_0|].
  rewrite pretty_N_go_step by done. apply IH; [by apply N.div_lt|].
  simpl. by rewrite Hp, Hs.
Qed.

Lemma pretty_N_char_digito d : Lectura.es_digito (pretty_N_char d) = true.
Proof. unfold pretty_N_char. by repeat case_match. Qed.

Lemma pretty_N_digitos (x : N) : todos Lectura.es_digito (pretty x) = true.
Proof.
  unfold pretty, pretty_N. case_decide; [done|].
  apply pretty_N_go_todos; [apply pretty_N_char_digito|done].
Qed.

(** The text of an integer is made of digits and, at most, a minus sign. *)
Lemma py_str_caracteres (z : Z) : todos es_cifra_o_menos (py_str z) = true.
Proof.
  assert (∀ x : N, todos es_cifra_o_menos (pretty x) = true) as HN.
  { intros x. eapply todos_impl; [|apply pretty_N_digitos].
    intros c Hc. unfold es_cifra_o_menos. by rewrite Hc. }
  unfold py_str, pretty, pretty_Z. destruct z as [|q|q]; [done|apply HN|].
  change (todos es_cifra_o_menos (String "-" (pretty (Npos q))) = true).
  simpl. apply HN.
Qed.

Lemma py_str_sin (x : ascii) (z : Z) :
  es_cifra_o_menos x = false → todos (no_es x) (py_str z) = true.
Proof.
  intros Hx. eapply todos_impl; [|apply py_str_caracteres].
  intros c Hc. unfold no_es. apply negb_true_iff, Ascii.eqb_neq. congruence.
Qed.

End Caracteres.

(** ** [int] reads back what [str] writes *)

Section Ley.
Import Car Lectura.

Lemma valor_pretty_N_char d : (d < 10)%N → valor (pretty_N_char d) = Z.of_N d.
Proof.
  intros Hd.
  assert (d = 0 ∨ d = 1 ∨ d = 2 ∨ d = 3 ∨ d = 4 ∨ d = 5 ∨ d = 6 ∨ d = 7
          ∨ d = 8 ∨ d = 9)%N as H by lia.
  repeat (destruct H as [->|H]; [done|]). by subst.
Qed.

Lemma digitos_pretty_N_go x : ∀ s b,
  (0 < x)%N → digitos (pretty_N_go x s) 0 b = digitos s (Z.of_N x) true.
Proof.
  induction (N.lt_wf_0 x) as [x _ IH]; intros s b Hx.
  rewrite pretty_N_go_step by done.
  pose proof (N.div_mod x 10) as Hdm.
  pose proof (N.mod_lt x 10) as Hlt.
  assert (x `div` 10 = 0 ∨ 0 < x `div` 10)%N as [H0|Hpos] by lia.
  - rewrite H0, pretty_N_go_0. cbn [digitos].
    rewrite pretty_N_char_digito, valor_pretty_N_char by lia. f_equal. lia.
  - rewrite IH by (done || by apply N.div_lt). cbn [digitos].
    rewrite pretty_N_char_digito, valor_pretty_N_char by lia. f_equal. lia.
Qed.

Lemma digitos_pretty_N (x : N) : digitos (pretty x) 0 false = Some (Z.of_N x).
Proof.
  unfold pretty, pretty_N. case_decide as H0; [by subst|].
  rewrite digitos_pretty_N_go by lia. done.
Qed.

Lemma int_literal_cifras (s : string) :
  (∀ c r, PyStr.strip s = String c r → es_digito c = true) →
  int_literal s = digitos (PyStr.strip s) 0 false.
Proof.
  unfold int_literal. intros Hs. destruct (PyStr.strip s) as [|c r]; [done|].
  specialize (Hs c r eq_refl).
  destruct c as [[] [] [] [] [] [] [] []]; try done.
Qed.

Lemma py_str_sin_blancos (z : Z) : todos no_blanco (py_str z) = true.
Proof.
  eapply todos_impl; [|apply py_str_caracteres].
  intros c. unfold es_cifra_o_menos, no_blanco, es_digito, PyStr.is_space.
  destruct c as [[] [] [] [] [] [] [] []]; done.
Qed.

Lemma strip_py_str (z : Z) : PyStr.strip (py_str z) = py_str z.
Proof. apply strip_no_blanco, py_str_sin_blancos. Qed.

Lemma pretty_N_sin_blancos (x : N) : todos no_blanco (pretty x) = true.
Proof.
  eapply todos_impl; [|apply pretty_N_digitos].
  intros c. unfold no_blanco, es_digito, PyStr.is_space.
  destruct c as [[] [] [] [] [] [] [] []]; done.
Qed.

Lemma int_literal_py_str (z : Z) : int_literal (py_str z) = Some z.
Proof.
  assert (∀ x : N, int_literal (pretty x) = Some (Z.of_N x)) as HN.
  { intros x. rewrite int_literal_cifras.
    - rewrite strip_no_blanco; [apply digitos_pretty_N|].
      apply pretty_N_sin_blancos.
    - rewrite strip_no_blanco by apply pretty_N_sin_blancos.
      intros c r Hcr. pose proof (pretty_N_digitos x) as Hd. rewrite Hcr in Hd.
      simpl in Hd. by apply andb_prop in Hd as [? _]. }
  unfold py_str, pretty, pretty_Z. destruct z as [|p|p]; [done|apply HN|].
  pose proof (strip_py_str (Z.neg p)) as Hs.
  unfold py_str, pretty, pretty_Z in Hs. unfold int_literal. rewrite Hs.
  change ("-" +:+ pretty p) with (String "-" (pretty (Npos p))).
  cbv beta iota. rewrite digitos_pretty_N. done.
Qed.

#[global] Instance ley_lectura : LeyEnteros Lectura.enteros.
Proof. constructor. exact int_literal_py_str. Qed.

End Ley.

(** ** EJ2 on any input *)

Lemma entrada_partes {X} (l : list (option X)) :
  l = (Some <$> hasta_centinela l)
      ++ (if con_centinela l then None :: tras_centinela l else []).
Proof.
  induction l as [|[x|] l IH]; [done| |done].
  change (con_centinela (Some x :: l)) with (con_centinela l).
  csimpl. f_equal. exact IH.
Qed.

Lemma tras_sin_centinela {X} (l : list (option X)) :
  con_centinela l = false → tras_centinela l = [].
Proof. induction l as [|[x|] l IH]; simpl; auto; discriminate. Qed.

Lemma hasta_centinela_reales {X} (xs : list X) (resto : list (option X)) :
  hasta_centinela ((Some <$> xs) ++ None :: resto) = xs.
Proof. induction xs as [|x xs IH]; csimpl; [done|]. by rewrite IH. Qed.

Section EJ2_resto.
Import EJ2 Car.
Context `{Ent : Enteros}.

Lemma filtrar_bucle_agotada ips st :
  filtrar_bucle (Some <$> ips) st
  = Filtro (recibidas st + length ips)
      (reenviadas st + length (supervivientes ips))
      (enviados st ++ (Some <$> supervivientes ips)) [] false false (Raise EOFError).
Proof.
  revert st. induction ips as [|ip ips IH]; intros st.
  - simpl. by rewrite !Nat.add_0_r, app_nil_r.
  - rewrite supervivientes_cons. simpl.
    destruct (clase_ip ip) as [[]|] eqn:Hc; simpl; rewrite IH; simpl;
      rewrite <- ?app_assoc; simpl; f_equal; lia.
Qed.

Lemma imprimir_bucle_agotada items st :
  imprimir_bucle (Some <$> items) st
  = Impresor (procesadas st + length items) (impresos st ++ items) [] false
      (Raise EOFError).
Proof.
  revert st. induction items as [|[ip cl] items IH]; intros st; simpl.
  - by rewrite Nat.add_0_r, app_nil_r.
  - rewrite IH; simpl. rewrite <- app_assoc. simpl. f_equal; lia.
Qed.

Lemma supervivientes_length ips : length (supervivientes ips) ≤ length ips.
Proof.
  induction ips as [|ip ips IH]; [done|]. rewrite supervivientes_cons.
  destruct (clase_ip ip) as [[]|]; simpl; lia.
Qed.

(** X1: The filter on any sequence of messages followed by the closing of
    the pipe: it reads up to the first sentinel and no further, counts what it
    has read, and forwards, in order, every address among them that
    [clase_ip] puts in class A, B or C, with that class, and no other; so it
    never forwards more than it received.  It ends normally, with one
    sentinel sent and both endpoints closed, exactly when the input holds a
    sentinel; otherwise it ends on [EOFError], with no sentinel sent and
    nothing closed. *)
Theorem filtro_ante_cualquier_entrada (entrada : list (option string)) :
  let p2 := filtrar_ips entrada in
  let ips := hasta_centinela entrada in
  let reenviables :=
    omap (λ ip, match clase_ip ip with
                | Some A => Some (ip, A)
                | Some B => Some (ip, B)
                | Some C => Some (ip, C)
                | _ => None
                end) ips in
  recibidas p2 = length ips
  ∧ reenviadas p2 = length reenviables
  ∧ reenviadas p2 ≤ recibidas p2
  ∧ enviados p2
    = (Some <$> reenviables) ++ (if con_centinela entrada then [None] else [])
  ∧ sin_leer p2 = tras_centinela entrada
  ∧ fin p2 = (if con_centinela entrada then Ok () else Raise EOFError)
  ∧ recv_cerrado p2 = con_centinela entrada
  ∧ send_cerrado p2 = con_centinela entrada.
Proof.
  intros p2 ips reenviables. subst reenviables p2 ips.
  rewrite <- supervivientes_por_clase.
  pose proof (supervivientes_length (hasta_centinela entrada)) as Hle.
  assert (filtrar_ips entrada
          = filtrar_ips ((Some <$> hasta_centinela entrada)
                         ++ (if con_centinela entrada
                             then None :: tras_centinela entrada else [])))
    as -> by (by rewrite <- entrada_partes).
  destruct (con_centinela entrada) eqn:Hc.
  - rewrite filtrar_ips_centinela. simpl. done.
  - rewrite app_nil_r. unfold filtrar_ips. rewrite filtrar_bucle_agotada. simpl.
    rewrite app_nil_r, tras_sin_centinela by done. done.
Qed.

(** X2: The printer on any sequence of messages followed by the closing of the
    pipe: it prints, in order, the messages that precede the first sentinel
    and reads no further; it ends normally and closes its endpoint exactly
    when there is a sentinel, and on [EOFError] otherwise.  Fed with what the
    filter has sent, it prints every message the filter forwarded, leaves
    nothing unread, and ends the way the filter ended: neither stage recovers
    from a pipe closed without a sentinel. *)
Theorem impresor_ante_cualquier_entrada (items : list (option (string * clase)))
    (entrada : list (option string)) :
  let p3 := imprimir_ips items in
  let p2 := filtrar_ips entrada in
  let p3' := imprimir_ips (enviados p2) in
  (procesadas p3 = length (hasta_centinela items)
   ∧ impresos p3 = hasta_centinela items
   ∧ i_sin_leer p3 = tras_centinela items
   ∧ i_fin p3 = (if con_centinela items then Ok () else Raise EOFError)
   ∧ i_recv_cerrado p3 = con_centinela items)
  ∧ (impresos p3' = supervivientes (hasta_centinela entrada)
     ∧ procesadas p3' = reenviadas p2
     ∧ i_sin_leer p3' = []
     ∧ i_fin p3' = fin p2
     ∧ i_recv_cerrado p3' = send_cerrado p2).
Proof.
  intros p3 p2 p3'. split.
  - subst p3.
    assert (imprimir_ips items
            = imprimir_ips ((Some <$> hasta_centinela items)
                            ++ (if con_centinela items
                                then None :: tras_centinela items else [])))
      as -> by (by rewrite <- entrada_partes).
    destruct (con_centinela items) eqn:Hc.
    + by rewrite imprimir_ips_centinela.
    + rewrite app_nil_r. unfold imprimir_ips. rewrite imprimir_bucle_agotada.
      simpl. by rewrite tras_sin_centinela.
  - subst p3' p2.
    assert (filtrar_ips entrada
            = filtrar_ips ((Some <$> hasta_centinela entrada)
                           ++ (if con_centinela entrada
                               then None :: tras_centinela entrada else [])))
      as -> by (by rewrite <- entrada_partes).
    destruct (con_centinela entrada) eqn:Hc.
    + rewrite filtrar_ips_centinela. simpl. by rewrite imprimir_ips_centinela.
    + rewrite app_nil_r. unfold filtrar_ips. rewrite filtrar_bucle_agotada. simpl.
      unfold imprimir_ips. rewrite imprimir_bucle_agotada. simpl. done.
Qed.

End EJ2_resto.

(** ** EJ2: the generated addresses *)

Section EJ2_generador.
Import EJ2 Car.

Lemma una_ip_campos (azar : nat → Z) (k : nat) :
  PyStr.split "." (una_ip azar k)
  = py_str <$> [azar (4 * k); azar (4 * k + 1); azar (4 * k + 2); azar (4 * k + 3)].
Proof.
  unfold una_ip.
  change (seq (4 * k) 4) with [4 * k; S (4 * k); S (S (4 * k)); S (S (S (4 * k)))].
  replace (4 * k + 1) with (S (4 * k)) by lia.
  replace (4 * k + 2) with (S (S (4 * k))) by lia.
  replace (4 * k + 3) with (S (S (S (4 * k)))) by lia.
  apply (split_join "."); [done|].
  repeat constructor; by apply py_str_sin.
Qed.

(** X3: The generator sends [n] addresses and then the sentinel; each address
    splits at its dots into exactly four fields, the decimal texts of the
    four octets drawn for it. *)
Theorem generar_ips_campos (n : nat) (azar : nat → Z) :
  let p1 := generar_ips n azar in
  g_enviados_n p1 = n
  ∧ length (g_enviados p1) = S n
  ∧ g_enviados p1 !! n = Some None
  ∧ ∀ k, k < n →
      ∃ ip, g_enviados p1 !! k = Some (Some ip)
            ∧ PyStr.split "." ip
              = py_str <$> [azar (4 * k); azar (4 * k + 1);
                            azar (4 * k + 2); azar (4 * k + 3)].
Proof.
  unfold generar_ips. simpl.
  rewrite length_app, !length_fmap, length_seq. simpl.
  split; [done|]. split; [lia|]. split.
  - rewrite lookup_app_r; rewrite !length_fmap, length_seq; [|done].
    by rewrite Nat.sub_diag.
  - intros k Hk. exists (una_ip azar k). split; [|apply una_ip_campos].
    rewrite lookup_app_l by (by rewrite !length_fmap, length_seq).
    rewrite !list_lookup_fmap, lookup_seq_lt by done. done.
Qed.

Context `{Ent : Enteros} {Ley : LeyEnteros Ent}.

Lemma clase_ip_una_ip (azar : nat → Z) (k : nat) (c : clase) :
  clase_ip (una_ip azar k) = Some c
  ↔ (fst (rango c) ≤ azar (4 * k)%nat ≤ snd (rango c))%Z.
Proof.
  apply clase_ip_de_entero.
  pose proof (split_head "." (una_ip azar k)) as Hh.
  rewrite una_ip_campos in Hh. injection Hh as <-. apply int_de_str.
Qed.

Lemma elem_of_supervivientes ips ip c :
  (ip, c) ∈ supervivientes ips
  ↔ ip ∈ ips ∧ clase_ip ip = Some c ∧ (c = A ∨ c = B ∨ c = C).
Proof.
  induction ips as [|x ips IH].
  - split; [by intros ?%elem_of_nil|by intros [?%elem_of_nil _]].
  - rewrite supervivientes_cons, elem_of_cons.
    destruct (clase_ip x) as [[]|] eqn:Hx; simpl; rewrite ?elem_of_cons, IH;
      split; intros H; destruct_or?; destruct_and?; simplify_eq; auto 6;
      destruct_or?; simplify_eq; auto 6.
Qed.

(** X4: The whole pipeline, when [int] reads back what [str] writes: an address
    is printed with class [c] exactly when it is one of the [n] generated
    addresses, [c] is A, B or C, and the first octet drawn for that address
    lies within the bounds of [c]. *)
Theorem tuberia_por_primer_octeto (n : nat) (azar : nat → Z) (ip : string) (c : clase) :
  (ip, c) ∈ impresos (tuberia n azar).2
  ↔ ∃ k, k < n ∧ ip = una_ip azar k
         ∧ (c = A ∨ c = B ∨ c = C)
         ∧ (fst (rango c) ≤ azar (4 * k)%nat ≤ snd (rango c))%Z.
Proof.
  pose proof (tuberia_completa n azar) as H.
  destruct (tuberia n azar) as [[p1 p2] p3]. destruct H as (_ & _ & _ & _ & Hi).
  cbn [snd]. rewrite Hi, elem_of_supervivientes, list_elem_of_fmap. split.
  - intros ((k & -> & Hk%elem_of_seq) & Hc & Habc).
    exists k. rewrite clase_ip_una_ip in Hc. split; [lia|done].
  - intros (k & Hk & -> & Habc & Hr). split; [|split; [|done]].
    + exists k. split; [done|]. apply elem_of_seq. lia.
    + by apply clase_ip_una_ip.
Qed.

End EJ2_generador.

(** ** More on [strip] *)

Section Recortes.
Import Car.

Lemma rstrip_app_blanco a c :
  PyStr.is_space c = true → PyStr.rstrip (a +:+ String c EmptyString) = PyStr.rstrip a.
Proof.
  intros Hc. induction a as [|d a IH].
  - change (PyStr.rstrip (String c EmptyString) = EmptyString). simpl. by rewrite Hc.
  - change (PyStr.rstrip (String d (a +:+ String c EmptyString))
            = PyStr.rstrip (String d a)).
    by rewrite !rstrip_cons, IH.
Qed.

Lemma lstrip_app_blanco a c :
  PyStr.is_space c = true →
  PyStr.lstrip (a +:+ String c EmptyString)
  = match PyStr.lstrip a with
    | EmptyString => EmptyString
    | limpia => limpia +:+ String c EmptyString
    end.
Proof.
  intros Hc. induction a as [|d a IH].
  - change (PyStr.lstrip (String c EmptyString) = EmptyString). simpl. by rewrite Hc.
  - change (PyStr.lstrip (String d (a +:+ String c EmptyString))
            = match PyStr.lstrip (String d a) with
              | EmptyString => EmptyString
              | limpia => limpia +:+ String c EmptyString
              end).
    simpl. destruct (PyStr.is_space d); [exact IH|done].
Qed.

(** A trailing blank, such as the line feed that ends a line, does not
    change what [strip] gives. *)
Lemma strip_app_blanco a c :
  PyStr.is_space c = true → PyStr.strip (a +:+ String c EmptyString) = PyStr.strip a.
Proof.
  intros Hc. unfold PyStr.strip. rewrite lstrip_app_blanco by done.
  destruct (PyStr.lstrip a) as [|d r]; [done|].
  by rewrite rstrip_app_blanco.
Qed.

Lemma lstrip_strip s : PyStr.lstrip (PyStr.strip s) = PyStr.strip s.
Proof. unfold PyStr.strip. apply lstrip_rstrip, lstrip_idem. Qed.

Lemma rstrip_strip s : PyStr.rstrip (PyStr.strip s) = PyStr.strip s.
Proof. unfold PyStr.strip. apply rstrip_idem. Qed.

Lemma lstrip_app a b :
  PyStr.lstrip a = a → a ≠ EmptyString → PyStr.lstrip (a +:+ b) = a +:+ b.
Proof.
  destruct a as [|c a]; [done|]. intros H _.
  change (PyStr.lstrip (String c (a +:+ b)) = String c (a +:+ b)).
  simpl in *. destruct (PyStr.is_space c); [|done].
  assert (String.length (PyStr.lstrip a) ≤ String.length a) as Hle.
  { clear H. induction a as [|d a IH]; simpl; [lia|].
    destruct (PyStr.is_space d); simpl; lia. }
  rewrite H in Hle. simpl in Hle. lia.
Qed.

Lemma rstrip_app a b :
  PyStr.rstrip b = b → b ≠ EmptyString → PyStr.rstrip (a +:+ b) = a +:+ b.
Proof.
  intros Hb Hne. induction a as [|c a IH]; [done|].
  change (PyStr.rstrip (String c (a +:+ b)) = String c (a +:+ b)).
  rewrite rstrip_cons, IH. destruct (a +:+ b) eqn:Hab; [|done].
  destruct a; [|done]. by destruct Hne.
Qed.

(** What [strip] gives of a line of a file holds no line break. *)
Lemma strip_linea_sin_saltos texto linea :
  linea ∈ lineas texto → todos no_salto (PyStr.strip linea) = true.
Proof.
  intros Hl. pose proof (lineas_forma texto) as Hf.
  rewrite Forall_forall in Hf. destruct (Hf _ Hl) as (cuerpo & Hc & [->| ->]).
  - by apply strip_todos.
  - unfold nl. rewrite strip_app_blanco by done. by apply strip_todos.
Qed.

End Recortes.

(** ** EJ4: the writer, and the two processes together *)

Section EJ4_resto.
Import EJ4 Car.

Lemma escribir_bucle_partes entrada : ∀ texto n,
  escribir_bucle entrada texto n
  = (texto +:+ EJ3.concatenar ((λ m, m +:+ nl) <$> hasta_centinela entrada),
     n + length (hasta_centinela entrada), tras_centinela entrada).
Proof.
  induction entrada as [|[m|] entrada IH]; intros texto n; simpl.
  - by rewrite append_nil_r, Nat.add_0_r.
  - rewrite IH. csimpl.
    change (EJ3.concatenar ((m +:+ nl) :: ?l)) with ((m +:+ nl) +:+ EJ3.concatenar l).
    rewrite !append_assoc. repeat f_equal. lia.
  - by rewrite append_nil_r, Nat.add_0_r.
Qed.

(** X5: The writer on any sequence of messages followed by the closing of the
    pipe.  When its output file can be opened it ends normally and closes its
    endpoint whether it meets the sentinel or the end of the stream; it reads
    up to the first sentinel and no further; the output file holds, whatever
    it held before, the messages read, one per line and in the order
    received; no other file changes; and the count it prints is the number of
    lines written.  When the output file cannot be opened it reads nothing
    from the pipe and changes no file; it still prints its closing line, with
    a count of zero, closes its endpoint and ends normally. *)
Theorem escritor_ante_cualquier_entrada (entrada : list (option string)) (anyo : Z)
    (fs : sistema) :
  let p2 := proceso_escribir_peliculas entrada anyo fs in
  let pelis := hasta_centinela entrada in
  e_recv_cerrado p2 = true
  ∧ e_fin p2 = Ok ()
  ∧ (fs !! nombre_salida anyo ≠ Some Ilegible →
     e_ficheros p2
     = <[nombre_salida anyo := Texto (EJ3.concatenar ((λ m, m +:+ nl) <$> pelis))]> fs
     ∧ escritas p2 = length pelis
     ∧ e_sin_leer p2 = tras_centinela entrada
     ∧ e_avisos p2 = [EscrituraTerminada (nombre_salida anyo) (length pelis)])
  ∧ (fs !! nombre_salida anyo = Some Ilegible →
     e_ficheros p2 = fs
     ∧ escritas p2 = 0
     ∧ e_sin_leer p2 = entrada
     ∧ last (e_avisos p2) = Some (EscrituraTerminada (nombre_salida anyo) 0)).
Proof.
  unfold proceso_escribir_peliculas, escribir.
  rewrite escribir_bucle_partes.
  destruct (fs !! nombre_salida anyo) as [[t|]|] eqn:Hn; simpl; split_and!; done.
Qed.

Context `{Ent : Enteros}.

Lemma py_int_solo_ValueError (s : string) :
  match py_int s with Raise e => e = ValueError | Ok _ => True end.
Proof. unfold py_int. by destruct (int_of_str s). Qed.

(** What a line contributes when it contributes: the stripped title, free
    of separators, a separator and the decimal text of the target year. *)
Lemma pelicula_de_forma anyo linea p :
  pelicula_de anyo linea = Ok (Some p) →
  ∃ titulo,
    p = titulo +:+ ";" +:+ py_str anyo
    ∧ PyStr.strip titulo = titulo
    ∧ todos (no_es ";") titulo = true
    ∧ ∀ q, todos q (PyStr.strip linea) = true → todos q titulo = true.
Proof.
  unfold pelicula_de. intros H.
  pose proof (split_partes ";" (PyStr.strip linea)) as Hp.
  assert (∀ q, todos q (PyStr.strip linea) = true →
               Forall (λ campo, todos q campo = true)
                 (PyStr.split ";" (PyStr.strip linea))) as Hq.
  { intros q. generalize (PyStr.strip linea). intros s.
    induction s as [|c s IH]; [by repeat constructor|]. simpl.
    intros [Hc Hs]%andb_prop. specialize (IH Hs).
    destruct (Ascii.eqb c ";"); [by constructor|].
    destruct (PyStr.split ";" s) as [|campo resto]; [by repeat constructor; simpl; rewrite Hc|].
    apply Forall_cons in IH as [Hcampo Hresto]. constructor; [|done].
    simpl. by rewrite Hc. }
  destruct (PyStr.strip linea) as [|c limpia] eqn:Hl; [done|].
  destruct (PyStr.split ";" (String c limpia)) as [|c0 [|c1 [|c2 r]]]; try done.
  cbn [fmap list_fmap] in H.
  pose proof (py_int_solo_ValueError (PyStr.strip c1)) as Hi.
  destruct (py_int (PyStr.strip c1)) as [a|e]; [|by subst e].
  destruct (a =? anyo)%Z eqn:Ha; [|done]. apply Z.eqb_eq in Ha as ->.
  injection H as <-. exists (PyStr.strip c0).
  apply Forall_cons in Hp as [Hp0 _].
  split; [done|]. split; [apply strip_idem|]. split; [by apply strip_todos|].
  intros q Hqs. apply Hq in Hqs. apply Forall_cons in Hqs as [H0 _].
  by apply strip_todos.
Qed.

Lemma filtrar_lineas_forma anyo texto ls : ∀ acc,
  (∀ l, l ∈ ls → l ∈ lineas texto) →
  Forall (normalizado anyo) acc →
  Forall (normalizado anyo) (filtrar_lineas anyo ls acc).1.
Proof.
  induction ls as [|l ls IH]; intros acc Hls Hacc; [done|].
  simpl. destruct (pelicula_de anyo l) as [[p|]|e] eqn:Hp; [| |done].
  - apply IH; [intros; apply Hls; by right|].
    apply Forall_app. split; [done|]. constructor; [|done].
    destruct (pelicula_de_forma _ _ _ Hp) as (titulo & -> & Hs & Hsep & Hq).
    exists titulo. repeat split; try done. apply Hq.
    apply (strip_linea_sin_saltos texto). apply Hls. by left.
  - apply IH; [intros; apply Hls; by right|done].
Qed.

(** X6: Every message of the source is [titulo;anyo] with the target year in
    its decimal text and a title that is stripped and holds neither a
    separator nor a line break; the sentinel follows the messages, and the
    count printed is their number.  This holds on every path through the
    process, the failure to read its file included. *)
Theorem mensajes_normalizados (ruta : string) (anyo : Z) (fs : sistema) :
  let p1 := proceso_filtrar_por_anyo ruta anyo fs in
  ∃ pelis : list string,
    enviados p1 = (Some <$> pelis) ++ [None]
    ∧ last (avisos p1) = Some (FiltradoTerminado (length pelis))
    ∧ send_cerrado p1 = true ∧ fin p1 = Ok ()
    ∧ Forall (normalizado anyo) pelis.
Proof.
  unfold proceso_filtrar_por_anyo.
  destruct (abrir fs ruta) as [texto|e] eqn:Ha.
  - pose proof (filtrar_lineas_forma anyo texto (lineas texto) []
                  (λ _ H, H) (Forall_nil_2 _)) as Hf.
    destruct (filtrar_lineas anyo (lineas texto) []) as [pelis r].
    exists pelis. simpl. rewrite last_snoc. done.
  - exists []. simpl. rewrite last_snoc. repeat split; done.
Qed.

(** *** The year typed in and [__main__] *)

Lemma validar_anyo_input_total actual s : ∃ r, validar_anyo_input actual s = Ok r.
Proof.
  unfold validar_anyo_input. pose proof (py_int_solo_ValueError s) as H.
  destruct (py_int s) as [a|e]; [|subst e; eauto].
  destruct (a >=? actual)%Z; [eauto|]. destruct (a <=? 0)%Z; eauto.
Qed.

Lemma validar_anyo_input_casos actual s anyo :
  validar_anyo_input actual s = Ok (Some anyo)
  ↔ int_of_str s = Some anyo ∧ (0 < anyo < actual)%Z.
Proof.
  unfold validar_anyo_input, py_int.
  destruct (int_of_str s) as [a|]; simpl.
  - destruct (a >=? actual)%Z eqn:H1; [split; [done|intros [[= ->] ?]; lia]|].
    destruct (a <=? 0)%Z eqn:H2; [split; [done|intros [[= ->] ?]; lia]|].
    split; [intros [= ->]; split; [done|lia]|by intros [[= ->] _]].
  - split; [done|by intros [? _]].
Qed.

(** X8: [validar_anyo_input] never raises, and accepts exactly the texts that
    [int] reads as a year greater than zero and less than the current one;
    the year it returns is the one read. *)
Theorem validar_anyo_exacto (actual : Z) (s : string) :
  (∃ r, validar_anyo_input actual s = Ok r)
  ∧ ∀ anyo, validar_anyo_input actual s = Ok (Some anyo)
            ↔ int_of_str s = Some anyo ∧ (0 < anyo < actual)%Z.
Proof.
  split; [apply validar_anyo_input_total|apply validar_anyo_input_casos].
Qed.



Context {Ley : LeyEnteros Ent}.

Lemma py_str_sin_saltos (z : Z) : todos no_salto (py_str z) = true.
Proof.
  eapply todos_impl; [|apply py_str_caracteres].
  intros c. unfold es_cifra_o_menos, no_salto, Lectura.es_digito.
  destruct c as [[] [] [] [] [] [] [] []]; done.
Qed.

Lemma normalizado_sin_saltos anyo p : normalizado anyo p → todos no_salto p = true.
Proof.
  intros (titulo & -> & _ & _ & Ht).
  change (";" +:+ py_str anyo) with (String ";" (py_str anyo)).
  rewrite todos_app, Ht. simpl. apply py_str_sin_saltos.
Qed.

(** A line of the output file gives its own message back. *)
Lemma pelicula_de_mensaje anyo p :
  normalizado anyo p → pelicula_de anyo (p +:+ nl) = Ok (Some p).
Proof.
  intros (titulo & -> & Hs & Hsep & _).
  change (";" +:+ py_str anyo) with (String ";" (py_str anyo)).
  set (m := titulo +:+ String ";" (py_str anyo)).
  assert (todos no_blanco (String ";" (py_str anyo)) = true) as Hcola.
  { simpl. apply py_str_sin_blancos. }
  assert (PyStr.strip m = m) as Hm.
  { unfold PyStr.strip.
    assert (PyStr.lstrip m = m) as ->.
    { assert (titulo = EmptyString ∨ titulo ≠ EmptyString) as [Ht|Ht]
        by (destruct titulo; auto).
      - unfold m. by rewrite Ht.
      - apply lstrip_app; [|done]. rewrite <- Hs. apply lstrip_strip. }
    apply rstrip_app; [by apply rstrip_no_blanco|done]. }
  unfold pelicula_de, nl. rewrite strip_app_blanco by done. rewrite Hm.
  assert (PyStr.split ";" m = [titulo; py_str anyo]) as Hsp.
  { unfold m. rewrite split_app by done. by rewrite split_sin_sep by by apply py_str_sin. }
  destruct m as [|c limpia] eqn:Hmm.
  { destruct titulo; discriminate Hmm. }
  rewrite Hsp. cbn [fmap list_fmap]. rewrite Hs, strip_py_str.
  unfold py_int. rewrite int_de_str. simpl. by rewrite Z.eqb_refl, <- Hmm.
Qed.

Lemma filtrar_lineas_mensajes anyo pelis : ∀ acc,
  Forall (normalizado anyo) pelis →
  filtrar_lineas anyo ((λ m, m +:+ nl) <$> pelis) acc = (acc ++ pelis, Ok ()).
Proof.
  induction pelis as [|p pelis IH]; intros acc Hp.
  - by rewrite app_nil_r.
  - apply Forall_cons in Hp as [Hp Hps]. csimpl.
    rewrite pelicula_de_mensaje by done. rewrite IH by done.
    by rewrite <- app_assoc.
Qed.

(** X7: Filtering is idempotent through the file, when [int] reads back what
    [str] writes: whatever the source has read (its file as [__main__] found
    it, or as a writer that shares it has left it), the writer consumes all
    it sent, and the source run on the writer's output file, for the same
    year, sends again exactly what the source first sent and reports no
    error. *)
Theorem filtrado_idempotente (ruta : string) (anyo : Z) (fs_leido fs : sistema) :
  fs !! nombre_salida anyo ≠ Some Ilegible →
  let p1 := proceso_filtrar_por_anyo ruta anyo fs_leido in
  let p2 := proceso_escribir_peliculas (enviados p1) anyo fs in
  let otra := proceso_filtrar_por_anyo (nombre_salida anyo) anyo (e_ficheros p2) in
  enviados otra = enviados p1
  ∧ avisos otra = [FiltradoTerminado (escritas p2)]
  ∧ e_sin_leer p2 = [].
Proof.
  intros Hfs p1 p2 otra.
  assert (∃ pelis, enviados p1 = (Some <$> pelis) ++ [None]
                   ∧ Forall (normalizado anyo) pelis) as (pelis & Hp1 & Hn).
  { unfold p1, proceso_filtrar_por_anyo.
    destruct (abrir fs_leido ruta) as [texto|e] eqn:Ha.
    - pose proof (filtrar_lineas_forma anyo texto (lineas texto) []
                    (λ _ H, H) (Forall_nil_2 _)) as Hf.
      destruct (filtrar_lineas anyo (lineas texto) []) as [pelis r].
      by exists pelis.
    - exists []. by split. }
  assert (e_ficheros p2
          = <[nombre_salida anyo
              := Texto (EJ3.concatenar ((λ m, m +:+ nl) <$> pelis))]> fs
          ∧ escritas p2 = length pelis ∧ e_sin_leer p2 = []) as (Hf2 & He & Hr).
  { unfold p2, proceso_escribir_peliculas, escribir.
    rewrite escribir_bucle_partes, Hp1, hasta_centinela_reales.
    assert (tras_centinela ((Some <$> pelis) ++ [None]) = []) as ->.
    { clear. by induction pelis. }
    destruct (fs !! nombre_salida anyo) as [[t|]|] eqn:Hn'; simpl; done. }
  split; [|split; [|done]].
  - unfold otra, proceso_filtrar_por_anyo, abrir.
    rewrite Hf2, lookup_insert_eq.
    rewrite lineas_terminadas, filtrar_lineas_mensajes by
      (done || (eapply Forall_impl; [exact Hn|apply normalizado_sin_saltos])).
    by rewrite Hp1.
  - unfold otra, proceso_filtrar_por_anyo, abrir.
    rewrite Hf2, lookup_insert_eq.
    rewrite lineas_terminadas, filtrar_lineas_mensajes by
      (done || (eapply Forall_impl; [exact Hn|apply normalizado_sin_saltos])).
    by rewrite He.
Qed.

End EJ4_resto.

(** ** EJ1: the counts and the report *)

Section Orden_de_cadenas.

Lemma leb_no_Gt (a b : string) : String.leb a b = true ↔ String.compare a b ≠ Gt.
Proof. unfold String.leb. by destruct (String.compare a b). Qed.

Lemma compare_trans_le (a : string) : ∀ b c,
  String.compare a b ≠ Gt → String.compare b c ≠ Gt → String.compare a c ≠ Gt.
Proof.
  induction a as [|x a IH]; intros [|y b] [|z c]; simpl; try done.
  unfold Ascii.compare.
  destruct (N.compare_spec (N_of_ascii x) (N_of_ascii y)) as [Hxy|Hxy|Hxy];
    destruct (N.compare_spec (N_of_ascii y) (N_of_ascii z)) as [Hyz|Hyz|Hyz];
    try done; intros Hab Hbc.
  - rewrite Hxy, Hyz, N.compare_refl. by apply (IH b c).
  - rewrite Hxy. by apply N.compare_lt_iff in Hyz as ->.
  - rewrite <- Hyz. by apply N.compare_lt_iff in Hxy as ->.
  - assert (N_of_ascii x < N_of_ascii z)%N as Hxz by lia.
    by apply N.compare_lt_iff in Hxz as ->.
Qed.

#[local] Instance str_le_trans : Transitive EJ1.str_le.
Proof.
  intros a b c. unfold EJ1.str_le. rewrite !leb_no_Gt. apply compare_trans_le.
Qed.

#[local] Instance str_le_antisym : AntiSymm eq EJ1.str_le.
Proof. intros a b. apply String.leb_antisym. Qed.

#[local] Instance str_le_total : Total EJ1.str_le.
Proof. intros a b. apply String.leb_total. Qed.

(** [sorted] has one answer: a list sorted by [<=] is determined by its
    elements. *)
Lemma merge_sort_unico (l ordenada : list string) :
  Sorted EJ1.str_le ordenada → l ≡ₚ ordenada →
  merge_sort EJ1.str_le l = ordenada.
Proof.
  intros Hs Hp. apply (Sorted_unique EJ1.str_le); [|done|].
  - apply Sorted_merge_sort, _.
  - by rewrite merge_sort_Permutation.
Qed.

End Orden_de_cadenas.

Section EJ1_resto.
Import EJ1 Car.
Context `{Fl : Flotantes}.

Lemma vocales_ordenadas : Sorted str_le vocales.
Proof. repeat constructor. Qed.

Lemma count_una_letra d s :
  PyStr.count (PyStr.lower s) (String d EmptyString)
  = cuenta (λ x, Ascii.eqb (PyStr.lower_char x) d) s.
Proof.
  unfold PyStr.count. induction s as [|x s IH]; [done|].
  cbn [PyStr.lower PyStr.count_from cuenta String.prefix String.length].
  change (1 - 1) with 0. rewrite IH. rewrite Ascii.eqb_sym.
  destruct (ascii_dec d (PyStr.lower_char x)) as [<-|Hne].
  - rewrite Ascii.eqb_refl. by destruct (PyStr.lower s).
  - apply Ascii.eqb_neq in Hne. by rewrite Hne.
Qed.

Lemma contar_por_lineas (c : ascii) (texto : string) :
  contar (String c EmptyString) texto
  = Z.of_nat (foldr (λ l n, cuenta (λ x, Ascii.eqb (PyStr.lower_char x)
                                            (PyStr.lower_char c)) l + n)
                0 (lineas texto)).
Proof.
  unfold contar.
  change (PyStr.lower (String c EmptyString))
    with (String (PyStr.lower_char c) EmptyString).
  set (p := λ x, Ascii.eqb (PyStr.lower_char x) (PyStr.lower_char c)).
  generalize (lineas texto). intros ls.
  assert (∀ z, foldl (λ conteo linea,
                        (conteo + Z.of_nat (PyStr.count (PyStr.lower linea)
                           (String (PyStr.lower_char c) EmptyString)))%Z) z ls
               = (z + Z.of_nat (foldr (λ l n, (cuenta p l + n)%nat) 0%nat ls))%Z)
    as H.
  { induction ls as [|l ls IH]; intros z; cbn [foldl foldr]; [lia|].
    rewrite IH, count_una_letra. fold p. lia. }
  by rewrite H.
Qed.

Lemma letra_no_es_salto (c : ascii) :
  no_salto (PyStr.lower_char c) = true →
  Ascii.eqb (PyStr.lower_char LF) (PyStr.lower_char c) = false
  ∧ Ascii.eqb (PyStr.lower_char CR) (PyStr.lower_char c) = false.
Proof.
  unfold no_salto. intros Hc.
  apply negb_true_iff, orb_false_iff in Hc as [H1 H2].
  rewrite Ascii.eqb_sym in H1. rewrite Ascii.eqb_sym in H2. done.
Qed.

(** X11: The count of a one-letter vowel is the number of characters of the text
    that become that letter when lowered: cutting the text into lines loses
    nothing and counts nothing twice, whatever the line terminators. *)
Theorem contar_es_recuento (c : ascii) (texto : string) :
  no_salto (PyStr.lower_char c) = true →
  contar (String c EmptyString) texto
  = Z.of_nat (cuenta (λ x, Ascii.eqb (PyStr.lower_char x) (PyStr.lower_char c)) texto).
Proof.
  intros Hc. destruct (letra_no_es_salto c Hc) as [HLF HCR].
  rewrite contar_por_lineas. f_equal. by apply cuenta_lineas.
Qed.

(** The report of [__main__] in closed form. *)
Lemma main_informe_forma (fs : sistema) (envs : string → entorno) :
  main fs envs
  = Ok ((λ v,
           match fs !! "texto.txt" with
           | Some Ilegible => ErrorLeyendo v None
           | Some (Texto t) =>
               Conteo v (contar v t) (Some (pid (envs v)))
                 (Some (f_sub (t1 (envs v)) (t0 (envs v))))
           | None =>
               Conteo v (contar v (repetir 2000 ejemplo)) (Some (pid (envs v)))
                 (Some (f_sub (t1 (envs v)) (t0 (envs v))))
           end) <$> vocales).
Proof.
  unfold main, crear_fichero_ejemplo, escribir.
  generalize (repetir 2000 ejemplo). intros muestra.
  set (ruta := "texto.txt").
  assert (∃ fs' f, match fs !! ruta with
                   | Some _ => Ok fs
                   | None => match fs !! ruta with
                             | Some Ilegible => Raise OSError
                             | _ => Ok (<[ruta := Texto muestra]> fs)
                             end
                   end = Ok fs'
                   ∧ fs' !! ruta = Some f
                   ∧ f = match fs !! ruta with
                         | Some f0 => f0
                         | None => Texto muestra
                         end) as (fs' & f & -> & Hf & Hf').
  { destruct (fs !! ruta) as [f0|] eqn:Hr.
    - by exists fs, f0.
    - exists (<[ruta := Texto muestra]> fs), (Texto muestra).
      by rewrite lookup_insert_eq. }
  cbn [mbind result_bind]. rewrite orquestar_resultado. cbn [mbind result_bind].
  unfold informe.
  set (a := λ v, anotado (canal_de v ruta (Termino fs' (envs v)))).
  assert (∀ v, a v = match f with
                     | Texto t => Info (contar v t) (Some (pid (envs v)))
                                    (Some (f_sub (t1 (envs v)) (t0 (envs v))))
                     | Ilegible => ausente
                     end) as Ha.
  { intros v. unfold a, anotado, canal_de, contar_vocal_pipe, abrir.
    rewrite Hf. by destruct f. }
  cbn [foldl vocales].
  fold (a "a") (a "e") (a "i") (a "o") (a "u").
  rewrite (merge_sort_unico _ vocales); [|apply vocales_ordenadas|].
  - unfold vocales. cbn [omap list_omap fmap list_fmap].
    repeat (rewrite ?lookup_insert_eq, ?lookup_insert_ne by done).
    cbn [mbind option_bind]. rewrite !Ha.
    assert (∀ v t, (contar v t =? -1)%Z = false) as Hno.
    { intros v t. pose proof (contar_no_negativo v t). lia. }
    destruct (fs !! ruta) as [[t|]|] eqn:Hr; subst f; cbn; rewrite ?Hno; done.
  - rewrite !dom_insert_L, dom_empty_L.
    replace ({["u"]} ∪ ({["o"]} ∪ ({["i"]} ∪ ({["e"]} ∪ ({["a"]} ∪ ∅)))))
      with (list_to_set (C := gset string) vocales) by (unfold vocales; set_solver).
    apply elements_list_to_set, vocales_NoDup.
Qed.

(** X12: The report of [__main__], whatever the file system: one line per
    vowel, in the order a, e, i, o, u.  The lines are error lines, all five,
    exactly when [texto.txt] exists but cannot be read; otherwise each line
    carries the count of its vowel in the text of [texto.txt], or in the
    sample that [__main__] writes when the file is absent, with the pid and
    the duration of its worker. *)
Theorem main_informe (fs : sistema) (envs : string → entorno) :
  ∃ informe_final,
    main fs envs = Ok informe_final
    ∧ vocal_de_linea <$> informe_final = vocales
    ∧ (fs !! "texto.txt" = Some Ilegible
       → informe_final = (λ v, ErrorLeyendo v None) <$> vocales)
    ∧ (fs !! "texto.txt" ≠ Some Ilegible
       → ∃ texto,
           texto = match fs !! "texto.txt" with
                   | Some (Texto t) => t
                   | _ => repetir 2000 ejemplo
                   end
           ∧ informe_final
             = (λ v, Conteo v (contar v texto) (Some (pid (envs v)))
                       (Some (f_sub (t1 (envs v)) (t0 (envs v))))) <$> vocales).
Proof.
  eexists. split; [apply main_informe_forma|].
  generalize (repetir 2000 ejemplo). intros muestra.
  destruct (fs !! "texto.txt") as [[t|]|]; (split; [done|]); split; try done.
  - intros _. by exists t.
  - intros _. by exists muestra.
Qed.

End EJ1_resto.

(** ** EJ3A: generation, and one averaging worker on its own *)

Section EJ3A_resto.
Import EJ3 EJ3A Car.
Context `{Fl : Flotantes}.

Lemma generar_notas_casos ruta n azar fs :
  generar_notas ruta n azar fs
  = match fs !! ruta with
    | Some Ilegible => Raise OSError
    | _ => Ok (<[ruta := Texto (EJ3B.texto_notas n azar)]> fs)
    end.
Proof. done. Qed.

(** The marks written by a generator are read back one per line. *)
Lemma notas_de_las_generadas n (azar : nat → float) :
  Forall nota_legible (azar <$> seq 0 n) →
  omap nota_de (lineas (EJ3B.texto_notas n azar)) = azar <$> seq 0 n.
Proof.
  unfold EJ3B.texto_notas. generalize (seq 0 n). intros ks Hks.
  rewrite (list_fmap_compose (λ k, f_repr (azar k)) (λ l, l +:+ nl)).
  rewrite lineas_terminadas.
  - induction ks as [|k ks IH]; [done|]. csimpl in *.
    apply Forall_cons in Hks as [[_ Hk] Hks]. by rewrite Hk, IH.
  - induction ks as [|k ks IH]; [constructor|]. csimpl in *.
    apply Forall_cons in Hks as [[Hk _] Hks]. constructor; auto.
Qed.

(** X14: Generation followed by averaging: when the file can be written and
    every mark drawn is one whose written line reads back as itself, the
    mean the averaging worker computes from the generated file is the sum of
    the marks drawn divided by their number, and 0.0 when no mark is asked
    for. *)
Theorem media_de_las_generadas (ruta : string) (n : nat) (azar : nat → float)
    (fs : sistema) :
  fs !! ruta ≠ Some Ilegible →
  Forall nota_legible (azar <$> seq 0 n) →
  ∃ fs',
    generar_notas ruta n azar fs = Ok fs'
    ∧ (∀ r, r ≠ ruta → fs' !! r = fs !! r)
    ∧ leer_media fs' ruta
      = Ok (Some (match n with
                  | O => f_zero
                  | S _ => f_div (f_sum (azar <$> seq 0 n)) n
                  end)).
Proof.
  intros Hfs Hleg. rewrite generar_notas_casos.
  exists (<[ruta := Texto (EJ3B.texto_notas n azar)]> fs). split.
  { by destruct (fs !! ruta) as [[?|]|]. }
  split; [intros r Hr; by rewrite lookup_insert_ne|].
  pose proof (leer_media_casos (<[ruta := Texto (EJ3B.texto_notas n azar)]> fs) ruta)
    as Hm.
  rewrite lookup_insert_eq in Hm. rewrite Hm, notas_de_las_generadas by done.
  destruct n as [|n]; [done|].
  assert (length (azar <$> seq 0 (S n)) = S n) as Hlen
    by (by rewrite length_fmap, length_seq).
  destruct (azar <$> seq 0 (S n)) as [|y l]; [done|]. cbv zeta. by rewrite Hlen.
Qed.

(** One step of the generation stage. *)
Lemma etapa_generacion_cons i orden azar fs :
  etapa_generacion (i :: orden) azar fs
  = etapa_generacion orden azar
      match fs !! ruta_alumno i with
      | Some Ilegible => fs
      | _ => <[ruta_alumno i := Texto (EJ3B.texto_notas 6 (azar i))]> fs
      end.
Proof.
  unfold etapa_generacion. cbn [foldl]. rewrite generar_notas_casos.
  by destruct (fs !! ruta_alumno i) as [[?|]|].
Qed.

Lemma etapa_generacion_ajenos orden azar : ∀ fs r,
  (∀ i, i ∈ orden → r ≠ ruta_alumno i) →
  etapa_generacion orden azar fs !! r = fs !! r.
Proof.
  induction orden as [|i orden IH]; intros fs r Hr; [done|].
  rewrite etapa_generacion_cons, IH by (intros; apply Hr; by right).
  assert (r ≠ ruta_alumno i) as Hne by (apply Hr; by left).
  destruct (fs !! ruta_alumno i) as [[?|]|]; by rewrite ?lookup_insert_ne.
Qed.

Lemma etapa_generacion_ilegible orden azar : ∀ fs r,
  fs !! r = Some Ilegible → etapa_generacion orden azar fs !! r = Some Ilegible.
Proof.
  induction orden as [|i orden IH]; intros fs r Hr; [done|].
  rewrite etapa_generacion_cons. apply IH.
  destruct (decide (r = ruta_alumno i)) as [->|Hne].
  - by rewrite Hr.
  - destruct (fs !! ruta_alumno i) as [[?|]|]; by rewrite ?lookup_insert_ne.
Qed.

Lemma etapa_generacion_propios orden azar : ∀ fs i,
  i ∈ orden → fs !! ruta_alumno i ≠ Some Ilegible →
  etapa_generacion orden azar fs !! ruta_alumno i
  = Some (Texto (EJ3B.texto_notas 6 (azar i))).
Proof.
  induction orden as [|j orden IH]; intros fs i Hi Hfs.
  { by apply elem_of_nil in Hi. }
  rewrite etapa_generacion_cons.
  destruct (decide (i ∈ orden)) as [Hin|Hnin].
  - apply IH; [done|].
    destruct (decide (i = j)) as [->|Hne].
    + destruct (fs !! ruta_alumno j) as [[?|]|]; by rewrite ?lookup_insert_eq.
    + assert (ruta_alumno j ≠ ruta_alumno i) as Hr.
      { intros H%ruta_alumno_inj. by destruct Hne. }
      destruct (fs !! ruta_alumno j) as [[?|]|]; by rewrite ?lookup_insert_ne.
  - apply elem_of_cons in Hi as [->|Hi]; [|done].
    rewrite etapa_generacion_ajenos.
    + destruct (fs !! ruta_alumno j) as [[?|]|]; by rewrite ?lookup_insert_eq.
    + intros k Hk H%ruta_alumno_inj. by subst.
Qed.

(** X15: The generation stage of [__main__] leaves the same files in whatever
    order the generators write: the file of every student whose generator
    runs holds the six marks drawn for that student, unless it cannot be
    written, in which case it stays as it was; no other file changes. *)
Theorem generacion_sin_carreras (orden orden' : list nat) (azar : nat → nat → float)
    (fs : sistema) :
  orden ≡ₚ orden' →
  let fs' := etapa_generacion orden azar fs in
  etapa_generacion orden' azar fs = fs'
  ∧ (∀ i, i ∈ orden → fs !! ruta_alumno i ≠ Some Ilegible →
       fs' !! ruta_alumno i = Some (Texto (EJ3B.texto_notas 6 (azar i))))
  ∧ (∀ r, fs !! r = Some Ilegible → fs' !! r = Some Ilegible)
  ∧ (∀ r, (∀ i, i ∈ orden → r ≠ ruta_alumno i) → fs' !! r = fs !! r).
Proof.
  intros Hp fs'. subst fs'.
  split; [|split; [apply etapa_generacion_propios|
           split; [apply etapa_generacion_ilegible|apply etapa_generacion_ajenos]]].
  apply map_eq. intros r.
  assert (fs !! r = Some Ilegible ∨ fs !! r ≠ Some Ilegible) as [Hil|Hil]
    by (destruct (fs !! r) as [[?|]|]; auto).
  { by rewrite !etapa_generacion_ilegible. }
  destruct (decide (Exists (λ i, r = ruta_alumno i) orden)) as [He|He].
  - apply Exists_exists in He as (i & Hi & ->).
    rewrite !etapa_generacion_propios; try done. by rewrite <- Hp.
  - rewrite !etapa_generacion_ajenos; [done| |].
    + intros i Hi Hr. apply He, Exists_exists. eauto.
    + intros i Hi Hr. apply He, Exists_exists. rewrite <- Hp in Hi. eauto.
Qed.

(** X16: The generation stage hands the averaging stage what it needs: when no
    student's file is unwritable, every averaging task finds its input and
    has a line to append; and when the marks drawn read back as themselves,
    that line carries the mean of the six marks drawn for the student. *)
Theorem generacion_deja_entradas_legibles (n : nat) (orden : list nat)
    (azar : nat → nat → float) (fs : sistema) :
  orden ≡ₚ seq 1 n →
  (∀ i, 1 ≤ i ≤ n → fs !! ruta_alumno i ≠ Some Ilegible) →
  let fs' := etapa_generacion orden azar fs in
  entradas_legibles fs' (tareas_med n)
  ∧ ((∀ i, 1 ≤ i ≤ n → Forall nota_legible (azar i <$> seq 0 6)) →
     ∀ i, i < n →
       linea_de fs' (tareas_med n) i
       = Some (linea_media (f_div (f_sum (azar (S i) <$> seq 0 6)) 6)
                 (nombre_alumno (S i)))).
Proof.
  intros Hp Hfs fs'.
  assert (∀ i, i < n →
            fs' !! ruta_alumno (S i) = Some (Texto (EJ3B.texto_notas 6 (azar (S i)))))
    as Hgen.
  { intros i Hi. apply etapa_generacion_propios; [|apply Hfs; lia].
    rewrite Hp. apply elem_of_seq. lia. }
  split.
  - intros i Hi. rewrite length_tareas_med in Hi. unfold linea_de.
    rewrite tareas_med_lookup by done.
    destruct (leer_media_texto _ _ _ (Hgen i Hi)) as [m ->]. by eexists.
  - intros Hleg i Hi. unfold linea_de. rewrite tareas_med_lookup by done.
    pose proof (leer_media_casos fs' (ruta_alumno (S i))) as Hm.
    rewrite (Hgen i Hi) in Hm. rewrite Hm, notas_de_las_generadas by (apply Hleg; lia).
    done.
Qed.

(** X17: One averaging worker run on its own only ever appends: a missing input
    leaves every file as it was; otherwise [medias.txt] keeps what it held
    and gains exactly the line of this student, and no other file changes. *)
Theorem apendar_solo_anade (ruta nombre ruta_medias : string) (fs fs' : sistema)
    (imp : impreso) :
  calcular_media_y_apendar ruta nombre ruta_medias fs = Ok (fs', imp) →
  (∀ r, r ≠ ruta_medias → fs' !! r = fs !! r)
  ∧ ((fs !! ruta = None ∧ fs' = fs ∧ imp = ErrorNoEncontrado ruta)
     ∨ ∃ media,
         leer_media fs ruta = Ok (Some media)
         ∧ imp = MediaCalculada media nombre
         ∧ fs' !! ruta_medias
           = Some (Texto (match fs !! ruta_medias with
                          | Some (Texto previo) => previo
                          | _ => EmptyString
                          end +:+ linea_media media nombre))).
Proof.
  unfold calcular_media_y_apendar. pose proof (leer_media_casos fs ruta) as Hm.
  destruct (fs !! ruta) as [[t|]|] eqn:Hr; rewrite Hm; simpl; [|done|].
  - unfold apendar. destruct (fs !! ruta_medias) as [[previo|]|] eqn:Hmed;
      simpl; [|done|]; intros [= <- <-].
    + split; [intros r Hne; by rewrite lookup_insert_ne|].
      right. eexists. split; [done|]. split; [done|]. by rewrite lookup_insert_eq.
    + split; [intros r Hne; by rewrite lookup_insert_ne|].
      right. eexists. split; [done|]. split; [done|]. by rewrite lookup_insert_eq.
  - intros [= <- <-]. split; [done|]. by left.
Qed.

End EJ3A_resto.

(** ** EJ3B: a failed batch, and the maximum of the means written *)

Section Pool_resto.
Import EJ3B.
Context `{Fl : Flotantes} {T R : Type}.
Variable work : T → entorno → (nat → float) → sistema → sistema * result R.
Variable tareas : list T.

Lemma pool_bucle_quedan plan : ∀ fs huecos error quedan,
  (∀ e, e ∈ plan → indice e < length tareas) →
  (pool_bucle work tareas plan fs huecos error quedan).2 = quedan - length plan.
Proof.
  induction plan as [|e plan IH]; intros fs huecos error quedan Hlt; simpl; [lia|].
  destruct (lookup_lt_is_Some_2 tareas (indice e)) as [t Ht]; [apply Hlt; by left|].
  rewrite Ht. destruct (work t (e_env e) (e_azar e) fs) as [fs1 [v|x]];
    rewrite IH by (intros; apply Hlt; by right); lia.
Qed.

(** Every result the pool returns is the result of a run of one of its
    tasks. *)
Variable P : R → Prop.
Hypothesis P_work : ∀ e t fs fs' v,
  tareas !! indice e = Some t →
  work t (e_env e) (e_azar e) fs = (fs', Ok v) → P v.

Lemma pool_bucle_resultados plan : ∀ fs huecos error quedan,
  Forall (λ h, ∀ v, h = Some v → P v) huecos →
  Forall (λ h, ∀ v, h = Some v → P v)
    (pool_bucle work tareas plan fs huecos error quedan).1.1.2.
Proof.
  induction plan as [|e plan IH]; intros fs huecos error quedan Hh; simpl; [done|].
  destruct (tareas !! indice e) as [t|] eqn:Ht; [|by apply IH].
  destruct (work t (e_env e) (e_azar e) fs) as [fs1 [v|x]] eqn:Hw; apply IH; [|done].
  apply Forall_insert; [done|]. intros v' [= <-]. by eapply P_work.
Qed.

Lemma pool_map_resultados plan fs fs' rs :
  pool_map work tareas plan fs = Some (fs', Ok rs) → Forall P rs.
Proof.
  unfold pool_map.
  pose proof (pool_bucle_resultados plan fs (replicate (length tareas) None) None
                (length tareas)) as Hh.
  destruct (pool_bucle work tareas plan fs (replicate (length tareas) None) None
              (length tareas)) as [[[fs1 huecos] error] quedan].
  simpl in Hh. destruct quedan; [|done]. destruct error; [done|].
  destruct (mapM id huecos) as [rs'|] eqn:Hm; [|done]. simpl. intros [= <- <-].
  apply mapM_Some in Hm.
  assert (Forall (λ h, ∀ v, h = Some v → P v) huecos) as HF.
  { apply Hh, Forall_replicate. done. }
  clear Hh. induction Hm as [|h v huecos rs' Hhv _ IH]; [constructor|].
  apply Forall_cons in HF as [Hv HF]. constructor; [by apply Hv|by apply IH].
Qed.

(** A task whose run raises makes the whole batch raise. *)
Variable Inv : sistema → Prop.
Variable E : exn → Prop.
Hypothesis Inv_paso : ∀ e t fs fs' r,
  tareas !! indice e = Some t → Inv fs →
  work t (e_env e) (e_azar e) fs = (fs', r) → Inv fs'.
Hypothesis E_paso : ∀ e t fs fs' x,
  tareas !! indice e = Some t → Inv fs →
  work t (e_env e) (e_azar e) fs = (fs', Raise x) → E x.

Lemma pool_bucle_fallo plan : ∀ fs huecos error quedan,
  Inv fs → (∀ x, error = Some x → E x) →
  (is_Some error
   ∨ ∃ e t, e ∈ plan ∧ tareas !! indice e = Some t
            ∧ ∀ fs0, Inv fs0 →
                ∃ fs1 x, work t (e_env e) (e_azar e) fs0 = (fs1, Raise x)) →
  ∃ x, (pool_bucle work tareas plan fs huecos error quedan).1.2 = Some x ∧ E x.
Proof.
  induction plan as [|e0 plan IH]; intros fs huecos error quedan HI HE Hf; simpl.
  { destruct Hf as [[x ->]|(e & t & He & _)]; [eauto|by apply elem_of_nil in He]. }
  destruct (tareas !! indice e0) as [t0|] eqn:Ht0.
  - destruct (work t0 (e_env e0) (e_azar e0) fs) as [fs1 [v|x]] eqn:Hw.
    + apply IH; [by eapply Inv_paso|done|].
      destruct Hf as [?|(e & t & [->|He]%elem_of_cons & Ht & Hr)]; [by left| |].
      * rewrite Ht0 in Ht. injection Ht as <-.
        destruct (Hr fs HI) as (fs2 & x & Hw'). congruence.
      * right. eauto.
    + apply IH; [by eapply Inv_paso| |by left; eexists].
      intros y [= <-]. destruct error as [y|]; simpl; [by apply HE|].
      by eapply E_paso.
  - apply IH; [done|done|].
    destruct Hf as [?|(e & t & [->|He]%elem_of_cons & Ht & Hr)]; [by left| |].
    + congruence.
    + right. eauto.
Qed.

Lemma pool_map_fallo plan fs :
  plan_valido tareas plan → Inv fs →
  (∃ e t, e ∈ plan ∧ tareas !! indice e = Some t
          ∧ ∀ fs0, Inv fs0 →
              ∃ fs1 x, work t (e_env e) (e_azar e) fs0 = (fs1, Raise x)) →
  ∃ fs' x, pool_map work tareas plan fs = Some (fs', Raise x) ∧ E x.
Proof.
  intros Hval HI Hf. unfold pool_map.
  assert (∀ e, e ∈ plan → indice e < length tareas) as Hlt.
  { intros e He. apply (list_elem_of_fmap_2 indice) in He.
    unfold plan_valido in Hval. rewrite Hval, elem_of_seq in He. lia. }
  assert (length plan = length tareas) as Hlen.
  { unfold plan_valido in Hval.
    rewrite <- (length_fmap indice plan), Hval. apply length_seq. }
  pose proof (pool_bucle_quedan plan fs (replicate (length tareas) None) None
                (length tareas) Hlt) as Hq.
  destruct (pool_bucle_fallo plan fs (replicate (length tareas) None) None
              (length tareas) HI) as (x & Hx & HEx); [done|by right|].
  destruct (pool_bucle work tareas plan fs (replicate (length tareas) None) None
              (length tareas)) as [[[fs1 huecos] error] quedan].
  simpl in Hq, Hx. subst error. rewrite Hq, Hlen, Nat.sub_diag. eauto.
Qed.

End Pool_resto.

Section EJ3B_resto.
Import EJ3 EJ3B Car.
Context `{Fl : Flotantes}.

(** X19: When the file of one of the students cannot be written, [__main__]
    ends on the [OSError] that the generation batch raises instead of
    returning, whatever the order in which the runs complete; the averaging
    batch and the max-finder are not reached. *)
Theorem main_sin_permiso (n n_notas : nat) (plan_gen plan_med : list ejecucion)
    (fs : sistema) (i : nat) :
  plan_valido (tareas_gen n n_notas) plan_gen →
  1 ≤ i ≤ n →
  fs !! ruta_alumno i = Some Ilegible →
  main n n_notas plan_gen plan_med fs = Some (Raise OSError).
Proof.
  intros Hval Hi Hfs. unfold main.
  set (Inv := λ fs0 : sistema, fs0 !! ruta_alumno i = Some Ilegible).
  assert (∀ e t fs0 fs1 r,
            tareas_gen n n_notas !! indice e = Some t → Inv fs0 →
            generar_notas_pool t (e_env e) (e_azar e) fs0 = (fs1, r) → Inv fs1)
    as Hpaso.
  { intros e [ruta k] fs0 fs1 r _ HI. unfold generar_notas_pool, escribir, Inv in *.
    destruct (fs0 !! ruta) as [[?|]|] eqn:Hr; intros [= <- <-]; try done;
      rewrite lookup_insert_ne; try done; intros ->; congruence. }
  assert (∀ e t fs0 fs1 x,
            tareas_gen n n_notas !! indice e = Some t → Inv fs0 →
            generar_notas_pool t (e_env e) (e_azar e) fs0 = (fs1, Raise x) →
            x = OSError) as Hexn.
  { intros e [ruta k] fs0 fs1 x _ _. unfold generar_notas_pool, escribir.
    by destruct (fs0 !! ruta) as [[?|]|]; intros [= <- <-]. }
  destruct (pool_map_fallo generar_notas_pool (tareas_gen n n_notas) Inv
              (λ x, x = OSError) Hpaso Hexn plan_gen (delete "medias.txt" fs))
    as (fs' & x & -> & ->); [done| | |done].
  - unfold Inv. rewrite lookup_delete_ne; [done|].
    intros H. by eapply ruta_alumno_no_medias.
  - destruct (plan_valido_indices _ _ (i - 1) Hval) as (e & He & Hie).
    { rewrite length_tareas_gen. lia. }
    exists e, (ruta_alumno i, n_notas). split; [done|]. split.
    + rewrite Hie, tareas_gen_lookup by lia. do 3 f_equal. lia.
    + intros fs0 HI. unfold generar_notas_pool, escribir. rewrite HI. eauto.
Qed.

(** *** The lines of [medias.txt] as the max-finder reads them *)

Lemma token_app a c b :
  todos no_blanco a = true → PyStr.is_space c = true →
  PyStr.token (a +:+ String c b) = (a, String c b).
Proof.
  intros Ha Hc. induction a as [|d a IH].
  - change (PyStr.token (String c b) = (EmptyString, String c b)).
    simpl. by rewrite Hc.
  - simpl in Ha. apply andb_prop in Ha as [Hd Ha].
    change (PyStr.token (String d (a +:+ String c b)) = (String d a, String c b)).
    unfold no_blanco in Hd. apply negb_true_iff in Hd.
    cbn [PyStr.token]. by rewrite Hd, (IH Ha).
Qed.

Lemma no_blanco_no_salto s : todos no_blanco s = true → todos no_salto s = true.
Proof.
  apply todos_impl. intros c. unfold no_blanco, no_salto, PyStr.is_space.
  destruct c as [[] [] [] [] [] [] [] []]; done.
Qed.

Lemma nombre_alumno_sin_blancos i :
  todos no_blanco (nombre_alumno i) = true ∧ nombre_alumno i ≠ EmptyString.
Proof.
  unfold nombre_alumno. split; [|done].
  rewrite todos_app, py_str_sin_blancos. done.
Qed.

Lemma linea_media_cuerpo m nombre :
  linea_media m nombre = (f_fmt2 m +:+ " " +:+ nombre) +:+ nl.
Proof. unfold linea_media. by rewrite !append_assoc. Qed.

Lemma linea_media_bien_formada m x nombre :
  media_legible m x →
  todos no_blanco nombre = true → nombre ≠ EmptyString →
  bien_formada (linea_media m nombre) x nombre.
Proof.
  intros (Hb & Hne & Hx) Hn Hnne. exists (f_fmt2 m). split; [|done].
  rewrite linea_media_cuerpo. unfold nl. rewrite strip_app_blanco by done.
  assert (PyStr.strip (f_fmt2 m +:+ " " +:+ nombre) = f_fmt2 m +:+ " " +:+ nombre)
    as ->.
  { unfold PyStr.strip. rewrite lstrip_app by (done || by apply lstrip_no_blanco).
    rewrite <- append_assoc. apply rstrip_app; [by apply rstrip_no_blanco|done]. }
  unfold PyStr.split_max1.
  rewrite lstrip_app by (done || by apply lstrip_no_blanco).
  change (" " +:+ nombre) with (String " " nombre).
  destruct (f_fmt2 m +:+ String " " nombre) as [|c0 s0] eqn:Hs.
  { destruct (f_fmt2 m); [by destruct Hne|discriminate Hs]. }
  rewrite <- Hs, token_app by done.
  cbn [PyStr.lstrip]. change (PyStr.is_space " ") with true. cbv iota.
  rewrite lstrip_no_blanco by done. by destruct nombre.
Qed.

Lemma lineas_texto_medias (rmed : list resultado_med) :
  Forall (λ r, (∃ x, media_legible (r_media r) x)
               ∧ todos no_blanco (r_nombre r) = true) rmed →
  lineas (texto_medias rmed)
  = (λ r, linea_media (r_media r) (r_nombre r)) <$> rmed.
Proof.
  intros HF.
  set (cuerpo := λ r : resultado_med, f_fmt2 (r_media r) +:+ " " +:+ r_nombre r).
  assert ((λ r, linea_media (r_media r) (r_nombre r)) <$> rmed
          = (λ l, l +:+ nl) <$> (cuerpo <$> rmed)) as Hc.
  { rewrite <- list_fmap_compose. apply list_fmap_ext.
    intros i r _. apply linea_media_cuerpo. }
  unfold texto_medias. rewrite Hc. apply lineas_terminadas.
  apply Forall_fmap. eapply Forall_impl; [exact HF|].
  intros r [(x & Hb & _ & _) Hn]. unfold cuerpo. simpl.
  change (" " +:+ r_nombre r) with (String " " (r_nombre r)).
  rewrite todos_app. simpl.
  by rewrite !no_blanco_no_salto.
Qed.

Context `{!OrdenFlotantes Fl}.

(** X20: The last stage of [__main__], from the first two: when the two-decimal
    text of every mean returned by the averaging batch is one that [float]
    reads, the max-finder reports one of the students of the batch, with what
    [float] reads from the text of that student's mean, and no student's mean
    reads as a greater number; it reports that no means were found only when
    the batch is empty. *)
Theorem maximo_de_las_medias (n n_notas : nat) (plan_gen plan_med : list ejecucion)
    (fs : sistema) (f : final) :
  main n n_notas plan_gen plan_med fs = Some (Ok f) →
  Forall (λ r, ∃ x, media_legible (r_media r) x) (resultados_med f) →
  (resultados_med f = [] ∧ maximo f = SinMedias "medias.txt")
  ∨ ∃ r nota,
      r ∈ resultados_med f
      ∧ media_legible (r_media r) nota
      ∧ maximo f = NotaMaxima nota (r_nombre r)
      ∧ ∀ r' x, r' ∈ resultados_med f → media_legible (r_media r') x →
                f_gt x nota = false.
Proof.
  unfold main. intros Hmain Hleg.
  destruct (pool_map generar_notas_pool (tareas_gen n n_notas) plan_gen
              (delete "medias.txt" fs)) as [[fs1 [rgen|e]]|]; simpl in Hmain;
    [|done..].
  destruct (pool_map calcular_media_pool (tareas_med n) plan_med fs1)
    as [[fs2 [rmed|e]]|] eqn:Hmed; simpl in Hmain; [|done..].
  assert (Forall (λ r, todos no_blanco (r_nombre r) = true
                       ∧ r_nombre r ≠ EmptyString) rmed) as Hnom.
  { apply (pool_map_resultados calcular_media_pool (tareas_med n)
             (λ r, todos no_blanco (r_nombre r) = true ∧ r_nombre r ≠ EmptyString))
      in Hmed; [done|].
    intros e t fs0 fs' v [Hi ->]%tareas_med_inv.
    rewrite calcular_media_pool_casos.
    destruct (leer_media fs0 (ruta_alumno (S (indice e)))) as [[m|]|];
      intros [= _ <-]; apply nombre_alumno_sin_blancos. }
  destruct (escribir fs2 "medias.txt" (texto_medias rmed)) as [fs3|e] eqn:He;
    simpl in Hmain; [|done].
  assert (fs3 !! "medias.txt" = Some (Texto (texto_medias rmed))) as Hf3.
  { unfold escribir in He. destruct (fs2 !! "medias.txt") as [[?|]|];
      simplify_eq; apply lookup_insert_eq. }
  destruct (proceso_maximo_medias fs3 "medias.txt") as [mx|e] eqn:Hmx;
    simpl in Hmain; [|done].
  injection Hmain as <-. simpl in *.
  unfold proceso_maximo_medias, abrir in Hmx. rewrite Hf3 in Hmx.
  rewrite lineas_texto_medias in Hmx.
  2:{ apply Forall_forall. intros r Hr. rewrite Forall_forall in Hleg, Hnom.
      split; [by apply Hleg|by apply Hnom]. }
  set (ls := (λ r, linea_media (r_media r) (r_nombre r)) <$> rmed) in *.
  assert (mejor_de [] None) as Hini.
  { simpl. intros l m a Hl. by apply elem_of_nil in Hl. }
  destruct (maximo_bucle_mejor ls [] None Hini) as (mejor & Hb & Hmejor).
  rewrite Hb in Hmx. simpl in Hmx, Hmejor.
  assert (∀ r x, r ∈ rmed → media_legible (r_media r) x →
                 linea_media (r_media r) (r_nombre r) ∈ ls
                 ∧ bien_formada (linea_media (r_media r) (r_nombre r)) x (r_nombre r))
    as Hbf.
  { intros r x Hr Hx. split; [unfold ls; apply list_elem_of_fmap; eauto|].
    rewrite Forall_forall in Hnom. destruct (Hnom r Hr).
    by apply linea_media_bien_formada. }
  destruct mejor as [[m am]|]; injection Hmx as <-.
  - right. destruct Hmejor as [(l & Hl & Hlbf) Hmax].
    apply list_elem_of_fmap in Hl as (r & -> & Hr).
    rewrite Forall_forall in Hleg. destruct (Hleg r Hr) as [x Hx].
    destruct (Hbf r x Hr Hx) as [_ Hrbf].
    destruct (bien_formada_funcional _ _ _ _ _ Hlbf Hrbf) as [-> ->].
    exists r, x. split; [done|]. split; [done|]. split; [done|].
    intros r' x' Hr' Hx'. destruct (Hbf r' x' Hr' Hx') as [Hin Hbf'].
    by eapply Hmax.
  - left. split; [|done]. destruct rmed as [|r rmed']; [done|].
    rewrite Forall_forall in Hleg. destruct (Hleg r) as [x Hx]; [by left|].
    destruct (Hbf r x) as [Hin Hrbf]; [by left|done|].
    by destruct (Hmejor _ _ _ Hin Hrbf).
Qed.

End EJ3B_resto.

(** ** EJ1: the sample file *)

Section EJ1_ejemplo.
Import EJ1 Car.
Context `{Fl : Flotantes}.

Lemma cuenta_repetir p n s : cuenta p (repetir n s) = n * cuenta p s.
Proof.
  induction n as [|n IH]; [done|].
  change (repetir (S n) s) with (s +:+ repetir n s). rewrite cuenta_app, IH. lia.
Qed.

(** X13: A worker that reads the sample file written with [n] repetitions sends
    [n] times the count of its letter in the sample text. *)
Theorem conteo_del_ejemplo (c : ascii) (ruta : string) (n : nat) (env : entorno)
    (fs : sistema) :
  no_salto (PyStr.lower_char c) = true →
  fs !! ruta ≠ Some Ilegible →
  ∃ fs',
    crear_fichero_ejemplo fs ruta n = Ok fs'
    ∧ (∀ r, r ≠ ruta → fs' !! r = fs !! r)
    ∧ contar_vocal_pipe (String c EmptyString) ruta env fs'
      = Trabajador
          [Mensaje (String c EmptyString)
             (Z.of_nat n * contar (String c EmptyString) ejemplo)
             (pid env) (f_sub (t1 env) (t0 env))]
          true (Ok ()).
Proof.
  intros Hc Hfs. exists (<[ruta := Texto (repetir n ejemplo)]> fs).
  unfold crear_fichero_ejemplo, escribir. split.
  { by destruct (fs !! ruta) as [[?|]|]. }
  split; [intros r Hr; by rewrite lookup_insert_ne|].
  unfold contar_vocal_pipe, abrir. rewrite lookup_insert_eq.
  destruct (letra_no_es_salto c Hc) as [HLF HCR].
  rewrite !contar_por_lineas, !cuenta_lineas, cuenta_repetir by done.
  by rewrite Nat2Z.inj_mul.
Qed.

End EJ1_ejemplo.

(** ** EJ4: the name of the output file *)

Section EJ4_nombre.
Import EJ4 Car Lectura.

Lemma digitos_ceros k s b :
  digitos (ceros k +:+ s) 0 b = digitos s 0 (b || (0 <? k)).
Proof.
  revert b. induction k as [|k IH]; intros b.
  - change (ceros 0 +:+ s) with s. by rewrite orb_false_r.
  - change (ceros (S k) +:+ s) with (String "0" (ceros k +:+ s)).
    cbn [digitos]. change (es_digito "0") with true. cbv iota.
    change (10 * 0 + valor "0")%Z with 0%Z. rewrite IH. simpl.
    by rewrite orb_true_r.
Qed.

Lemma digitos_pretty_N_tras (x : N) b : digitos (pretty x) 0 b = Some (Z.of_N x).
Proof.
  unfold pretty, pretty_N. case_decide as H0; [by subst|].
  rewrite digitos_pretty_N_go by lia. done.
Qed.

Lemma py_str_no_negativo (z : Z) b :
  (0 ≤ z)%Z → digitos (py_str z) 0 b = Some z.
Proof.
  intros Hz. unfold py_str, pretty, pretty_Z. destruct z as [|p|p]; [done| |lia].
  apply (digitos_pretty_N_tras (Npos p)).
Qed.

Lemma ceros_sin_blancos k : todos no_blanco (ceros k) = true.
Proof. induction k as [|k IH]; [done|]. exact IH. Qed.

Lemma int_literal_fmt_04d (n : Z) : int_literal (fmt_04d n) = Some n.
Proof.
  unfold fmt_04d. destruct (n <? 0)%Z eqn:Hn.
  - unfold int_literal. rewrite strip_no_blanco.
    + change ("-" +:+ ?x) with (String "-" x). cbv beta iota.
      rewrite digitos_ceros, py_str_no_negativo by lia. simpl. f_equal. lia.
    + change ("-" +:+ ?x) with (String "-" x). simpl.
      by rewrite todos_app, ceros_sin_blancos, py_str_sin_blancos.
  - change ("" +:+ ?x) with x. rewrite Z.abs_eq by lia.
    assert (todos no_blanco (ceros (4 - String.length "" - String.length (py_str n))
                             +:+ py_str n) = true) as Hb.
    { by rewrite todos_app, ceros_sin_blancos, py_str_sin_blancos. }
    rewrite int_literal_cifras; rewrite strip_no_blanco by done.
    + rewrite digitos_ceros, py_str_no_negativo by lia. done.
    + intros c r Hcr.
      assert (todos es_digito (ceros (4 - String.length "" - String.length (py_str n))
                               +:+ py_str n) = true) as Hd.
      { rewrite todos_app. apply andb_true_intro. split.
        - generalize (4 - String.length "" - String.length (py_str n)).
          intros k. induction k as [|k IH]; [done|]. exact IH.
        - unfold py_str, pretty, pretty_Z. destruct n as [|p|p]; [done| |lia].
          apply (pretty_N_digitos (Npos p)). }
      rewrite Hcr in Hd. simpl in Hd. by apply andb_prop in Hd as [? _].
Qed.

(** X10: The four-digit format of the year: the text has at least four
    characters and [int] reads the year back from it, so that two different
    years never share an output file. *)
Theorem nombre_salida_inyectiva (a b : Z) :
  (4 ≤ String.length (fmt_04d a) ∧ int_literal (fmt_04d a) = Some a)
  ∧ (a ≠ b → nombre_salida a ≠ nombre_salida b).
Proof.
  split; [split; [|apply int_literal_fmt_04d]|intros Hab H; apply Hab; revert H].
  - unfold fmt_04d. rewrite !length_append. destruct (a <? 0)%Z; simpl.
    + assert (∀ k, String.length (ceros k) = k) as ->
        by (intros k; induction k; simpl; auto). lia.
    + assert (∀ k, String.length (ceros k) = k) as ->
        by (intros k; induction k; simpl; auto). lia.
  - unfold nombre_salida. intros H.
    apply (inj (String.append "peliculas")) in H. apply append_inj_r in H.
    pose proof (int_literal_fmt_04d a) as Ha. rewrite H in Ha.
    rewrite int_literal_fmt_04d in Ha. by injection Ha.
Qed.

End EJ4_nombre.

(** ** EJ3B: the means of the marks drawn *)

Section EJ3B_medias.
Import EJ3 EJ3B Car.
Context `{Fl : Flotantes}.

(** X21: The two batches of [__main__] together: whatever the order in which the
    runs of either batch complete, when every mark drawn is one whose written
    line reads back as itself, the averaging result of each student is the
    sum of the marks drawn by the generation run of that student divided by
    their number, under that student's name. *)
Theorem medias_de_las_notas_generadas (n n_notas : nat)
    (plan_gen plan_med : list ejecucion) (fs : sistema) :
  plan_valido (tareas_gen n n_notas) plan_gen →
  plan_valido (tareas_med n) plan_med →
  (∀ i, 1 ≤ i ≤ n → fs !! ruta_alumno i ≠ Some Ilegible) →
  0 < n_notas →
  (∀ e, e ∈ plan_gen → Forall nota_legible (e_azar e <$> seq 0 n_notas)) →
  ∃ f,
    main n n_notas plan_gen plan_med fs = Some (Ok f)
    ∧ ∀ e, e ∈ plan_gen →
        ∃ r, resultados_med f !! indice e = Some r
             ∧ r_nombre r = nombre_alumno (S (indice e))
             ∧ r_media r = f_div (f_sum (e_azar e <$> seq 0 n_notas)) n_notas.
Proof.
  intros Hgen Hmed Hleg Hk Hnotas. unfold main.
  assert (inv_gen n (delete "medias.txt" fs)) as HI0.
  { split; [|apply lookup_delete_eq]. intros i Hi.
    rewrite lookup_delete_ne; [by apply Hleg|].
    intros H. by eapply ruta_alumno_no_medias. }
  destruct (lote_gen n n_notas plan_gen _ Hgen HI0)
    as (fs1 & rgen & -> & [Hleg1 Hmed1] & Hlg & Hrg).
  simpl.
  assert (∀ i, i < n → ∃ t, fs1 !! ruta_alumno (S i) = Some (Texto t)) as Hex.
  { intros i Hi.
    destruct (plan_valido_indices _ _ i Hgen) as (e & He & <-).
    { by rewrite length_tareas_gen. }
    destruct (Hrg e He) as (v & _ & _ & Hf). eauto. }
  destruct (lote_med n plan_med fs1 Hmed Hex) as (rmed & -> & Hlm & Hrm).
  simpl. unfold escribir. rewrite Hmed1. simpl.
  destruct (maximo_bucle_total (lineas (texto_medias rmed)) None) as [mejor Hmejor].
  unfold proceso_maximo_medias, abrir. rewrite lookup_insert_eq, Hmejor. simpl.
  assert (∃ mx, match mejor with
                | Some (max_nota, alumno_max) => Ok (NotaMaxima max_nota alumno_max)
                | None => Ok (SinMedias "medias.txt")
                end = Ok mx) as [mx ->]
    by (destruct mejor as [[m am]|]; eauto).
  simpl. eexists. split; [done|]. simpl.
  intros e He.
  assert (indice e < n) as Hi.
  { apply (list_elem_of_fmap_2 indice) in He. unfold plan_valido in Hgen.
    rewrite Hgen, elem_of_seq, length_tareas_gen in He. lia. }
  destruct (plan_valido_indices _ _ (indice e) Hmed) as (e' & He' & Hie).
  { by rewrite length_tareas_med. }
  destruct (Hrm e' He') as (m & Hr & Hm). rewrite Hie in Hr, Hm.
  destruct (Hrg e He) as (v & _ & _ & Hf).
  pose proof (leer_media_casos fs1 (ruta_alumno (S (indice e)))) as Hc.
  rewrite Hf, Hm, (notas_de_las_generadas n_notas (e_azar e)) in Hc by auto.
  assert (length (e_azar e <$> seq 0 n_notas) = n_notas) as Hlen
    by (by rewrite length_fmap, length_seq).
  assert (m = f_div (f_sum (e_azar e <$> seq 0 n_notas)) n_notas) as ->.
  { destruct (e_azar e <$> seq 0 n_notas) as [|y l]; simpl in Hlen; [lia|].
    injection Hc as ->. by rewrite <- Hlen. }
  rewrite Hr. eexists. split_and!; done.
Qed.

End EJ3B_medias.

(** ** EJ3A: from the lock to the max-finder *)

Section EJ3A_maximo.
Import EJ3 EJ3A Car.
Context `{Fl : Flotantes} `{!OrdenFlotantes Fl}.

Lemma lineas_enteras ls :
  Forall (λ l, ∃ cuerpo, l = cuerpo +:+ nl ∧ todos no_salto cuerpo = true) ls →
  lineas (concatenar ls) = ls.
Proof.
  induction 1 as [|l ls (cuerpo & -> & Hc) _ IH]; [done|].
  change (concatenar ((cuerpo +:+ nl) :: ls))
    with ((cuerpo +:+ nl) +:+ concatenar ls).
  rewrite append_assoc, lineas_linea by done. by rewrite IH.
Qed.

(** X18: The last two stages of [__main__] together: whatever the scheduling of
    the averaging workers, once all of them have returned the max-finder
    reads their lines back from the shared file and reports one of the
    students, with what [float] reads from the text of that student's mean,
    and no student's mean reads as a greater number.  The names hold no
    blank and the text of every mean is one that [float] reads. *)
Theorem maximo_tras_el_cerrojo (fs : sistema) (tareas : list (string * string))
    (ruta_medias : string) (plan : list eleccion) :
  entradas_legibles fs tareas →
  tareas ≠ [] →
  (∀ i ruta nombre media,
     tareas !! i = Some (ruta, nombre) → leer_media fs ruta = Ok (Some media) →
     (∃ x, media_legible media x)
     ∧ todos no_blanco nombre = true ∧ nombre ≠ EmptyString) →
  let w := ejecutar fs tareas (inicial tareas) plan in
  todos_fin w →
  ∃ i ruta nombre media nota,
    tareas !! i = Some (ruta, nombre)
    ∧ leer_media fs ruta = Ok (Some media)
    ∧ media_legible media nota
    ∧ proceso_maximo_medias (<[ruta_medias := Texto (sumidero w)]> fs) ruta_medias
      = Ok (NotaMaxima nota nombre)
    ∧ ∀ j ruta' nombre' media' x,
        tareas !! j = Some (ruta', nombre') →
        leer_media fs ruta' = Ok (Some media') →
        media_legible media' x → f_gt x nota = false.
Proof.
  intros Hleg Hne Hform w Hfin.
  destruct (ejecutar_coherente fs tareas Hleg plan _ (inicial_coherente fs tareas))
    as (L & C & K & S).
  fold w in L, C, K, S. unfold todos_fin in Hfin.
  assert (∀ i f, procesos w !! i = Some f → f = Fin) as Hf.
  { intros i f Hi. eapply Forall_lookup_1 in Hfin; eauto. }
  assert (cerrojo w = None) as Hk.
  { destruct (cerrojo w) as [k|] eqn:Hk; [|done].
    destruct (proj1 (K k) eq_refl) as [p Hp]. by apply Hf in Hp. }
  destruct S as (orden & parcial & ND & M & Hs & Hh).
  { intros i e Hi. by apply Hf in Hi. }
  rewrite Hk in Hh. subst parcial. rewrite append_nil_r in Hs.
  assert (∀ i, i ∈ orden ↔ i < length tareas) as Hdom.
  { intros i. rewrite (M i), <- L. split.
    - by intros ?%lookup_lt_Some.
    - intros [f Hi]%lookup_lt_is_Some. rewrite Hi. f_equal. by eapply Hf. }
  set (ls := linea_o_vacia fs tareas <$> orden).
  assert (∀ i ruta nombre media x,
            tareas !! i = Some (ruta, nombre) →
            leer_media fs ruta = Ok (Some media) →
            media_legible media x →
            linea_o_vacia fs tareas i = linea_media media nombre
            ∧ linea_media media nombre ∈ ls
            ∧ bien_formada (linea_media media nombre) x nombre
            ∧ todos no_salto (f_fmt2 media +:+ " " +:+ nombre) = true) as Hlin.
  { intros i ruta nombre media x Ht Hm Hx.
    destruct (Hform _ _ _ _ Ht Hm) as (_ & Hn & Hnn).
    assert (linea_o_vacia fs tareas i = linea_media media nombre) as Hl.
    { unfold linea_o_vacia, linea_de. by rewrite Ht, Hm. }
    split; [done|]. split; [|split].
    - rewrite <- Hl. unfold ls. apply list_elem_of_fmap. exists i. split; [done|].
      apply Hdom. by eapply lookup_lt_Some.
    - by apply linea_media_bien_formada.
    - destruct Hx as (Hb & _ & _).
      change (" " +:+ nombre) with (String " " nombre).
      rewrite todos_app. simpl. by rewrite !no_blanco_no_salto. }
  assert (∀ i, i < length tareas →
            ∃ ruta nombre media x,
              tareas !! i = Some (ruta, nombre)
              ∧ leer_media fs ruta = Ok (Some media)
              ∧ media_legible media x) as Hcada.
  { intros i Hi. destruct (Hleg i Hi) as [l Hl].
    destruct (linea_de_forma _ _ _ _ Hl) as (ruta & nombre & media & Ht & Hm & _).
    destruct (Hform _ _ _ _ Ht Hm) as ([x Hx] & _). by exists ruta, nombre, media, x. }
  assert (lineas (sumidero w) = ls) as Hlineas.
  { rewrite Hs. apply lineas_enteras. unfold ls. apply Forall_fmap, Forall_forall.
    intros i Hi%Hdom. destruct (Hcada i Hi) as (ruta & nombre & media & x & Ht & Hm & Hx).
    destruct (Hlin _ _ _ _ _ Ht Hm Hx) as (Hl & _ & _ & Hsal). simpl.
    exists (f_fmt2 media +:+ " " +:+ nombre). split; [|done].
    by rewrite Hl, linea_media_cuerpo. }
  unfold proceso_maximo_medias, abrir. rewrite lookup_insert_eq, Hlineas.
  assert (mejor_de [] None) as Hini.
  { simpl. intros l m a Hl. by apply elem_of_nil in Hl. }
  destruct (maximo_bucle_mejor ls [] None Hini) as (mejor & -> & Hmejor).
  simpl in Hmejor. simpl.
  destruct mejor as [[m am]|].
  - destruct Hmejor as [(l & Hl & Hlbf) Hmax].
    apply list_elem_of_fmap in Hl as (i & -> & Hi%Hdom).
    destruct (Hcada i Hi) as (ruta & nombre & media & x & Ht & Hm & Hx).
    destruct (Hlin _ _ _ _ _ Ht Hm Hx) as (Hl & _ & Hbf & _).
    rewrite Hl in Hlbf.
    destruct (bien_formada_funcional _ _ _ _ _ Hlbf Hbf) as [-> ->].
    exists i, ruta, nombre, media, x. split_and!; try done.
    intros j ruta' nombre' media' x' Ht' Hm' Hx'.
    destruct (Hlin _ _ _ _ _ Ht' Hm' Hx') as (_ & Hin & Hbf' & _).
    by eapply Hmax.
  - assert (0 < length tareas) as H0 by (destruct tareas; [done|simpl; lia]).
    destruct (Hcada 0 H0) as (ruta & nombre & media & x & Ht & Hm & Hx).
    destruct (Hlin _ _ _ _ _ Ht Hm Hx) as (_ & Hin & Hbf & _).
    by destruct (Hmejor _ _ _ Hin Hbf).
Qed.

End EJ3A_maximo.

(** ** The further properties on concrete inputs *)

Section Mas_evaluaciones.
Import Ejemplos Ejemplos_resto.

Lemma generar_ips_campos_witness :
  0 < 2
  ∧ ∃ ip, EJ2.g_enviados (EJ2.generar_ips 2 octetos0) !! 0 = Some (Some ip)
          ∧ PyStr.split "." ip = ["10"; "201"; "30"; "203"].
Proof.
  split; [lia|].
  exact (proj2 (proj2 (proj2 (generar_ips_campos 2 octetos0))) 0 (Nat.lt_0_succ 1)).
Defined.

Lemma tuberia_por_primer_octeto_witness :
  (fst (EJ2.rango EJ2.A) ≤ octetos0 0 ≤ snd (EJ2.rango EJ2.A))%Z
  ∧ (EJ2.una_ip octetos0 0, EJ2.A) ∈ EJ2.impresos (EJ2.tuberia 2 octetos0).2.
Proof.
  assert (fst (EJ2.rango EJ2.A) ≤ octetos0 0 ≤ snd (EJ2.rango EJ2.A))%Z as Hr
    by (unfold octetos0; simpl; lia).
  split; [exact Hr|].
  apply (tuberia_por_primer_octeto (Ley := ley_lectura) 2 octetos0).
  exists 0. split; [lia|]. split; [reflexivity|]. split; [by left|exact Hr].
Defined.

Lemma escritor_ante_cualquier_entrada_witness :
  (∅ : sistema) !! EJ4.nombre_salida 1999 ≠ Some Ilegible
  ∧ fs_salida_bloqueada !! EJ4.nombre_salida 1999 = Some Ilegible
  ∧ EJ4.e_ficheros
      (EJ4.proceso_escribir_peliculas [Some "Matrix;1999"; None; Some "x"] 1999 ∅)
    = {[ EJ4.nombre_salida 1999 := Texto ("Matrix;1999" +:+ nl) ]}
  ∧ EJ4.e_sin_leer
      (EJ4.proceso_escribir_peliculas [Some "Matrix;1999"; None; Some "x"] 1999 ∅)
    = [Some "x"]
  ∧ EJ4.e_sin_leer
      (EJ4.proceso_escribir_peliculas [Some "Matrix;1999"; None] 1999 fs_salida_bloqueada)
    = [Some "Matrix;1999"; None].
Proof.
  assert ((∅ : sistema) !! EJ4.nombre_salida 1999 ≠ Some Ilegible) as Hfs
    by (by rewrite lookup_empty).
  assert (fs_salida_bloqueada !! EJ4.nombre_salida 1999 = Some Ilegible) as Hno
    by reflexivity.
  split; [exact Hfs|]. split; [exact Hno|].
  pose proof (escritor_ante_cualquier_entrada [Some "Matrix;1999"; None; Some "x"]
                1999 ∅) as (_ & _ & Hsi & _).
  destruct (Hsi Hfs) as (H1 & _ & H3 & _).
  pose proof (escritor_ante_cualquier_entrada [Some "Matrix;1999"; None]
                1999 fs_salida_bloqueada) as (_ & _ & _ & Hbl).
  destruct (Hbl Hno) as (_ & _ & H3' & _).
  split; [exact H1|]. split; [exact H3|exact H3'].
Defined.

Lemma filtrado_idempotente_witness :
  fs_peliculas !! EJ4.nombre_salida 1999 ≠ Some Ilegible
  ∧ EJ4.enviados
      (EJ4.proceso_filtrar_por_anyo (EJ4.nombre_salida 1999) 1999
         (EJ4.e_ficheros
            (EJ4.proceso_escribir_peliculas
               (EJ4.enviados (EJ4.proceso_filtrar_por_anyo "p.txt" 1999 fs_peliculas))
               1999 fs_peliculas)))
    = EJ4.enviados (EJ4.proceso_filtrar_por_anyo "p.txt" 1999 fs_peliculas).
Proof.
  assert (fs_peliculas !! EJ4.nombre_salida 1999 ≠ Some Ilegible) as Hfs.
  { assert (fs_peliculas !! EJ4.nombre_salida 1999 = None) as -> by reflexivity.
    discriminate. }
  split; [exact Hfs|].
  exact (proj1 (filtrado_idempotente (Ley := ley_lectura) "p.txt" 1999
                  fs_peliculas fs_peliculas Hfs)).
Defined.

Lemma validar_anyo_exacto_witness :
  int_of_str "1999" = Some 1999%Z ∧ (0 < 1999 < 2025)%Z
  ∧ EJ4.validar_anyo_input 2025 "1999" = Ok (Some 1999%Z).
Proof.
  assert (int_of_str "1999" = Some 1999%Z) as Hi by reflexivity.
  assert (0 < 1999 < 2025)%Z as Hr by lia.
  split; [exact Hi|]. split; [exact Hr|].
  exact (proj2 (proj2 (validar_anyo_exacto 2025 "1999") 1999%Z) (conj Hi Hr)).
Defined.


Lemma contar_es_recuento_witness :
  Car.no_salto (PyStr.lower_char "a") = true
  ∧ EJ1.contar "a" ("Hola Ana" +:+ nl +:+ "AEIOU u")
    = Z.of_nat (Car.cuenta (λ x, Ascii.eqb (PyStr.lower_char x) (PyStr.lower_char "a"))
                  ("Hola Ana" +:+ nl +:+ "AEIOU u")).
Proof.
  split; [reflexivity|].
  exact (contar_es_recuento "a" ("Hola Ana" +:+ nl +:+ "AEIOU u") eq_refl).
Defined.

Lemma main_informe_witness :
  fs_texto !! "texto.txt" ≠ Some Ilegible
  ∧ ∃ informe_final,
      EJ1.main fs_texto (λ _, env0) = Ok informe_final
      ∧ vocal_de_linea <$> informe_final = EJ1.vocales
      ∧ ∃ texto,
          informe_final
          = (λ v, EJ1.Conteo v (EJ1.contar v texto) (Some 4242%Z) (Some 250%Z))
            <$> EJ1.vocales.
Proof.
  assert (fs_texto !! "texto.txt" ≠ Some Ilegible) as Hfs.
  { assert (fs_texto !! "texto.txt" = Some (Texto ("Hola Ana" +:+ nl +:+ "AEIOU u")))
      as -> by reflexivity.
    discriminate. }
  split; [exact Hfs|].
  destruct (main_informe fs_texto (λ _, env0)) as (inf & Hm & Hv & _ & Hl).
  exists inf. split; [exact Hm|]. split; [exact Hv|].
  destruct (Hl Hfs) as (texto & _ & Ht). exists texto. exact Ht.
Defined.

Lemma conteo_del_ejemplo_witness :
  Car.no_salto (PyStr.lower_char "a") = true
  ∧ (∅ : sistema) !! "texto.txt" ≠ Some Ilegible
  ∧ ∃ fs',
      EJ1.crear_fichero_ejemplo ∅ "texto.txt" 2000 = Ok fs'
      ∧ EJ1.w_enviados (EJ1.contar_vocal_pipe "a" "texto.txt" env0 fs')
        = [EJ1.Mensaje "a" (Z.of_nat 2000 * EJ1.contar "a" EJ1.ejemplo) 4242 250%Z].
Proof.
  assert ((∅ : sistema) !! "texto.txt" ≠ Some Ilegible) as Hfs
    by (by rewrite lookup_empty).
  split; [reflexivity|]. split; [exact Hfs|].
  destruct (conteo_del_ejemplo "a" "texto.txt" 2000 env0 ∅ eq_refl Hfs)
    as (fs' & Hc & _ & Hw).
  exists fs'. split; [exact Hc|]. by rewrite Hw.
Defined.

Lemma notas_legibles_azar0 : Forall nota_legible (azar0 <$> seq 0 6).
Proof. repeat constructor. Defined.

Lemma media_de_las_generadas_witness :
  (∅ : sistema) !! "Alumno1.txt" ≠ Some Ilegible
  ∧ Forall nota_legible (azar0 <$> seq 0 6)
  ∧ ∃ fs',
      EJ3A.generar_notas "Alumno1.txt" 6 azar0 ∅ = Ok fs'
      ∧ EJ3.leer_media fs' "Alumno1.txt"
        = Ok (Some (f_div (f_sum (azar0 <$> seq 0 6)) 6)).
Proof.
  assert ((∅ : sistema) !! "Alumno1.txt" ≠ Some Ilegible) as Hfs
    by (by rewrite lookup_empty).
  split; [exact Hfs|]. split; [exact notas_legibles_azar0|].
  destruct (media_de_las_generadas "Alumno1.txt" 6 azar0 ∅ Hfs notas_legibles_azar0)
    as (fs' & Hg & _ & Hm).
  exists fs'. split; [exact Hg|exact Hm].
Defined.

Lemma generacion_sin_carreras_witness :
  [1; 2] ≡ₚ [2; 1]
  ∧ EJ3A.etapa_generacion [2; 1] azar_alumnos ∅
    = EJ3A.etapa_generacion [1; 2] azar_alumnos ∅.
Proof.
  assert ([1; 2] ≡ₚ [2; 1]) as Hp by apply perm_swap.
  split; [exact Hp|].
  exact (proj1 (generacion_sin_carreras [1; 2] [2; 1] azar_alumnos ∅ Hp)).
Defined.

Lemma generacion_deja_entradas_legibles_witness :
  [2; 1] ≡ₚ seq 1 2
  ∧ (∀ i, 1 ≤ i ≤ 2 → (∅ : sistema) !! EJ3.ruta_alumno i ≠ Some Ilegible)
  ∧ EJ3A.entradas_legibles (EJ3A.etapa_generacion [2; 1] azar_alumnos ∅)
      (EJ3.tareas_med 2)
  ∧ EJ3A.linea_de (EJ3A.etapa_generacion [2; 1] azar_alumnos ∅) (EJ3.tareas_med 2) 0
    = Some (EJ3.linea_media (f_div (f_sum (azar_alumnos 1 <$> seq 0 6)) 6)
              (EJ3.nombre_alumno 1)).
Proof.
  assert ([2; 1] ≡ₚ seq 1 2) as Hp by apply perm_swap.
  assert (∀ i, 1 ≤ i ≤ 2 → (∅ : sistema) !! EJ3.ruta_alumno i ≠ Some Ilegible) as Hfs
    by (intros i _; by rewrite lookup_empty).
  split; [exact Hp|]. split; [exact Hfs|].
  destruct (generacion_deja_entradas_legibles 2 [2; 1] azar_alumnos ∅ Hp Hfs)
    as [Hleg Hlin].
  split; [exact Hleg|]. apply Hlin; [|lia].
  intros i Hi. assert (i = 1 ∨ i = 2) as [-> | ->] by lia; repeat constructor.
Defined.

Lemma apendar_solo_anade_witness :
  EJ3A.calcular_media_y_apendar "Alumno1.txt" "Alumno1" "medias.txt" fs_notas
  = Ok (<["medias.txt" := Texto ("7.50 Alumno1" +:+ nl)]> fs_notas,
        EJ3.MediaCalculada 750%Z "Alumno1")
  ∧ ∀ r, r ≠ "medias.txt" →
         (<["medias.txt" := Texto ("7.50 Alumno1" +:+ nl)]> fs_notas) !! r
         = fs_notas !! r.
Proof.
  assert (EJ3A.calcular_media_y_apendar "Alumno1.txt" "Alumno1" "medias.txt" fs_notas
          = Ok (<["medias.txt" := Texto ("7.50 Alumno1" +:+ nl)]> fs_notas,
                EJ3.MediaCalculada 750%Z "Alumno1")) as Hc by reflexivity.
  split; [exact Hc|].
  exact (proj1 (apendar_solo_anade "Alumno1.txt" "Alumno1" "medias.txt" fs_notas _ _ Hc)).
Defined.

Lemma main_sin_permiso_witness :
  EJ3B.plan_valido (EJ3B.tareas_gen 3 2) plan_gen_ej
  ∧ 1 ≤ 2 ≤ 3
  ∧ fs_alumno_bloqueado !! EJ3.ruta_alumno 2 = Some Ilegible
  ∧ EJ3B.main 3 2 plan_gen_ej plan_med_ej fs_alumno_bloqueado = Some (Raise OSError).
Proof.
  assert (EJ3B.plan_valido (EJ3B.tareas_gen 3 2) plan_gen_ej) as Hg
    by (unfold EJ3B.plan_valido; by apply (bool_decide_unpack _)).
  assert (1 ≤ 2 ≤ 3) as Hi by lia.
  assert (fs_alumno_bloqueado !! EJ3.ruta_alumno 2 = Some Ilegible) as Hfs
    by reflexivity.
  split; [exact Hg|]. split; [exact Hi|]. split; [exact Hfs|].
  exact (main_sin_permiso 3 2 plan_gen_ej plan_med_ej fs_alumno_bloqueado 2 Hg Hi Hfs).
Defined.

Lemma medias_legibles_ej :
  Forall (λ r, ∃ x, media_legible (EJ3B.r_media r) x) (EJ3B.resultados_med final_ej).
Proof. repeat constructor; eexists; repeat split; (reflexivity || discriminate). Defined.

Lemma maximo_de_las_medias_witness :
  EJ3B.main 3 2 plan_gen_ej plan_med_ej ∅ = Some (Ok final_ej)
  ∧ Forall (λ r, ∃ x, media_legible (EJ3B.r_media r) x) (EJ3B.resultados_med final_ej)
  ∧ ∃ r nota,
      r ∈ EJ3B.resultados_med final_ej
      ∧ EJ3B.maximo final_ej = EJ3.NotaMaxima nota (EJ3B.r_nombre r)
      ∧ ∀ r' x, r' ∈ EJ3B.resultados_med final_ej →
                media_legible (EJ3B.r_media r') x → f_gt x nota = false.
Proof.
  assert (EJ3B.main 3 2 plan_gen_ej plan_med_ej ∅ = Some (Ok final_ej)) as Hm
    by reflexivity.
  split; [exact Hm|]. split; [exact medias_legibles_ej|].
  destruct (maximo_de_las_medias 3 2 plan_gen_ej plan_med_ej ∅ final_ej Hm
              medias_legibles_ej) as [[Hnil _]|(r & nota & Hr & _ & Hmx & Hmax)].
  - assert (length (EJ3B.resultados_med final_ej) = 3) as Hlen by reflexivity.
    rewrite Hnil in Hlen. discriminate Hlen.
  - exists r, nota. split; [exact Hr|]. split; [exact Hmx|exact Hmax].
Defined.

Lemma nombre_salida_inyectiva_witness :
  1999%Z ≠ 2000%Z ∧ EJ4.nombre_salida 1999 ≠ EJ4.nombre_salida 2000.
Proof.
  assert (1999%Z ≠ 2000%Z) as Hne by lia.
  split; [exact Hne|].
  exact (proj2 (nombre_salida_inyectiva 1999 2000) Hne).
Defined.

Lemma notas_legibles_corridas e :
  e ∈ plan_gen_ej → Forall nota_legible (EJ3B.e_azar e <$> seq 0 2).
Proof.
  unfold plan_gen_ej. intros He.
  repeat (apply elem_of_cons in He as [->|He]; [by repeat constructor|]).
  by apply elem_of_nil in He.
Qed.

Lemma medias_de_las_notas_generadas_witness :
  EJ3B.plan_valido (EJ3B.tareas_gen 3 2) plan_gen_ej
  ∧ EJ3B.plan_valido (EJ3.tareas_med 3) plan_med_ej
  ∧ (∀ i, 1 ≤ i ≤ 3 → (∅ : sistema) !! EJ3.ruta_alumno i ≠ Some Ilegible)
  ∧ 0 < 2
  ∧ ∃ f,
      EJ3B.main 3 2 plan_gen_ej plan_med_ej ∅ = Some (Ok f)
      ∧ ∃ r, EJ3B.resultados_med f !! 2 = Some r
             ∧ EJ3B.r_nombre r = EJ3.nombre_alumno 3
             ∧ EJ3B.r_media r
               = f_div (f_sum (EJ3B.e_azar (corrida 2) <$> seq 0 2)) 2.
Proof.
  assert (EJ3B.plan_valido (EJ3B.tareas_gen 3 2) plan_gen_ej) as Hg
    by (unfold EJ3B.plan_valido; by apply (bool_decide_unpack _)).
  assert (EJ3B.plan_valido (EJ3.tareas_med 3) plan_med_ej) as Hm
    by (unfold EJ3B.plan_valido; by apply (bool_decide_unpack _)).
  assert (∀ i, 1 ≤ i ≤ 3 → (∅ : sistema) !! EJ3.ruta_alumno i ≠ Some Ilegible) as Hl
    by (intros i _; by rewrite lookup_empty).
  assert (0 < 2) as Hk by lia.
  split; [exact Hg|]. split; [exact Hm|]. split; [exact Hl|]. split; [exact Hk|].
  destruct (medias_de_las_notas_generadas 3 2 plan_gen_ej plan_med_ej ∅ Hg Hm Hl Hk
              notas_legibles_corridas) as (f & Hmain & Hmedias).
  exists f. split; [exact Hmain|].
  apply (Hmedias (corrida 2)). by left.
Defined.

Lemma medias_legibles_notas i ruta nombre (media : float) :
  EJ3.tareas_med 2 !! i = Some (ruta, nombre) →
  EJ3.leer_media fs_notas ruta = Ok (Some media) →
  (∃ x, media_legible media x)
  ∧ Car.todos Car.no_blanco nombre = true ∧ nombre ≠ EmptyString.
Proof.
  destruct i as [|[|i]]; [| |done]; intros [= <- <-] Hm.
  - assert (EJ3.leer_media fs_notas (EJ3.ruta_alumno 1) = Ok (Some 750%Z)) as H
      by reflexivity.
    rewrite H in Hm. injection Hm as <-. split; [|done].
    exists 750%Z. by repeat split.
  - assert (EJ3.leer_media fs_notas (EJ3.ruta_alumno 2) = Ok (Some 950%Z)) as H
      by reflexivity.
    rewrite H in Hm. injection Hm as <-. split; [|done].
    exists 950%Z. by repeat split.
Qed.

Lemma maximo_tras_el_cerrojo_witness :
  let w := EJ3A.ejecutar fs_notas (EJ3.tareas_med 2) (EJ3A.inicial (EJ3.tareas_med 2))
             plan_intercalado in
  EJ3A.entradas_legibles fs_notas (EJ3.tareas_med 2)
  ∧ EJ3A.todos_fin w
  ∧ ∃ nota nombre,
      EJ3.proceso_maximo_medias (<["medias.txt" := Texto (EJ3A.sumidero w)]> fs_notas)
        "medias.txt"
      = Ok (EJ3.NotaMaxima nota nombre).
Proof.
  intros w. split; [exact notas_legibles|].
  assert (EJ3A.procesos w = [EJ3A.Fin; EJ3A.Fin]) as Hps by reflexivity.
  assert (EJ3A.todos_fin w) as Hfin.
  { unfold EJ3A.todos_fin. rewrite Hps. by repeat constructor. }
  split; [exact Hfin|].
  assert (EJ3.tareas_med 2 ≠ []) as Hne by discriminate.
  destruct (maximo_tras_el_cerrojo fs_notas (EJ3.tareas_med 2) "medias.txt"
              plan_intercalado notas_legibles Hne medias_legibles_notas Hfin)
    as (i & ruta & nombre & media & nota & _ & _ & _ & Hmx & _).
  exists nota, nombre. exact Hmx.
Defined.

End Mas_evaluaciones.
